(** * Foreman daily reports: report rendering, pagination and export

    A shallow embedding of [src/app/page.tsx] (the [Page] component's
    helpers [renderReportHTML], [renderAllReportsHTML], [generatePDF],
    [exportJSON], the category handlers and [escapeHTML]) together with the
    parts of the JavaScript run time those helpers rely on: strings,
    [String.prototype.padStart], [Date], ordinary objects used as maps and
    [JSON].

    Conventions.
    - A JavaScript string is a [string]: the sequence of the bytes of its
      UTF-8 encoding (so well-formed text only).
    - The numbers the program stores (category percentages, date components)
      are integers and are modelled in [Z]; [NaN] is [None] where it can
      arise.  Lengths in the PDF are exact rationals ([Q]).
    - An object used as a map is the list of its own properties in the
      order [Object.entries] enumerates them. *)

From Stdlib Require Import String Ascii List NArith ZArith QArith Qround Lia Lqa Bool.
Import ListNotations.

Local Open Scope string_scope.
Local Open Scope list_scope.
Local Open Scope Z_scope.

(** ** Strings *)

Module JSString.

(** The double quote, [U+0022]. *)
Definition dquote : ascii := ascii_of_nat 34.

(** Template text is written below with a backquote wherever the source
    has a double quote; [tpl] puts the double quotes back.  (No template
    of the source contains a backquote of its own.) *)
Fixpoint tpl (s : string) : string :=
  match s with
  | EmptyString => EmptyString
  | String c r => String (if Ascii.eqb c "`" then dquote else c) (tpl r)
  end.

(** [Array.prototype.join] on an array of strings. *)
Fixpoint join (sep : string) (l : list string) : string :=
  match l with
  | [] => ""
  | [x] => x
  | x :: r => (x ++ sep ++ join sep r)%string
  end.

(** [x || d] on strings: the empty string is the only falsy string. *)
Definition or_else (x d : string) : string :=
  match x with EmptyString => d | _ => x end.

(** [fill n pad rest]: the first [n] characters of [rest] followed by
    [pad] repeated for ever. *)
Fixpoint fill (n : nat) (pad rest : string) : string :=
  match n with
  | O => ""
  | S k =>
      match rest with
      | String c r => String c (fill k pad r)
      | EmptyString =>
          match pad with
          | String c r => String c (fill k pad r)
          | EmptyString => ""
          end
      end
  end.

(** [String.prototype.padStart(targetLength, padString)]. *)
Definition padStart (s : string) (targetLength : nat) (padString : string) : string :=
  if (targetLength <=? String.length s)%nat then s
  else match padString with
       | EmptyString => s
       | _ => (fill (targetLength - String.length s) padString padString ++ s)%string
       end.

(** Decimal digits of a non-negative integer, most significant first. *)
Definition digitChar (d : Z) : ascii := ascii_of_nat (48 + Z.to_nat d).

Fixpoint digits (fuel : nat) (n : Z) (acc : string) : string :=
  let acc' := String (digitChar (n mod 10)) acc in
  match fuel with
  | O => acc'
  | S f => if n <? 10 then acc' else digits f (n / 10) acc'
  end.

(** [Number::toString] on an integer (radix 10, no exponent: the
    integers of this program are far below 1e21). *)
Definition Number_toString (n : Z) : string :=
  if n <? 0 then String "-" (digits (Z.to_nat (Z.log2 (- n))) (- n) "")
  else digits (Z.to_nat (Z.log2 n)) n "".

(** [String(x)] on a number that may be [NaN]. *)
Definition String_of_number (x : option Z) : string :=
  match x with
  | Some n => Number_toString n
  | None => "NaN"
  end.

End JSString.

Import JSString.

(** ** [escapeHTML] (page.tsx, end of file) *)

(** The replacement table of the callback: each of the five characters of
    the class (ampersand, less-than, greater-than, double quote, apostrophe)
    has an entity; the regular expression matches no other character, which
    is therefore kept. *)
Definition escapeChar (c : ascii) : string :=
  if Ascii.eqb c "&" then "&amp;"
  else if Ascii.eqb c "<" then "&lt;"
  else if Ascii.eqb c ">" then "&gt;"
  else if Ascii.eqb c dquote then "&quot;"
  else if Ascii.eqb c "'" then "&#39;"
  else String c "".

(** [(str || empty).replace(class, c => table[c])] with the [g] flag: a
    global replace visits every character once, left to right, and never
    rescans its own output. *)
Fixpoint escapeHTML (str : string) : string :=
  match str with
  | EmptyString => ""
  | String c r => (escapeChar c ++ escapeHTML r)%string
  end.

(** One of the five HTML-sensitive characters. *)
Definition html_sensitive (c : ascii) : bool :=
  Ascii.eqb c "&" || Ascii.eqb c "<" || Ascii.eqb c ">"
  || Ascii.eqb c dquote || Ascii.eqb c "'".

(** A string holds no raw HTML-sensitive character: no less-than,
    greater-than, double quote or apostrophe, and an ampersand only as the
    first character of one of the five entities. *)
Fixpoint html_safe (s : string) : bool :=
  match s with
  | EmptyString => true
  | String c r =>
      if Ascii.eqb c "&" then
        (prefix "amp;" r || prefix "lt;" r || prefix "gt;" r
         || prefix "quot;" r || prefix "#39;" r) && html_safe r
      else negb (html_sensitive c) && html_safe r
  end.

(** ** [Date]

    A [Date] object holds a time value: milliseconds since the epoch in
    UTC, or [NaN] (an invalid date).  The getters the program uses
    ([getFullYear], [getMonth], [getDate]) read the calendar date of the
    LOCAL time, [t + LocalTZA t], where [LocalTZA] is the host's time zone
    adjustment (ECMAScript, Date objects). *)

Module JSDate.

Definition msPerDay : Z := 86400000.

(** [Day(t)] of ECMAScript. *)
Definition Day (t : Z) : Z := t / msPerDay.

(** Calendar date (year, month from 1, day of month) of a day number
    counted from 1970-01-01, in the proleptic Gregorian calendar. *)
Definition civil_from_days (z : Z) : Z * Z * Z :=
  let z := z + 719468 in
  let era := z / 146097 in
  let doe := z - era * 146097 in
  let yoe := (doe - doe / 1460 + doe / 36524 - doe / 146096) / 365 in
  let y := yoe + era * 400 in
  let doy := doe - (365 * yoe + yoe / 4 - yoe / 100) in
  let mp := (5 * doy + 2) / 153 in
  let d := doy - (153 * mp + 2) / 5 + 1 in
  let m := if mp <? 10 then mp + 3 else mp - 9 in
  (if m <=? 2 then y + 1 else y, m, d).

(** Day number of a calendar date ([MakeDay]). *)
Definition days_from_civil (y m d : Z) : Z :=
  let y := if m <=? 2 then y - 1 else y in
  let era := y / 400 in
  let yoe := y - era * 400 in
  let doy := (153 * (if 2 <? m then m - 3 else m + 9) + 2) / 5 + d - 1 in
  let doe := yoe * 365 + yoe / 4 - yoe / 100 + doy in
  era * 146097 + doe - 719468.

(** [YearFromTime], [MonthFromTime] and [DateFromTime] of ECMAScript. *)
Definition YearFromTime (t : Z) : Z :=
  let '(y, _, _) := civil_from_days (Day t) in y.

(** Months are numbered from 0 by [MonthFromTime]. *)
Definition MonthFromTime (t : Z) : Z :=
  let '(_, m, _) := civil_from_days (Day t) in m - 1.

Definition DateFromTime (t : Z) : Z :=
  let '(_, _, d) := civil_from_days (Day t) in d.

(** Leap years, and the number of days of month [m] (from 1) of year [y]. *)
Definition isLeap (y : Z) : bool :=
  ((y mod 4 =? 0) && negb (y mod 100 =? 0)) || (y mod 400 =? 0).

Definition DaysInMonth (y m : Z) : Z :=
  if m =? 2 then (if isLeap y then 29 else 28)
  else if (m =? 4) || (m =? 6) || (m =? 9) || (m =? 11) then 30
  else 31.

(** *** Parsing: the date-time string format

    [Date.parse] is modelled on the two instances of the ECMAScript
    date-time string format that the program itself produces and stores:
    the date-only form [YYYY-MM-DD] (the value of a date input; read as
    UTC) and the form [YYYY-MM-DDTHH:mm:ss.sssZ] that [toISOString]
    returns.  Any other string is an invalid date here. *)

(** The value of a decimal digit. *)
Definition digit_val (c : ascii) : option Z :=
  let n := Z.of_nat (nat_of_ascii c) in
  if (48 <=? n) && (n <=? 57) then Some (n - 48) else None.

(** Exactly [n] decimal digits. *)
Fixpoint take_digits (n : nat) (acc : Z) (s : string) : option (Z * string) :=
  match n with
  | O => Some (acc, s)
  | S k =>
      match s with
      | String c r =>
          match digit_val c with
          | Some d => take_digits k (10 * acc + d) r
          | None => None
          end
      | EmptyString => None
      end
  end.

(** The next character is [c]. *)
Definition expect (c : ascii) (s : string) : option string :=
  match s with
  | String c' r => if Ascii.eqb c c' then Some r else None
  | EmptyString => None
  end.

Notation "'let?' x ':=' e 'in' k" :=
  (match e with Some x => k | None => None end)
    (at level 10, x pattern, e at level 100, k at level 200).

(** [YYYY-MM-DD]: the day number. *)
Definition parse_date (s : string) : option (Z * string) :=
  let? (y, s) := take_digits 4 0 s in
  let? s := expect "-" s in
  let? (m, s) := take_digits 2 0 s in
  let? s := expect "-" s in
  let? (d, s) := take_digits 2 0 s in
  if (1 <=? m) && (m <=? 12) && (1 <=? d) && (d <=? DaysInMonth y m)
  then Some (days_from_civil y m d, s) else None.

(** [HH:mm:ss.sss]: the milliseconds since midnight. *)
Definition parse_time (s : string) : option (Z * string) :=
  let? (h, s) := take_digits 2 0 s in
  let? s := expect ":" s in
  let? (mi, s) := take_digits 2 0 s in
  let? s := expect ":" s in
  let? (sec, s) := take_digits 2 0 s in
  let? s := expect "." s in
  let? (ms, s) := take_digits 3 0 s in
  if ((h <=? 23) && (mi <=? 59) && (sec <=? 59))
     || ((h =? 24) && (mi =? 0) && (sec =? 0) && (ms =? 0))
  then Some (h * 3600000 + mi * 60000 + sec * 1000 + ms, s) else None.

(** [Date.parse]: the time value, or [None] for [NaN]. *)
Definition parse (s : string) : option Z :=
  let? (day, s) := parse_date s in
  match s with
  | EmptyString => Some (day * msPerDay)
  | String c s =>
      if Ascii.eqb c "T" then
        let? (tod, s) := parse_time s in
        match s with
        | String z EmptyString =>
            if Ascii.eqb z "Z" then Some (day * msPerDay + tod) else None
        | _ => None
        end
      else None
  end.

(** The host: its time zone adjustment (milliseconds to add to a UTC
    time value to get local time at that instant) and its clock. *)
Record Host : Type := {
  LocalTZA : Z -> Z;
  now : Z;   (* [Date.now()] *)
}.

(** [LocalTime(t)] of ECMAScript. *)
Definition LocalTime (h : Host) (t : Z) : Z := t + LocalTZA h t.

(** A [Date] object: its time value. *)
Definition Date : Type := option Z.

(** [new Date(string)] and [new Date(number)]. *)
Definition of_string (s : string) : Date := parse s.
Definition of_number (t : Z) : Date := Some t.

(** The getters: [NaN] on an invalid date. *)
Definition getFullYear (h : Host) (d : Date) : option Z :=
  option_map (fun t => YearFromTime (LocalTime h t)) d.
Definition getMonth (h : Host) (d : Date) : option Z :=
  option_map (fun t => MonthFromTime (LocalTime h t)) d.
Definition getDate (h : Host) (d : Date) : option Z :=
  option_map (fun t => DateFromTime (LocalTime h t)) d.

(** A host whose zone is a fixed number of minutes east of UTC. *)
Definition fixed_zone (minutes : Z) (clock : Z) : Host :=
  {| LocalTZA := fun _ => minutes * 60000; now := clock |}.

End JSDate.

(** [x + 1] on a number that may be [NaN]. *)
Definition succ_number (x : option Z) : option Z := option_map (fun n => n + 1) x.

(** ** Ordinary objects used as maps ([Record<string, number>])

    [categoryProgress] is an ordinary object whose prototype is
    [Object.prototype]: it is created by [Object.fromEntries], by an object
    literal with a spread, or by [JSON.parse].  Its own properties are data
    properties holding numbers. *)

Module JSObject.

(** The own properties, in the order [OrdinaryOwnPropertyKeys] lists them:
    array indices in ascending numeric order first, then the other keys
    in the order they were created. *)
Definition t (A : Type) : Type := list (string * A).

(** All characters are decimal digits (and there is at least one): the
    number they denote. *)
Fixpoint digits_value (acc : Z) (s : string) : option Z :=
  match s with
  | EmptyString => None
  | String c r =>
      match JSDate.digit_val c with
      | Some d =>
          match r with
          | EmptyString => Some (10 * acc + d)
          | _ => digits_value (10 * acc + d) r
          end
      | None => None
      end
  end.

(** An array index: a canonical numeric string of an integer in
    [0, 2^32 - 2]. *)
Definition array_index (k : string) : option Z :=
  match digits_value 0 k with
  | Some n =>
      if String.eqb (Number_toString n) k && (n <=? 4294967294)
      then Some n else None
  | None => None
  end.

Section Properties.
Context {A : Type}.

Definition has_own (o : t A) (k : string) : bool :=
  existsb (fun kv => String.eqb (fst kv) k) o.

Fixpoint get_own (o : t A) (k : string) : option A :=
  match o with
  | [] => None
  | (k', v) :: r => if String.eqb k' k then Some v else get_own r k
  end.

Definition keys (o : t A) : list string := map fst o.

(** [Object.entries]. *)
Definition entries (o : t A) : list (string * A) := o.

(** Overwriting the value of an existing own property keeps its place. *)
Fixpoint replace (k : string) (v : A) (o : t A) : t A :=
  match o with
  | [] => []
  | (k', v') :: r =>
      if String.eqb k' k then (k', v) :: r else (k', v') :: replace k v r
  end.

(** A new array-index key goes before the first key that is not an
    array index or is a larger one. *)
Fixpoint insert_index (i : Z) (k : string) (v : A) (o : t A) : t A :=
  match o with
  | [] => [(k, v)]
  | (k', v') :: r =>
      match array_index k' with
      | Some j => if j <? i then (k', v') :: insert_index i k v r
                  else (k, v) :: o
      | None => (k, v) :: o
      end
  end.

(** [CreateDataProperty]: what a computed key [[k]: v] of an object
    literal, one step of a spread and one member read by [JSON.parse]
    do. *)
Definition set (o : t A) (k : string) (v : A) : t A :=
  if has_own o k then replace k v o
  else match array_index k with
       | Some i => insert_index i k v o
       | None => o ++ [(k, v)]
       end.

(** [delete o[k]]. *)
Definition delete (o : t A) (k : string) : t A :=
  filter (fun kv => negb (String.eqb (fst kv) k)) o.

(** [{ ...src }] into the object [dst] under construction
    ([CopyDataProperties]): the own properties of [src], in order. *)
Definition spread (dst src : t A) : t A :=
  fold_left (fun o kv => set o (fst kv) (snd kv)) src dst.

(** [Object.fromEntries]. *)
Definition fromEntries (l : list (string * A)) : t A := spread [] l.

(** The property names of [Object.prototype], which every ordinary
    object inherits. *)
Definition prototype_keys : list string :=
  ["constructor"; "__defineGetter__"; "__defineSetter__"; "hasOwnProperty";
   "__lookupGetter__"; "__lookupSetter__"; "isPrototypeOf";
   "propertyIsEnumerable"; "toString"; "valueOf"; "__proto__";
   "toLocaleString"].

(** The value of the expression [o[k]]: own properties first, then the
    prototype chain. *)
Inductive value : Type :=
| Undefined
| Own (a : A)
| Inherited.   (* a function or object found on [Object.prototype] *)

Definition get (o : t A) (k : string) : value :=
  match get_own o k with
  | Some a => Own a
  | None =>
      if existsb (String.eqb k) prototype_keys then Inherited else Undefined
  end.

(** [v !== undefined]. *)
Definition is_defined (v : value) : bool :=
  match v with Undefined => false | _ => true end.

(** The order of own keys that every object of the program has: no key
    twice, array indices first and ascending. *)
Fixpoint ordered (o : t A) : bool :=
  match o with
  | [] => true
  | (k, _) :: r =>
      negb (has_own r k)
      && match array_index k with
         | Some i =>
             forallb (fun kv => match array_index (fst kv) with
                                | Some j => i <? j
                                | None => true
                                end) r
         | None =>
             forallb (fun kv => match array_index (fst kv) with
                                | Some _ => false
                                | None => true
                                end) r
         end
      && ordered r
  end.

(** Every key of [o] is an array index below [i]. *)
Definition indices_below (i : Z) (o : t A) : bool :=
  forallb (fun kv => match array_index (fst kv) with
                     | Some j => j <? i
                     | None => false
                     end) o.

End Properties.

End JSObject.

(** ** The data model (page.tsx, top of file) *)

Module MaterialItem.
Record t : Type := {
  id : string;
  name : string;
  quantity : string;
  neededBy : string;   (* date *)
  notes : string;
}.
End MaterialItem.

Definition CategoryProgress : Type := JSObject.t Z.

Module Entry.
Record t : Type := {
  id : string;
  date : string;   (* ISO *)
  site : string;
  area : string;
  categoryProgress : CategoryProgress;
  weather : string;
  obstacles : string;
  notes : string;
  manpower : string;
  safetyIncidents : string;
  materialsRequired : bool;
  materialItems : list MaterialItem.t;
  photos : list string;   (* data URLs *)
}.

(** [{ ...s, categoryProgress: cp }]. *)
Definition with_categoryProgress (s : t) (cp : CategoryProgress) : t :=
  {| id := id s; date := date s; site := site s; area := area s;
     categoryProgress := cp;
     weather := weather s; obstacles := obstacles s; notes := notes s;
     manpower := manpower s; safetyIncidents := safetyIncidents s;
     materialsRequired := materialsRequired s;
     materialItems := materialItems s; photos := photos s |}.
End Entry.

Definition DEFAULT_CATEGORIES : list string :=
  ["Demolition"; "Electrical"; "Plumbing"; "Masonry / Blockwork";
   "Plaster / Skim"; "Ceiling"; "Painting"; "Flooring / Tiling";
   "Doors & Windows"; "Built-in Furniture"; "MEP Testing / Commissioning";
   "Cleaning / Hand-over"].

(** [Object.fromEntries(DEFAULT_CATEGORIES.map((c) => [c, 0]))]. *)
Definition default_categoryProgress : CategoryProgress :=
  JSObject.fromEntries (map (fun c => (c, 0)) DEFAULT_CATEGORIES).

(** ** Report rendering ([renderReportHTML], [renderAllReportsHTML])

    A template literal evaluates to the concatenation of its chunks of
    literal text and of the strings its substitutions evaluate to.  The
    chunks are kept apart here until the end, and every substitution
    carries the field it was computed from, so that properties of the
    markup can speak about where a piece of text comes from;
    [Markup.to_string] is the string the source function returns. *)

Module Markup.

Inductive origin : Type :=
| DateField
| Site | Area | Weather | Manpower | Obstacles | SafetyIncidents | Notes
| CategoryName | CategoryValue
| MaterialName | MaterialQuantity | MaterialNeededBy | MaterialNotes
| PhotoSrc.

Inductive piece : Type :=
| Lit (s : string)                  (* text of the template *)
| Sub (o : origin) (s : string).    (* value of a substitution *)

Definition text (p : piece) : string :=
  match p with Lit s => s | Sub _ s => s end.

Definition t : Type := list piece.

Fixpoint to_string (m : t) : string :=
  match m with
  | [] => ""
  | p :: r => (text p ++ to_string r)%string
  end.

(** The fields the form binds to free-text controls (text inputs and
    text areas), and the category names typed into the add-category
    box. *)
Definition free_text (o : origin) : bool :=
  match o with
  | Site | Area | Weather | Manpower | Obstacles | SafetyIncidents | Notes
  | CategoryName | MaterialName | MaterialQuantity | MaterialNotes => true
  | _ => false
  end.

(** Every string that comes from the entry as the user supplied it:
    the free text, the needed-by value of a material item and the photo
    sources. *)
Definition user_supplied (o : origin) : bool :=
  match o with
  | MaterialNeededBy | PhotoSrc => true
  | _ => free_text o
  end.

Definition origin_eq_dec (a b : origin) : {a = b} + {a <> b}.
Proof. decide equality. Defined.

(** The values substituted from origin [o], in the order they occur. *)
Fixpoint subs_of (o : origin) (m : list piece) : list string :=
  match m with
  | [] => []
  | Lit _ :: r => subs_of o r
  | Sub o' s :: r =>
      if origin_eq_dec o o' then s :: subs_of o r else subs_of o r
  end.

(** The markup holds the chunk of template text [s]. *)
Definition is_lit (s : string) (p : piece) : bool :=
  match p with
  | Lit s' => String.eqb s s'
  | Sub _ _ => false
  end.

Definition has_lit (s : string) (m : list piece) : bool := existsb (is_lit s) m.

End Markup.

Import Markup.

(** The three lines shared by [exportJSON], [generatePDF] and
    [renderReportHTML],
<<
    const yyyy = d.getFullYear();
    const mm = String(d.getMonth()+1).padStart(2,"0");
    const dd = String(d.getDate()).padStart(2,"0");
>>
    are [yyyy_of], [mm_of] and [dd_of] below; [ymd] is the interpolation
    [${yyyy}-${mm}-${dd}]. *)
Definition yyyy_of (h : JSDate.Host) (d : JSDate.Date) : option Z :=
  JSDate.getFullYear h d.
Definition mm_of (h : JSDate.Host) (d : JSDate.Date) : string :=
  padStart (String_of_number (succ_number (JSDate.getMonth h d))) 2 "0".
Definition dd_of (h : JSDate.Host) (d : JSDate.Date) : string :=
  padStart (String_of_number (JSDate.getDate h d)) 2 "0".
Definition ymd (h : JSDate.Host) (d : JSDate.Date) : string :=
  (String_of_number (yyyy_of h d) ++ "-" ++ mm_of h d ++ "-" ++ dd_of h d)%string.

(** [catRows]: one table row per own property of [categoryProgress], in
    the order of [Object.entries]. *)
Definition catRow (kv : string * Z) : list piece :=
  let '(k, v) := kv in
  [Lit "
        <tr>
          <td style='border:1px solid #999; padding:6px;'>";
   Sub CategoryName (escapeHTML k);
   Lit "</td>
          <td style='border:1px solid #999; padding:6px;'>";
   Sub CategoryValue (Number_toString v);
   Lit "%</td>
        </tr>"].

Definition catRows (e : Entry.t) : list piece :=
  concat (map catRow (JSObject.entries (Entry.categoryProgress e))).

(** One row of the materials table. *)
Definition matRow (m : MaterialItem.t) : list piece :=
  [Lit "
             <tr>
               <td style='border:1px solid #999; padding:6px;'>";
   Sub MaterialName (escapeHTML (MaterialItem.name m));
   Lit "</td>
               <td style='border:1px solid #999; padding:6px;'>";
   Sub MaterialQuantity (escapeHTML (MaterialItem.quantity m));
   Lit "</td>
               <td style='border:1px solid #999; padding:6px;'>";
   Sub MaterialNeededBy (or_else (MaterialItem.neededBy m) "");
   Lit "</td>
               <td style='border:1px solid #999; padding:6px;'>";
   Sub MaterialNotes (escapeHTML (MaterialItem.notes m));
   Lit "</td>
             </tr>"].

(** The opening of the materials table, with its heading row. *)
Definition matTable_heading : string :=
  "<table style='width:100%; border-collapse:collapse; font-size:12px;'>
           <tr>
             <th style='border:1px solid #999; padding:6px; text-align:left;'>Item</th>
             <th style='border:1px solid #999; padding:6px; text-align:left;'>Qty</th>
             <th style='border:1px solid #999; padding:6px; text-align:left;'>Needed By</th>
             <th style='border:1px solid #999; padding:6px; text-align:left;'>Notes</th>
           </tr>
           ".

(** The materials table: heading row, then one row per item. *)
Definition matTable_table (items : list MaterialItem.t) : list piece :=
  [Lit matTable_heading]
  ++ concat (map matRow items)
  ++ [Lit "
         </table>"].

(** The placeholder block. *)
Definition matTable_no : string := "<div style='font-size:12px;'>No</div>".

Definition matTable_placeholder : list piece := [Lit matTable_no].

(** [e.materialsRequired && e.materialItems.length ? table : placeholder]:
    the condition is truthy when the flag is [true] and the length is not
    [0]. *)
Definition matTable (e : Entry.t) : list piece :=
  if Entry.materialsRequired e && negb (length (Entry.materialItems e) =? 0)%nat
  then matTable_table (Entry.materialItems e)
  else matTable_placeholder.

(** One thumbnail. *)
Definition photoImg (p : string) : list piece :=
  [Lit "<img src='";
   Sub PhotoSrc p;
   Lit "' style='width:180px; height:120px; object-fit:cover; border:1px solid #ccc; border-radius:8px;'/>"].

(** [e.photos.length ? grid : empty string]. *)
Definition photos (e : Entry.t) : list piece :=
  if negb (length (Entry.photos e) =? 0)%nat then
    [Lit (tpl "<div style=`margin-top:12px;`>
           <h3 style='font-size:14px; margin:0 0 6px;'>Photos</h3>
           <div style='display:flex; flex-wrap:wrap; gap:8px;'>
             ")]
    ++ concat (map photoImg (Entry.photos e))
    ++ [Lit "
           </div>
         </div>"]
  else [].

(** [renderReportHTML], as the chunks of its template literal. *)
Definition renderReportHTML_markup (h : JSDate.Host) (e : Entry.t) : list piece :=
  let d := JSDate.of_string (Entry.date e) in
  let yyyy := String_of_number (yyyy_of h d) in
  let mm := mm_of h d in
  let dd := dd_of h d in
  [Lit (tpl "
      <div style=`font-family: ui-sans-serif, system-ui; padding: 24px; width: 794px;`>
        <h1 style=`font-size: 20px; margin: 0 0 8px;`>Renovation Daily Report</h1>
        <div style=`font-size:12px; color:#444; margin-bottom:12px;`>Date: ");
   Sub DateField yyyy;
   Lit "-";
   Sub DateField mm;
   Lit "-";
   Sub DateField dd;
   Lit (tpl "</div>
        <table style=`width:100%; border-collapse: collapse; font-size: 12px; margin-bottom: 12px;`>
          <tr>
            <td style=`border:1px solid #999; padding:6px; width:50%`><strong>Site / Project</strong><br/>");
   Sub Site (escapeHTML (Entry.site e));
   Lit (tpl "</td>
            <td style=`border:1px solid #999; padding:6px; width:50%`><strong>Area / Zone</strong><br/>");
   Sub Area (escapeHTML (Entry.area e));
   Lit (tpl "</td>
          </tr>
          <tr>
            <td style=`border:1px solid #999; padding:6px`><strong>Weather</strong><br/>");
   Sub Weather (escapeHTML (Entry.weather e));
   Lit (tpl "</td>
            <td style=`border:1px solid #999; padding:6px`><strong>Manpower</strong><br/>");
   Sub Manpower (escapeHTML (Entry.manpower e));
   Lit (tpl "</td>
          </tr>
          <tr>
            <td style=`border:1px solid #999; padding:6px`><strong>Obstacles</strong><br/>");
   Sub Obstacles (or_else (escapeHTML (Entry.obstacles e)) "-");
   Lit (tpl "</td>
            <td style=`border:1px solid #999; padding:6px`><strong>Safety Incidents</strong><br/>");
   Sub SafetyIncidents (or_else (escapeHTML (Entry.safetyIncidents e)) "None");
   Lit (tpl "</td>
          </tr>
          <tr>
            <td colspan=`2` style=`border:1px solid #999; padding:6px`><strong>Notes</strong><br/>");
   Sub Notes (or_else (escapeHTML (Entry.notes e)) "-");
   Lit (tpl "</td>
          </tr>
        </table>

        <div style=`margin-top:8px;`>
          <h3 style=`font-size:14px; margin:0 0 6px;`>Category Progress</h3>
          <table style='width:100%; border-collapse:collapse; font-size:12px;'>
            <tr>
              <th style='border:1px solid #999; padding:6px; text-align:left;'>Category</th>
              <th style='border:1px solid #999; padding:6px; text-align:left;'>Progress</th>
            </tr>
            ")]
  ++ catRows e
  ++ [Lit (tpl "
          </table>
        </div>

        <div style=`margin-top:8px;`>
          <h3 style=`font-size:14px; margin:0 0 6px;`>Materials Required</h3>
          ")]
  ++ matTable e
  ++ [Lit "
        </div>

        "]
  ++ photos e
  ++ [Lit "
      </div>
    "].

Definition renderReportHTML (h : JSDate.Host) (e : Entry.t) : string :=
  to_string (renderReportHTML_markup h e).

(** [all.map(renderReportHTML).join(separator)]. *)
Definition renderAllReportsHTML (h : JSDate.Host) (all : list Entry.t) : string :=
  join "<div style='page-break-after:always'></div>" (map (renderReportHTML h) all).

(** ** PDF export ([generatePDF]) *)

(** The part of jsPDF the program uses: a document is a sequence of pages,
    the last one being the current page; [addImage] draws on the current
    page and [addPage] opens a new one.  A new document has one empty
    page. *)
Module jsPDF.

Record Image : Type := {
  imageData : string;
  x : Q;
  y : Q;
  w : Q;
  h : Q;
}.

Definition Page : Type := list Image.

Record t : Type := {
  finished : list Page;   (* the pages before the current one *)
  current : Page;
}.

Definition create : t := {| finished := []; current := [] |}.

Definition addImage (d : t) (i : Image) : t :=
  {| finished := finished d; current := current d ++ [i] |}.

Definition addPage (d : t) : t :=
  {| finished := finished d ++ [current d]; current := [] |}.

Definition pages (d : t) : list Page := finished d ++ [current d].


(** Page size of the format [a4] in points, portrait. *)
Definition a4_width : Q := 59528 # 100.
Definition a4_height : Q := 84189 # 100.

End jsPDF.

(** [q > 0] and the truthiness of a number. *)
Definition Qpositive (q : Q) : bool := negb (Qle_bool q 0).
Definition Qtruthy (q : Q) : bool := negb (Qeq_bool q 0).

(** The variables of the loop. *)
Record LoopState : Type := {
  y : Q;
  remaining : Q;
  pdf : jsPDF.t;
}.

(** The pagination loop of [generatePDF]:
<<
    while (remaining > 0) {
      pdf.addImage(imgData, "PNG", 0, y ? 0 : 0, imgWidth, imgHeight);
      remaining -= pageHeight;
      if (remaining > 0) pdf.addPage();
      y += pageHeight;
    }
>>
    [None] when the fuel runs out before the loop exits. *)
Fixpoint paginate (fuel : nat) (imgData : string) (imgWidth imgHeight pageHeight : Q)
         (st : LoopState) : option LoopState :=
  if Qpositive (remaining st) then
    match fuel with
    | O => None
    | S fuel' =>
        let pdf1 :=
          jsPDF.addImage (pdf st)
            {| jsPDF.imageData := imgData;
               jsPDF.x := 0;
               jsPDF.y := if Qtruthy (y st) then 0 else 0;
               jsPDF.w := imgWidth;
               jsPDF.h := imgHeight |} in
        let remaining' := (remaining st - pageHeight)%Q in
        let pdf2 := if Qpositive remaining' then jsPDF.addPage pdf1 else pdf1 in
        paginate fuel' imgData imgWidth imgHeight pageHeight
          {| y := (y st + pageHeight)%Q; remaining := remaining'; pdf := pdf2 |}
    end
  else Some st.

(** The loop started as the source starts it: [y = 0],
    [remaining = imgHeight], on a new document. *)
Definition paginate_image (fuel : nat) (imgData : string)
           (imgWidth imgHeight pageHeight : Q) : option jsPDF.t :=
  option_map pdf
    (paginate fuel imgData imgWidth imgHeight pageHeight
       {| y := 0; remaining := imgHeight; pdf := jsPDF.create |}).

(** What [html2canvas] resolves to. *)
Record Canvas : Type := {
  width : Z;
  height : Z;
  toDataURL : string;   (* [canvas.toDataURL("image/png")] *)
}.

(** The browser around the program: the host of [Date] and the rasterizer.
    [html2canvas] is given the markup of the node; [None] is a rejected
    promise (the [await] throws). *)
Record Browser : Type := {
  host : JSDate.Host;
  html2canvas : string -> option Canvas;
}.

(** How a call of [generatePDF] ends. *)
Inductive Outcome : Type :=
| NoTarget                                  (* [if (!node) return;] *)
| RendererFailed                            (* [html2canvas] rejected *)
| Loops                                     (* the loop never exits *)
| Saved (filename : string) (doc : jsPDF.t).   (* [pdf.save(filename)] *)

(** [(canvas.height * imgWidth) / canvas.width]: a division of a non-zero
    number by zero is an infinity, and [0 / 0] is [NaN]. *)
Inductive Height : Type :=
| Finite (q : Q)
| Infinite
| NotANumber.

Definition imgHeight_of (c : Canvas) (imgWidth : Q) : Height :=
  if width c =? 0 then
    (if height c =? 0 then NotANumber else Infinite)
  else Finite ((inject_Z (height c) * imgWidth) / inject_Z (width c))%Q.

(** The loop on the height computed above.  [NaN > 0] is false: the loop
    body never runs.  [Infinity - pageHeight] is [Infinity]: the loop never
    exits. *)
Definition run_loop (fuel : nat) (imgData : string) (imgWidth : Q)
           (imgHeight : Height) (pageHeight : Q) : option jsPDF.t :=
  match imgHeight with
  | Finite q => paginate_image fuel imgData imgWidth q pageHeight
  | Infinite => None
  | NotANumber => Some jsPDF.create
  end.

(** The file name computed at the end of [generatePDF]. *)
Definition pdf_filename (h : JSDate.Host) (entry : option Entry.t) : string :=
  let d := match entry with
           | Some e => JSDate.of_string (Entry.date e)
           | None => JSDate.of_number (JSDate.now h)
           end in
  match entry with
  | Some e =>
      ("Daily-Report_" ++ ymd h d ++ "_" ++ or_else (Entry.site e) "site" ++ ".pdf")%string
  | None => ("Daily-Reports_" ++ ymd h d ++ ".pdf")%string
  end.

(** [generatePDF(entry?)].  [node] is the content ([innerHTML]) of the
    element [reportRef.current], or [None] when the ref is not attached;
    the result is the outcome and the content of the node afterwards. *)
Definition generatePDF (fuel : nat) (b : Browser) (entries : list Entry.t)
           (entry : option Entry.t) (node : option string)
  : Outcome * option string :=
  match node with
  | None => (NoTarget, None)
  | Some original =>
      let innerHTML :=
        match entry with
        | Some e => renderReportHTML (host b) e
        | None => renderAllReportsHTML (host b) entries
        end in
      match html2canvas b innerHTML with
      | None => (RendererFailed, Some innerHTML)
      | Some canvas =>
          let imgData := toDataURL canvas in
          let pageWidth := jsPDF.a4_width in
          let pageHeight := jsPDF.a4_height in
          let imgWidth := pageWidth in
          let imgHeight := imgHeight_of canvas imgWidth in
          match run_loop fuel imgData imgWidth imgHeight pageHeight with
          | None => (Loops, Some innerHTML)
          | Some doc =>
              let filename := pdf_filename (host b) entry in
              (Saved filename doc, Some original)
          end
      end
  end.

(** ** The category handlers of the form *)

(** The [onAdd] callback given to [AddCategory]:
<<
    if (!name) return;
    setForm((s) => ({ ...s,
      categoryProgress: s.categoryProgress[name] !== undefined
        ? s.categoryProgress
        : { ...s.categoryProgress, [name]: 0 } }));
>> *)
Definition onAdd (name : string) (s : Entry.t) : Entry.t :=
  match name with
  | EmptyString => s
  | _ =>
      Entry.with_categoryProgress s
        (if JSObject.is_defined (JSObject.get (Entry.categoryProgress s) name)
         then Entry.categoryProgress s
         else JSObject.set (JSObject.spread [] (Entry.categoryProgress s)) name 0)
  end.

(** The slider of a category is [<input type="range" min={0} max={100}>]
    (step 1 by default).  The value such a control reports is the result of
    the value sanitization of the Range state (HTML Standard): a value that
    is not a number becomes the default value, the middle of the range; a
    value below the minimum becomes the minimum; a value above the maximum
    becomes the maximum; any other value is rounded to the nearest step,
    upwards when two are as near. *)
Module RangeInput.

Definition default_value (min max : Z) : Q :=
  if max <? min then inject_Z min
  else (inject_Z min + (inject_Z max - inject_Z min) / 2)%Q.

Definition round_to_step (v : Q) : Z := Qfloor (v + (1 # 2))%Q.

Definition sanitize (min max : Z) (requested : option Q) : Z :=
  let v := match requested with
           | Some q => q
           | None => default_value min max
           end in
  if Qpositive (inject_Z min - v)%Q then min
  else if (min <=? max) && Qpositive (v - inject_Z max)%Q then max
  else round_to_step v.

End RangeInput.

(** The [onChange] handler of the slider, applied to the value the control
    reports ([Number(e.target.value)]):
<<
    setForm((s) => ({ ...s,
      categoryProgress: { ...s.categoryProgress, [cat]: Number(e.target.value) } }))
>> *)
Definition onProgressChange (cat : string) (value : Z) (s : Entry.t) : Entry.t :=
  Entry.with_categoryProgress s
    (JSObject.set (JSObject.spread [] (Entry.categoryProgress s)) cat value).

(** Moving the slider of [cat] towards [requested]: the control sanitizes,
    the handler stores. *)
Definition slide (cat : string) (requested : option Q) (s : Entry.t) : Entry.t :=
  onProgressChange cat (RangeInput.sanitize 0 100 requested) s.

(** The Remove button of a custom category:
<<
    const cp = { ...s.categoryProgress };
    delete cp[cat];
    return { ...s, categoryProgress: cp };
>> *)
Definition onRemove (cat : string) (s : Entry.t) : Entry.t :=
  Entry.with_categoryProgress s
    (JSObject.delete (JSObject.spread [] (Entry.categoryProgress s)) cat).

(** Every percentage of the object is in [0, 100]. *)
Definition progress_in_range (cp : CategoryProgress) : Prop :=
  Forall (fun kv => 0 <= snd kv <= 100) cp.

(** ** Reading the markup *)

(** The check of one piece: a substitution whose origin satisfies [sel]
    holds no raw HTML-sensitive character. *)
Definition piece_escaped (sel : origin -> bool) (p : piece) : bool :=
  match p with
  | Lit _ => true
  | Sub o s => implb (sel o) (html_safe s)
  end.


(** The four substitutions of a row of the materials table. *)
Definition material_origin (o : origin) : bool :=
  match o with
  | MaterialName | MaterialQuantity | MaterialNeededBy | MaterialNotes => true
  | _ => false
  end.

(** ** Comparing entries *)


(** What a material item contributes to the report. *)
Definition rendered_item (m : MaterialItem.t) : string * string * string * string :=
  (MaterialItem.name m, MaterialItem.quantity m,
   MaterialItem.neededBy m, MaterialItem.notes m).



(** Two entries agree on everything the report shows (the identifiers of
    the entry and of its material items are not shown). *)
Definition same_rendered_fields (e1 e2 : Entry.t) : Prop :=
  Entry.date e1 = Entry.date e2
  /\ Entry.site e1 = Entry.site e2
  /\ Entry.area e1 = Entry.area e2
  /\ Entry.categoryProgress e1 = Entry.categoryProgress e2
  /\ Entry.weather e1 = Entry.weather e2
  /\ Entry.obstacles e1 = Entry.obstacles e2
  /\ Entry.notes e1 = Entry.notes e2
  /\ Entry.manpower e1 = Entry.manpower e2
  /\ Entry.safetyIncidents e1 = Entry.safetyIncidents e2
  /\ Entry.materialsRequired e1 = Entry.materialsRequired e2
  /\ map rendered_item (Entry.materialItems e1)
     = map rendered_item (Entry.materialItems e2)
  /\ Entry.photos e1 = Entry.photos e2.

(** ** Sample entries *)

(** An entry whose material item has markup as its needed-by value and
    whose photo source holds an apostrophe. *)
Definition entry_raw : Entry.t :=
  {| Entry.id := "entry_k3x9a2b";
     Entry.date := "2024-03-05T00:00:00.000Z";
     Entry.site := "Prime 11 Unit 213";
     Entry.area := "";
     Entry.categoryProgress := [];
     Entry.weather := "";
     Entry.obstacles := "";
     Entry.notes := "";
     Entry.manpower := "";
     Entry.safetyIncidents := "None";
     Entry.materialsRequired := true;
     Entry.materialItems :=
       [{| MaterialItem.id := "mat_p0q1r2s";
           MaterialItem.name := "board";
           MaterialItem.quantity := "30";
           MaterialItem.neededBy := "<b>soon</b>";
           MaterialItem.notes := "" |}];
     Entry.photos := ["x' onerror='alert(1)"] |}.

(** Two copies of one report that differ in their identifiers only. *)
Definition entry_copy : Entry.t :=
  {| Entry.id := "entry_z8y7x6w";
     Entry.date := Entry.date entry_raw;
     Entry.site := Entry.site entry_raw;
     Entry.area := Entry.area entry_raw;
     Entry.categoryProgress := Entry.categoryProgress entry_raw;
     Entry.weather := Entry.weather entry_raw;
     Entry.obstacles := Entry.obstacles entry_raw;
     Entry.notes := Entry.notes entry_raw;
     Entry.manpower := Entry.manpower entry_raw;
     Entry.safetyIncidents := Entry.safetyIncidents entry_raw;
     Entry.materialsRequired := Entry.materialsRequired entry_raw;
     Entry.materialItems := Entry.materialItems entry_raw;
     Entry.photos := Entry.photos entry_raw |}.

(** ** What the pagination loop is claimed to produce *)

(** The whole image placed at the origin of a page, at full size. *)
Definition full_image (imgData : string) (imgWidth imgHeight : Q) : jsPDF.Image :=
  {| jsPDF.imageData := imgData;
     jsPDF.x := 0; jsPDF.y := 0;
     jsPDF.w := imgWidth; jsPDF.h := imgHeight |}.

(** The number of bands of height [p] that cover an image of height [h]. *)
Definition bands (h p : Q) : Z := Qceiling (h / p).

(** One page per band, each with the whole image; a single empty page
    when there is nothing to place. *)
Definition expected_pages (imgData : string) (imgWidth imgHeight pageHeight : Q)
  : list jsPDF.Page :=
  if Qpositive imgHeight
  then repeat [full_image imgData imgWidth imgHeight]
              (Z.to_nat (bands imgHeight pageHeight))
  else [[]].

(** ** Sample browsers *)

(** A rasterizer that always fails. *)
Definition failing_browser : Browser :=
  {| host := JSDate.fixed_zone 0 0; html2canvas := fun _ => None |}.


(** The entry of the example of the specification, as the form stores it:
    the date input gives [2024-03-05], which [toISOString] turns into UTC
    midnight of that day. *)
Definition entry_2024_03_05 : Entry.t :=
  {| Entry.id := "entry_q1w2e3r";
     Entry.date := "2024-03-05T00:00:00.000Z";
     Entry.site := "Prime 11 Unit 213";
     Entry.area := "";
     Entry.categoryProgress := default_categoryProgress;
     Entry.weather := "";
     Entry.obstacles := "";
     Entry.notes := "";
     Entry.manpower := "";
     Entry.safetyIncidents := "None";
     Entry.materialsRequired := false;
     Entry.materialItems := [];
     Entry.photos := [] |}.



(** ** The form *)

(** The state of the form when the page opens and after [resetForm]; the
    identifier is random and the date is the current instant. *)
Definition blank_form (id date : string) : Entry.t :=
  {| Entry.id := id;
     Entry.date := date;
     Entry.site := "";
     Entry.area := "";
     Entry.categoryProgress := default_categoryProgress;
     Entry.weather := "";
     Entry.obstacles := "";
     Entry.notes := "";
     Entry.manpower := "";
     Entry.safetyIncidents := "None";
     Entry.materialsRequired := false;
     Entry.materialItems := [];
     Entry.photos := [] |}.

(** ** JSON

    [JSON.stringify(value, null, 2)] and [JSON.parse] on the values the
    program stores: [null], booleans, integers, strings, arrays and
    ordinary objects.  Texts are lists of characters (bytes of UTF-8). *)

Module JSON.

#[warnings="-register-all"]
Inductive value : Type :=
| Null
| Bool (b : bool)
| Num (n : Z)
| Str (s : string)
| Arr (elements : list value)
| Obj (members : list (string * value)).   (* own properties, in order *)

Definition text : Type := list ascii.

Definition backslash : ascii := ascii_of_nat 92.
Definition newline : ascii := ascii_of_nat 10.
Definition space : ascii := " "%char.

(** *** Serialization *)

(** The gap of [JSON.stringify(_, _, 2)]: two spaces. *)
Definition gap : text := [space; space].

Definition hex_digit (n : nat) : ascii :=
  if (n <? 10)%nat then ascii_of_nat (48 + n) else ascii_of_nat (87 + n).

(** One character inside [QuoteJSONString]. *)
Definition quote_char (c : ascii) : text :=
  let n := nat_of_ascii c in
  if Ascii.eqb c dquote then [backslash; dquote]
  else if Ascii.eqb c backslash then [backslash; backslash]
  else if (n =? 8)%nat then [backslash; "b"%char]
  else if (n =? 9)%nat then [backslash; "t"%char]
  else if (n =? 10)%nat then [backslash; "n"%char]
  else if (n =? 12)%nat then [backslash; "f"%char]
  else if (n =? 13)%nat then [backslash; "r"%char]
  else if (n <? 32)%nat then
    [backslash; "u"%char; "0"%char; "0"%char;
     hex_digit (n / 16); hex_digit (n mod 16)]
  else [c].

Fixpoint quote_chars (s : string) : text :=
  match s with
  | EmptyString => []
  | String c r => quote_char c ++ quote_chars r
  end.

Definition QuoteJSONString (s : string) : text :=
  dquote :: quote_chars s ++ [dquote].

(** [join] on texts. *)
Fixpoint join_text (sep : text) (l : list text) : text :=
  match l with
  | [] => []
  | [x] => x
  | x :: r => x ++ sep ++ join_text sep r
  end.

(** [SerializeJSONProperty] with a non-empty gap: an empty array is [[]],
    an empty object is [{}]; otherwise each element or member goes on a
    line of its own, indented one gap more than the line of the opening
    bracket, and the closing bracket is on a line of its own at the
    indentation of the opening one. *)
Fixpoint serialize (indent : text) (v : value) : text :=
  match v with
  | Null => list_ascii_of_string "null"
  | Bool true => list_ascii_of_string "true"
  | Bool false => list_ascii_of_string "false"
  | Num n => list_ascii_of_string (Number_toString n)
  | Str s => QuoteJSONString s
  | Arr elements =>
      let stepback := indent in
      let indent := indent ++ gap in
      match elements with
      | [] => list_ascii_of_string "[]"
      | _ =>
          "["%char :: newline :: indent
          ++ join_text (","%char :: newline :: indent)
               (map (serialize indent) elements)
          ++ newline :: stepback ++ ["]"%char]
      end
  | Obj members =>
      let stepback := indent in
      let indent := indent ++ gap in
      match members with
      | [] => list_ascii_of_string "{}"
      | _ =>
          "{"%char :: newline :: indent
          ++ join_text (","%char :: newline :: indent)
               (map (fun kv : string * value =>
                       let (k, x) := kv in
                       QuoteJSONString k ++ ":"%char :: space :: serialize indent x)
                    members)
          ++ newline :: stepback ++ ["}"%char]
      end
  end.

(** [JSON.stringify(value, null, 2)]. *)
Definition stringify (v : value) : string :=
  string_of_list_ascii (serialize [] v).

(** *** Parsing *)

Definition is_ws (c : ascii) : bool :=
  let n := nat_of_ascii c in
  (n =? 32)%nat || (n =? 9)%nat || (n =? 10)%nat || (n =? 13)%nat.

Fixpoint skip_ws (l : text) : text :=
  match l with
  | c :: r => if is_ws c then skip_ws r else l
  | [] => []
  end.

Definition hex_val (c : ascii) : option N :=
  let n := N_of_ascii c in
  (if (48 <=? n) && (n <=? 57) then Some (n - 48)
   else if (97 <=? n) && (n <=? 102) then Some (n - 87)
   else if (65 <=? n) && (n <=? 70) then Some (n - 55)
   else None)%N.

Definition hex4 (a b c d : ascii) : option N :=
  match hex_val a, hex_val b, hex_val c, hex_val d with
  | Some x, Some y, Some z, Some w => Some (((x * 16 + y) * 16 + z) * 16 + w)%N
  | _, _, _, _ => None
  end.

(** The bytes of a code unit written as an escape.  (A surrogate, which
    needs its pair, is outside the model: [None].) *)
Definition utf8 (n : N) : option (list ascii) :=
  (if n <? 128 then Some [ascii_of_N n]
   else if n <? 2048 then
     Some [ascii_of_N (192 + n / 64); ascii_of_N (128 + n mod 64)]
   else if (55296 <=? n) && (n <=? 57343) then None
   else Some [ascii_of_N (224 + n / 4096);
              ascii_of_N (128 + (n / 64) mod 64);
              ascii_of_N (128 + n mod 64)])%N.

Definition unescape (e : ascii) : option ascii :=
  if Ascii.eqb e dquote then Some dquote
  else if Ascii.eqb e backslash then Some backslash
  else if Ascii.eqb e "/" then Some "/"%char
  else if Ascii.eqb e "b" then Some (ascii_of_nat 8)
  else if Ascii.eqb e "f" then Some (ascii_of_nat 12)
  else if Ascii.eqb e "n" then Some (ascii_of_nat 10)
  else if Ascii.eqb e "r" then Some (ascii_of_nat 13)
  else if Ascii.eqb e "t" then Some (ascii_of_nat 9)
  else None.

Definition prepend (cs : list ascii) (r : option (list ascii * text))
  : option (list ascii * text) :=
  match r with
  | Some (s, rest) => Some (cs ++ s, rest)
  | None => None
  end.

(** The characters of a string, after its opening quote, up to and
    including the closing quote. *)
Fixpoint parse_chars (l : text) : option (list ascii * text) :=
  match l with
  | [] => None
  | c :: r =>
      if Ascii.eqb c dquote then Some ([], r)
      else if Ascii.eqb c backslash then
        match r with
        | e :: r1 =>
            if Ascii.eqb e "u" then
              match r1 with
              | h1 :: h2 :: h3 :: h4 :: r2 =>
                  match hex4 h1 h2 h3 h4 with
                  | Some n =>
                      match utf8 n with
                      | Some bytes => prepend bytes (parse_chars r2)
                      | None => None
                      end
                  | None => None
                  end
              | _ => None
              end
            else
              match unescape e with
              | Some c' => prepend [c'] (parse_chars r1)
              | None => None
              end
        | [] => None
        end
      else if (nat_of_ascii c <? 32)%nat then None
      else prepend [c] (parse_chars r)
  end.

(** The longest run of decimal digits at the head of a text. *)
Fixpoint take_digits (l : text) : list Z * text :=
  match l with
  | c :: r =>
      match JSDate.digit_val c with
      | Some d => let (ds, rest) := take_digits r in (d :: ds, rest)
      | None => ([], l)
      end
  | [] => ([], [])
  end.

Definition digits_to_Z (ds : list Z) : Z :=
  fold_left (fun a d => 10 * a + d) ds 0.

(** The text goes on with a fraction or an exponent. *)
Definition continues_number (l : text) : bool :=
  match l with
  | c :: _ => Ascii.eqb c "." || Ascii.eqb c "e" || Ascii.eqb c "E"
  | [] => false
  end.

(** An integer: an optional minus sign, then [0] or a run of digits that
    does not start with [0].  (Numbers with a fraction or an exponent are
    outside the model: [None].) *)
Definition parse_number (l : text) : option (Z * text) :=
  let (negative, l1) :=
    match l with
    | c :: r => if Ascii.eqb c "-" then (true, r) else (false, l)
    | [] => (false, l)
    end in
  match take_digits l1 with
  | ([], _) => None
  | (d :: ds, rest) =>
      if (d =? 0) && negb (length ds =? 0)%nat then None
      else if continues_number rest then None
      else let n := digits_to_Z (d :: ds) in
           Some (if negative then - n else n, rest)
  end.

(** The text goes on with the characters of [w]. *)
Fixpoint strip_prefix (w l : text) : option text :=
  match w with
  | [] => Some l
  | c :: w' =>
      match l with
      | c' :: l' => if Ascii.eqb c c' then strip_prefix w' l' else None
      | [] => None
      end
  end.

Definition expect_word (w : string) (l : text) : option text :=
  strip_prefix (list_ascii_of_string w) l.

(** One value; then the elements of an array after its opening bracket,
    up to and including the closing bracket; then the members of an
    object likewise.  The members are made properties of a new object
    one after the other ([CreateDataProperty]). *)
Fixpoint parse_value (fuel : nat) (l : text) {struct fuel} : option (value * text) :=
  match fuel with
  | O => None
  | S f =>
      match skip_ws l with
      | [] => None
      | c :: r =>
          if Ascii.eqb c "n" then option_map (pair Null) (expect_word "ull" r)
          else if Ascii.eqb c "t" then option_map (pair (Bool true)) (expect_word "rue" r)
          else if Ascii.eqb c "f" then option_map (pair (Bool false)) (expect_word "alse" r)
          else if Ascii.eqb c dquote then
            match parse_chars r with
            | Some (s, rest) => Some (Str (string_of_list_ascii s), rest)
            | None => None
            end
          else if Ascii.eqb c "[" then
            match skip_ws r with
            | c' :: r' =>
                if Ascii.eqb c' "]" then Some (Arr [], r')
                else match parse_elements f r with
                     | Some (vs, rest) => Some (Arr vs, rest)
                     | None => None
                     end
            | [] => None
            end
          else if Ascii.eqb c "{" then
            match skip_ws r with
            | c' :: r' =>
                if Ascii.eqb c' "}" then Some (Obj [], r')
                else match parse_members f r with
                     | Some (ms, rest) => Some (Obj (JSObject.fromEntries ms), rest)
                     | None => None
                     end
            | [] => None
            end
          else
            match parse_number (c :: r) with
            | Some (n, rest) => Some (Num n, rest)
            | None => None
            end
      end
  end
with parse_elements (fuel : nat) (l : text) {struct fuel} : option (list value * text) :=
  match fuel with
  | O => None
  | S f =>
      match parse_value f l with
      | Some (v, r) =>
          match skip_ws r with
          | c :: r' =>
              if Ascii.eqb c "," then
                match parse_elements f r' with
                | Some (vs, rest) => Some (v :: vs, rest)
                | None => None
                end
              else if Ascii.eqb c "]" then Some ([v], r')
              else None
          | [] => None
          end
      | None => None
      end
  end
with parse_members (fuel : nat) (l : text) {struct fuel}
     : option (list (string * value) * text) :=
  match fuel with
  | O => None
  | S f =>
      match skip_ws l with
      | c :: r =>
          if Ascii.eqb c dquote then
            match parse_chars r with
            | Some (k, r1) =>
                match skip_ws r1 with
                | c1 :: r2 =>
                    if Ascii.eqb c1 ":" then
                      match parse_value f r2 with
                      | Some (v, r3) =>
                          match skip_ws r3 with
                          | c3 :: r4 =>
                              if Ascii.eqb c3 "," then
                                match parse_members f r4 with
                                | Some (ms, rest) =>
                                    Some ((string_of_list_ascii k, v) :: ms, rest)
                                | None => None
                                end
                              else if Ascii.eqb c3 "}" then
                                Some ([(string_of_list_ascii k, v)], r4)
                              else None
                          | [] => None
                          end
                      | None => None
                      end
                    else None
                | [] => None
                end
            | None => None
            end
          else None
      | [] => None
      end
  end.

(** [JSON.parse]: one value, then nothing but white space.  [None] is a
    [SyntaxError] (or a text outside the model, or not enough fuel). *)
Definition parse (fuel : nat) (s : string) : option value :=
  match parse_value fuel (list_ascii_of_string s) with
  | Some (v, rest) =>
      match skip_ws rest with
      | [] => Some v
      | _ => None
      end
  | None => None
  end.

(** Fuel that is enough to read a value back. *)
Fixpoint size (v : value) : nat :=
  match v with
  | Arr l => S (fold_right (fun x a => S (size x) + a)%nat O l)
  | Obj ms => S (fold_right (fun (kv : string * value) a =>
                               let (_, x) := kv in S (size x) + a)%nat O ms)
  | _ => 1%nat
  end.

(** The objects inside a value have their keys in the order of the
    language. *)
Fixpoint well_formed (v : value) : bool :=
  match v with
  | Arr l => forallb well_formed l
  | Obj ms =>
      JSObject.ordered ms
      && forallb (fun kv : string * value => let (_, x) := kv in well_formed x) ms
  | _ => true
  end.

(** Induction on values, with the hypothesis for every element of an
    array and every member of an object. *)
Section Induction.
Variable P : value -> Prop.
Hypothesis P_Null : P Null.
Hypothesis P_Bool : forall b, P (Bool b).
Hypothesis P_Num : forall n, P (Num n).
Hypothesis P_Str : forall s, P (Str s).
Hypothesis P_Arr : forall l, Forall P l -> P (Arr l).
Hypothesis P_Obj : forall ms, Forall (fun kv => P (snd kv)) ms -> P (Obj ms).

Fixpoint value_induction (v : value) : P v :=
  match v with
  | Null => P_Null
  | Bool b => P_Bool b
  | Num n => P_Num n
  | Str s => P_Str s
  | Arr l =>
      P_Arr l ((fix all (l : list value) : Forall P l :=
                  match l with
                  | [] => Forall_nil P
                  | x :: r => Forall_cons x (value_induction x) (all r)
                  end) l)
  | Obj ms =>
      P_Obj ms ((fix all (ms : list (string * value))
                   : Forall (fun kv => P (snd kv)) ms :=
                   match ms with
                   | [] => Forall_nil _
                   | (k, x) :: r =>
                       Forall_cons (k, x) (value_induction x) (all r)
                   end) ms)
  end.

End Induction.

(** The decimal digits of [n], most significant first, as [digits] of
    [Number_toString] produces them with fuel [f]. *)
Fixpoint dlist (f : nat) (n : Z) : list Z :=
  match f with
  | O => [n mod 10]
  | S f' => if n <? 10 then [n mod 10] else dlist f' (n / 10) ++ [n mod 10]
  end.

(** What may follow a number: no digit, no fraction, no exponent. *)
Definition ends_number (l : text) : bool :=
  match l with
  | c :: _ =>
      match JSDate.digit_val c with
      | Some _ => false
      | None => negb (continues_number l)
      end
  | [] => true
  end.

(** The first character of a text is the first character of a value or
    of a member: not white space and not a closing bracket. *)
Definition starts_item (l : text) : bool :=
  match l with
  | c :: _ => negb (is_ws c) && negb (Ascii.eqb c "]") && negb (Ascii.eqb c "}")
  | [] => false
  end.

(** The text of one member of an object. *)
Definition member_text (indent : text) (kv : string * value) : text :=
  let (k, x) := kv in
  QuoteJSONString k ++ ":"%char :: space :: serialize indent x.

(** A value is read back from its text, at any indentation and before
    any text that does not continue a number, given enough fuel. *)
Definition reads_back (v : value) : Prop :=
  forall (indent rest : text) (fuel : nat),
    forallb is_ws indent = true ->
    ends_number rest = true ->
    (size v <= fuel)%nat ->
    parse_value fuel (serialize indent v ++ rest) = Some (v, rest).

End JSON.

(** ** Entries as JSON values *)

Definition MaterialItem_to_json (m : MaterialItem.t) : JSON.value :=
  JSON.Obj [("id", JSON.Str (MaterialItem.id m));
            ("name", JSON.Str (MaterialItem.name m));
            ("quantity", JSON.Str (MaterialItem.quantity m));
            ("neededBy", JSON.Str (MaterialItem.neededBy m));
            ("notes", JSON.Str (MaterialItem.notes m))].

Definition CategoryProgress_to_json (cp : CategoryProgress) : JSON.value :=
  JSON.Obj (map (fun kv => (fst kv, JSON.Num (snd kv))) cp).

(** The entry as the object the program holds: its properties in the
    order the form state lists them. *)
Definition Entry_to_json (e : Entry.t) : JSON.value :=
  JSON.Obj [("id", JSON.Str (Entry.id e));
            ("date", JSON.Str (Entry.date e));
            ("site", JSON.Str (Entry.site e));
            ("area", JSON.Str (Entry.area e));
            ("categoryProgress", CategoryProgress_to_json (Entry.categoryProgress e));
            ("weather", JSON.Str (Entry.weather e));
            ("obstacles", JSON.Str (Entry.obstacles e));
            ("notes", JSON.Str (Entry.notes e));
            ("manpower", JSON.Str (Entry.manpower e));
            ("safetyIncidents", JSON.Str (Entry.safetyIncidents e));
            ("materialsRequired", JSON.Bool (Entry.materialsRequired e));
            ("materialItems", JSON.Arr (map MaterialItem_to_json (Entry.materialItems e)));
            ("photos", JSON.Arr (map JSON.Str (Entry.photos e)))].

Definition entries_to_json (entries : list Entry.t) : JSON.value :=
  JSON.Arr (map Entry_to_json entries).

(** Reading the fields back ([JSON.parse(raw) as Entry[]]). *)
Fixpoint traverse {A B} (f : A -> option B) (l : list A) : option (list B) :=
  match l with
  | [] => Some []
  | x :: r =>
      match f x, traverse f r with
      | Some y, Some ys => Some (y :: ys)
      | _, _ => None
      end
  end.

Definition json_string (v : JSON.value) : option string :=
  match v with JSON.Str s => Some s | _ => None end.

Definition json_progress (kv : string * JSON.value) : option (string * Z) :=
  match snd kv with JSON.Num n => Some (fst kv, n) | _ => None end.

Definition MaterialItem_of_json (v : JSON.value) : option MaterialItem.t :=
  match v with
  | JSON.Obj [("id", JSON.Str i); ("name", JSON.Str n); ("quantity", JSON.Str q);
              ("neededBy", JSON.Str b); ("notes", JSON.Str t)] =>
      Some {| MaterialItem.id := i; MaterialItem.name := n;
              MaterialItem.quantity := q; MaterialItem.neededBy := b;
              MaterialItem.notes := t |}
  | _ => None
  end.

Definition Entry_of_json (v : JSON.value) : option Entry.t :=
  match v with
  | JSON.Obj [("id", JSON.Str i); ("date", JSON.Str d); ("site", JSON.Str s);
              ("area", JSON.Str a); ("categoryProgress", JSON.Obj cp);
              ("weather", JSON.Str w); ("obstacles", JSON.Str o);
              ("notes", JSON.Str n); ("manpower", JSON.Str m);
              ("safetyIncidents", JSON.Str si); ("materialsRequired", JSON.Bool mr);
              ("materialItems", JSON.Arr mi); ("photos", JSON.Arr ph)] =>
      match traverse json_progress cp, traverse MaterialItem_of_json mi,
            traverse json_string ph with
      | Some cp', Some mi', Some ph' =>
          Some {| Entry.id := i; Entry.date := d; Entry.site := s; Entry.area := a;
                  Entry.categoryProgress := cp'; Entry.weather := w;
                  Entry.obstacles := o; Entry.notes := n; Entry.manpower := m;
                  Entry.safetyIncidents := si; Entry.materialsRequired := mr;
                  Entry.materialItems := mi'; Entry.photos := ph' |}
      | _, _, _ => None
      end
  | _ => None
  end.

Definition entries_of_json (v : JSON.value) : option (list Entry.t) :=
  match v with
  | JSON.Arr l => traverse Entry_of_json l
  | _ => None
  end.

(** ** JSON export ([exportJSON]) *)

(** The state of the page. *)
Record AppState : Type := {
  entries : list Entry.t;
  form : Entry.t;
}.

(** A file handed to the browser for download. *)
Record Download : Type := {
  download : string;    (* the file name *)
  content : string;
}.

(** [exportJSON]: the file, and the state afterwards (no [setEntries], no
    [setForm]). *)
Definition exportJSON (h : JSDate.Host) (st : AppState) : Download * AppState :=
  let blob := JSON.stringify (entries_to_json (entries st)) in
  let d := JSDate.of_number (JSDate.now h) in
  ({| download := ("daily-report-" ++ ymd h d ++ ".json")%string;
      content := blob |},
   st).

(** Reading an exported file back into a list of entries. *)
Definition import_entries (fuel : nat) (s : string) : option (list Entry.t) :=
  match JSON.parse fuel s with
  | Some v => entries_of_json v
  | None => None
  end.

(** Every [categoryProgress] of the list is an object in the order of the
    language. *)
Definition entries_ordered (l : list Entry.t) : Prop :=
  Forall (fun e => JSObject.ordered (Entry.categoryProgress e) = true) l.

(** A state with two saved entries. *)
Definition sample_state : AppState :=
  {| entries := [entry_raw; entry_2024_03_05];
     form := blank_form "entry_a1b2c3d" "2024-03-05T08:00:00.000Z" |}.

(* ------------------------------------------------------------------ *)
(** * The rest of the page: form handlers, the saved list, summaries *)

(** ** Photos and material items of the form *)

(** [{ ...s, photos: p }] and [{ ...s, materialItems: l }]. *)
Definition with_photos (s : Entry.t) (p : list string) : Entry.t :=
  {| Entry.id := Entry.id s; Entry.date := Entry.date s;
     Entry.site := Entry.site s; Entry.area := Entry.area s;
     Entry.categoryProgress := Entry.categoryProgress s;
     Entry.weather := Entry.weather s; Entry.obstacles := Entry.obstacles s;
     Entry.notes := Entry.notes s; Entry.manpower := Entry.manpower s;
     Entry.safetyIncidents := Entry.safetyIncidents s;
     Entry.materialsRequired := Entry.materialsRequired s;
     Entry.materialItems := Entry.materialItems s;
     Entry.photos := p |}.

Definition with_materialItems (s : Entry.t) (l : list MaterialItem.t) : Entry.t :=
  {| Entry.id := Entry.id s; Entry.date := Entry.date s;
     Entry.site := Entry.site s; Entry.area := Entry.area s;
     Entry.categoryProgress := Entry.categoryProgress s;
     Entry.weather := Entry.weather s; Entry.obstacles := Entry.obstacles s;
     Entry.notes := Entry.notes s; Entry.manpower := Entry.manpower s;
     Entry.safetyIncidents := Entry.safetyIncidents s;
     Entry.materialsRequired := Entry.materialsRequired s;
     Entry.materialItems := l;
     Entry.photos := Entry.photos s |}.

(** The end of [onPhotoUpload], once every file is read:
    [setForm((s) => ({ ...s, photos: [...s.photos, ...added] }))]. *)
Definition onPhotoUpload (added : list string) (s : Entry.t) : Entry.t :=
  with_photos s (Entry.photos s ++ added).

(** [l.filter((_, i) => keep(i))], the indices counted from [i]. *)
Fixpoint filter_index {A} (keep : nat -> bool) (i : nat) (l : list A) : list A :=
  match l with
  | [] => []
  | x :: r =>
      if keep i then x :: filter_index keep (S i) r
      else filter_index keep (S i) r
  end.

(** [removePhoto(idx)]:
    [photos: s.photos.filter((_, i) => i !== idx)]. *)
Definition removePhoto (idx : nat) (s : Entry.t) : Entry.t :=
  with_photos s (filter_index (fun i => negb (i =? idx)%nat) 0 (Entry.photos s)).

(** [addMaterialItem]: a blank item at the end; its identifier is what
    [uid("mat")] returns. *)
Definition addMaterialItem (new_id : string) (s : Entry.t) : Entry.t :=
  with_materialItems s
    (Entry.materialItems s
     ++ [{| MaterialItem.id := new_id; MaterialItem.name := "";
            MaterialItem.quantity := ""; MaterialItem.neededBy := "";
            MaterialItem.notes := "" |}]).

(** A [Partial<MaterialItem>]: the properties that are present. *)
Record MaterialPatch : Type := {
  patch_id : option string;
  patch_name : option string;
  patch_quantity : option string;
  patch_neededBy : option string;
  patch_notes : option string;
}.

(** A property of the patch when it is present, else the one of the
    item. *)
Definition patched (p : option string) (old : string) : string :=
  match p with Some x => x | None => old end.

(** [{ ...m, ...patch }]. *)
Definition apply_patch (m : MaterialItem.t) (patch : MaterialPatch) : MaterialItem.t :=
  {| MaterialItem.id := patched (patch_id patch) (MaterialItem.id m);
     MaterialItem.name := patched (patch_name patch) (MaterialItem.name m);
     MaterialItem.quantity := patched (patch_quantity patch) (MaterialItem.quantity m);
     MaterialItem.neededBy := patched (patch_neededBy patch) (MaterialItem.neededBy m);
     MaterialItem.notes := patched (patch_notes patch) (MaterialItem.notes m) |}.

(** [updateMaterialItem(id, patch)]:
    [s.materialItems.map((m) => (m.id === id ? { ...m, ...patch } : m))]. *)
Definition updateMaterialItem (id : string) (patch : MaterialPatch) (s : Entry.t)
  : Entry.t :=
  with_materialItems s
    (map (fun m => if String.eqb (MaterialItem.id m) id then apply_patch m patch else m)
         (Entry.materialItems s)).

(** [removeMaterialItem(id)]:
    [s.materialItems.filter((m) => m.id !== id)]. *)
Definition removeMaterialItem (id : string) (s : Entry.t) : Entry.t :=
  with_materialItems s
    (filter (fun m => negb (String.eqb (MaterialItem.id m) id))
            (Entry.materialItems s)).

(** The patches the form sends: one field each, never the identifier. *)
Definition field_patch (p : MaterialPatch) : Prop := patch_id p = None.

(** A form with two material items and three photos. *)
Definition form_with_items : Entry.t :=
  {| Entry.id := "entry_f0rm123";
     Entry.date := "2024-03-05T08:00:00.000Z";
     Entry.site := "  Prime 11 Unit 213 ";
     Entry.area := "Kitchen";
     Entry.categoryProgress := default_categoryProgress;
     Entry.weather := "";
     Entry.obstacles := "";
     Entry.notes := "";
     Entry.manpower := "";
     Entry.safetyIncidents := "None";
     Entry.materialsRequired := true;
     Entry.materialItems :=
       [{| MaterialItem.id := "mat_aaaaaaa"; MaterialItem.name := "cement";
           MaterialItem.quantity := "4 bags"; MaterialItem.neededBy := "2024-03-08";
           MaterialItem.notes := "" |};
        {| MaterialItem.id := "mat_bbbbbbb"; MaterialItem.name := "";
           MaterialItem.quantity := ""; MaterialItem.neededBy := "";
           MaterialItem.notes := "" |}];
     Entry.photos := ["data:image/png;base64,AAAA"; "data:image/png;base64,BBBB";
                      "data:image/png;base64,CCCC"] |}.

(** The patch the quantity input of a row sends. *)
Definition quantity_patch (q : string) : MaterialPatch :=
  {| patch_id := None; patch_name := None; patch_quantity := Some q;
     patch_neededBy := None; patch_notes := None |}.

(** The separator of [renderAllReportsHTML]. *)
Definition page_break : string := "<div style='page-break-after:always'></div>".

(** ** What the user can do to the form *)

(** The category controls of the page: the add-category box, one slider
    per key of [categoryProgress], and a Remove button for every key that
    is not one of [DEFAULT_CATEGORIES]; and the photo and material
    controls. *)
Inductive FormAction : Type :=
| AddCategoryAction (name : string)
| SlideAction (cat : string) (requested : option Q)
| RemoveCategoryAction (cat : string)
| UploadAction (added : list string)
| RemovePhotoAction (idx : nat)
| AddMaterialAction (new_id : string)
| UpdateMaterialAction (id : string) (patch : MaterialPatch)
| RemoveMaterialAction (id : string).

(** [DEFAULT_CATEGORIES.includes(cat)]. *)
Definition is_default_category (cat : string) : bool :=
  existsb (String.eqb cat) DEFAULT_CATEGORIES.

(** The control exists in state [s]: sliders and Remove buttons are
    rendered from [Object.entries(form.categoryProgress)], the Remove
    button only under [!DEFAULT_CATEGORIES.includes(cat)]. *)
Definition offered (a : FormAction) (s : Entry.t) : bool :=
  match a with
  | SlideAction cat _ => JSObject.has_own (Entry.categoryProgress s) cat
  | RemoveCategoryAction cat =>
      JSObject.has_own (Entry.categoryProgress s) cat
      && negb (is_default_category cat)
  | _ => true
  end.

(** The handler behind each control. *)
Definition perform (a : FormAction) (s : Entry.t) : Entry.t :=
  match a with
  | AddCategoryAction name => onAdd name s
  | SlideAction cat requested => slide cat requested s
  | RemoveCategoryAction cat => onRemove cat s
  | UploadAction added => onPhotoUpload added s
  | RemovePhotoAction idx => removePhoto idx s
  | AddMaterialAction new_id => addMaterialItem new_id s
  | UpdateMaterialAction id patch => updateMaterialItem id patch s
  | RemoveMaterialAction id => removeMaterialItem id s
  end.

(** The states of the form the user can reach from a blank form. *)
Inductive reachable : Entry.t -> Prop :=
| reachable_blank (id date : string) : reachable (blank_form id date)
| reachable_step (s : Entry.t) (a : FormAction) :
    reachable s -> offered a s = true -> reachable (perform a s).

(** ** The badge of a saved entry: [summarizeProgress] *)

From Stdlib Require Import Permutation Sorted.

(** The comparator [(a, b) => b[1] - a[1]] of the sort. *)
Definition by_value_desc (a b : string * Z) : Z := snd b - snd a.

(** [Array.prototype.sort] with a consistent comparator: the sort is
    stable, so its result is the one of a stable insertion: an element
    goes before the first element that it does not have to follow. *)
Fixpoint sort_insert {A} (cmp : A -> A -> Z) (x : A) (l : list A) : list A :=
  match l with
  | [] => [x]
  | y :: r => if cmp x y <=? 0 then x :: y :: r else y :: sort_insert cmp x r
  end.

Fixpoint sort {A} (cmp : A -> A -> Z) (l : list A) : list A :=
  match l with
  | [] => []
  | x :: r => sort_insert cmp x (sort cmp r)
  end.

(** [k.split(" ")[0]]: the text before the first space. *)
Fixpoint first_word (k : string) : string :=
  match k with
  | EmptyString => EmptyString
  | String c r => if Ascii.eqb c " " then EmptyString else String c (first_word r)
  end.

(** One part of the badge: the template literal of the [map]. *)
Definition summary_part (kv : string * Z) : string :=
  (first_word (fst kv) ++ " " ++ JSString.Number_toString (snd kv) ++ "%")%string.

Definition top_progress (cp : CategoryProgress) : list (string * Z) :=
  firstn 3 (sort by_value_desc (JSObject.entries cp)).

Definition summarizeProgress (cp : CategoryProgress) : string :=
  JSString.or_else (JSString.join ", " (map summary_part (top_progress cp)))
                   "No progress".

(** An entry of the badge is not below the entries that follow it. *)
Definition not_below (a b : string * Z) : Prop := snd b <= snd a.

From Stdlib Require Import FunInd.

(** ** [String.prototype.trim]

    Strings are the bytes of UTF-8, so the white space and line
    terminators of the language are sequences of one, two or three bytes:
    TAB, LF, VT, FF, CR and SP; U+00A0; U+1680, U+2000 to U+200A, U+2028,
    U+2029, U+202F, U+205F, U+3000 and U+FEFF. *)

Definition white_space_1 (a : ascii) : bool :=
  let n := nat_of_ascii a in
  ((9 <=? n) && (n <=? 13) || (n =? 32))%nat.

Definition white_space_2 (a b : ascii) : bool :=
  ((nat_of_ascii a =? 194) && (nat_of_ascii b =? 160))%nat.

Definition white_space_3 (a b c : ascii) : bool :=
  let x := nat_of_ascii a in
  let y := nat_of_ascii b in
  let z := nat_of_ascii c in
  ((x =? 225) && (y =? 154) && (z =? 128)
   || (x =? 226) && (y =? 128)
      && ((128 <=? z) && (z <=? 138) || (z =? 168) || (z =? 169) || (z =? 175))
   || (x =? 226) && (y =? 129) && (z =? 159)
   || (x =? 227) && (y =? 128) && (z =? 128)
   || (x =? 239) && (y =? 187) && (z =? 191))%nat.

Fixpoint trimStart (s : string) : string :=
  match s with
  | String a r =>
      if white_space_1 a then trimStart r
      else
        match r with
        | String b r2 =>
            if white_space_2 a b then trimStart r2
            else
              match r2 with
              | String c r3 => if white_space_3 a b c then trimStart r3 else s
              | EmptyString => s
              end
        | EmptyString => s
        end
  | EmptyString => EmptyString
  end.

(** The end of the string is cut where what follows is white space
    only. *)
Fixpoint trimEnd (s : string) : string :=
  match s with
  | String a r =>
      match trimStart s with
      | EmptyString => EmptyString
      | _ => String a (trimEnd r)
      end
  | EmptyString => EmptyString
  end.

Definition trim (s : string) : string := trimEnd (trimStart s).

Functional Scheme trimStart_ind := Induction for trimStart Sort Prop.

(** The string begins with white space. *)
Definition starts_white (s : string) : bool :=
  match s with
  | String a r =>
      white_space_1 a
      || match r with
         | String b r2 =>
             white_space_2 a b
             || match r2 with
                | String c _ => white_space_3 a b c
                | EmptyString => false
                end
         | EmptyString => false
         end
  | EmptyString => false
  end.

(** A string of white space only. *)
Inductive white : string -> Prop :=
| white_empty : white ""
| white_1 a r : white_space_1 a = true -> white r -> white (String a r)
| white_2 a b r : white_space_2 a b = true -> white r -> white (String a (String b r))
| white_3 a b c r :
    white_space_3 a b c = true -> white r ->
    white (String a (String b (String c r))).

(** The click on Add of [AddCategory]: the handler is called with the
    trimmed text when it is not empty, and the box is cleared.  The result
    is the form and the text of the box. *)
Definition AddCategory_click (val : string) (s : Entry.t) : Entry.t * string :=
  let name := trim val in
  match name with
  | EmptyString => (s, val)
  | _ => (onAdd name s, "")
  end.

(** ** [JSON.stringify(value)]

    Without a gap the text has no white space: the elements of an array
    and the members of an object are separated by a comma, a key and its
    value by a colon. *)

Module JSONCompact.
Import JSON.

Fixpoint serialize (v : value) : text :=
  match v with
  | Null => list_ascii_of_string "null"
  | Bool true => list_ascii_of_string "true"
  | Bool false => list_ascii_of_string "false"
  | Num n => list_ascii_of_string (Number_toString n)
  | Str s => QuoteJSONString s
  | Arr elements =>
      match elements with
      | [] => list_ascii_of_string "[]"
      | _ => "["%char :: join_text [","%char] (map serialize elements) ++ ["]"%char]
      end
  | Obj members =>
      match members with
      | [] => list_ascii_of_string "{}"
      | _ =>
          "{"%char
          :: join_text [","%char]
               (map (fun kv : string * value =>
                       let (k, x) := kv in
                       QuoteJSONString k ++ ":"%char :: serialize x)
                    members)
          ++ ["}"%char]
      end
  end.

Definition stringify (v : value) : string := string_of_list_ascii (serialize v).

Definition member_text (kv : string * value) : text :=
  let (k, x) := kv in QuoteJSONString k ++ ":"%char :: serialize x.

(** A value is read back from its text before any text that does not
    continue a number, given enough fuel. *)
Definition reads_back (v : value) : Prop :=
  forall (rest : text) (fuel : nat),
    ends_number rest = true ->
    (size v <= fuel)%nat ->
    parse_value fuel (serialize v ++ rest) = Some (v, rest).

End JSONCompact.

(** ** The saved entries and [localStorage] *)




(** ** Dates of the form and of the saved list *)

(** [HourFromTime], [MinFromTime], [SecFromTime] and [msFromTime] of
    ECMAScript. *)
Definition HourFromTime (t : Z) : Z := (t / 3600000) mod 24.
Definition MinFromTime (t : Z) : Z := (t / 60000) mod 60.
Definition SecFromTime (t : Z) : Z := (t / 1000) mod 60.
Definition msFromTime (t : Z) : Z := t mod 1000.

(** A number in decimal, padded with zeros to [width] characters. *)
Definition pad (n : Z) (width : nat) : string :=
  padStart (Number_toString n) width "0".

(** [Date.prototype.toISOString]: the UTC date and time, the year with
    four digits when it is within 0 and 9999 and with a sign and six digits
    otherwise.  [None] is the [RangeError] thrown on an invalid date. *)
Definition toISOString (d : JSDate.Date) : option string :=
  match d with
  | None => None
  | Some t =>
      let y := JSDate.YearFromTime t in
      let year :=
        if (0 <=? y) && (y <=? 9999) then pad y 4
        else ((if (y <? 0)%Z then "-" else "+") ++ pad (Z.abs y) 6)%string in
      Some (year ++ "-" ++ pad (JSDate.MonthFromTime t + 1) 2
            ++ "-" ++ pad (JSDate.DateFromTime t) 2
            ++ "T" ++ pad (HourFromTime t) 2
            ++ ":" ++ pad (MinFromTime t) 2
            ++ ":" ++ pad (SecFromTime t) 2
            ++ "." ++ pad (msFromTime t) 3 ++ "Z")%string
  end.

Definition with_date (s : Entry.t) (date : string) : Entry.t :=
  {| Entry.id := Entry.id s;
     Entry.date := date;
     Entry.site := Entry.site s;
     Entry.area := Entry.area s;
     Entry.categoryProgress := Entry.categoryProgress s;
     Entry.weather := Entry.weather s;
     Entry.obstacles := Entry.obstacles s;
     Entry.notes := Entry.notes s;
     Entry.manpower := Entry.manpower s;
     Entry.safetyIncidents := Entry.safetyIncidents s;
     Entry.materialsRequired := Entry.materialsRequired s;
     Entry.materialItems := Entry.materialItems s;
     Entry.photos := Entry.photos s |}.

(** [new Date(date).toISOString().slice(0,10)]: the value shown by the
    date input of the form and the date badge of a saved entry.  [None]:
    the expression throws. *)
Definition date_shown (date : string) : option string :=
  option_map (substring 0 10) (toISOString (JSDate.of_string date)).

(** The change handler of the date input.  [None]: the updater throws. *)
Definition onDateChange (value : string) (s : Entry.t) : option Entry.t :=
  option_map (with_date s) (toISOString (JSDate.of_string value)).



(** The local calendar date of a time value: year, month from 1, day. *)
Definition local_date (h : JSDate.Host) (t : Z) : Z * Z * Z :=
  JSDate.civil_from_days (JSDate.Day (JSDate.LocalTime h t)).

(** A calendar date as [ymd] prints it: the year as it is, the month and
    the day with two digits. *)
Definition date_text (date : Z * Z * Z) : string :=
  let '(y, m, d) := date in
  (Number_toString y ++ "-" ++ pad m 2 ++ "-" ++ pad d 2)%string.

(** The number of days of the year that begins on March 1 of year
    [yoe] of a cycle of 400 years. *)
Definition year_length (yoe : Z) : Z :=
  if ((yoe + 1) mod 4 =? 0)
     && (negb ((yoe + 1) mod 100 =? 0) || ((yoe + 1) mod 400 =? 0))
  then 366 else 365.

(* ================================================================== *)
(** * Properties *)

(** ** The model on examples *)

Example escapeHTML_ex1 :
  escapeHTML "<a href='x'>Tom & Co</a>"
  = "&lt;a href=&#39;x&#39;&gt;Tom &amp; Co&lt;/a&gt;".
Proof. reflexivity. Qed.

Example escapeHTML_ex2 : escapeHTML (tpl "say `hi`") = "say &quot;hi&quot;".
Proof. reflexivity. Qed.

Example padStart_ex : padStart "3" 2 "0" = "03" /\ padStart "12" 2 "0" = "12"
                      /\ padStart "NaN" 2 "0" = "NaN".
Proof. repeat split. Qed.

Example Number_toString_ex :
  Number_toString 2024 = "2024" /\ Number_toString 0 = "0"
  /\ Number_toString (-7) = "-7" /\ Number_toString 100 = "100".
Proof. repeat split. Qed.

Example Date_parse_ex :
  JSDate.parse "2024-03-05" = Some 1709596800000
  /\ JSDate.parse "2024-03-05T00:00:00.000Z" = Some 1709596800000
  /\ JSDate.parse "1970-01-01T00:00:00.001Z" = Some 1
  /\ JSDate.parse "2023-02-29" = None
  /\ JSDate.parse "5 March 2024" = None.
Proof. repeat split. Qed.

Example calendar_ex :
  JSDate.civil_from_days 0 = (1970, 1, 1)
  /\ JSDate.civil_from_days (-1) = (1969, 12, 31)
  /\ JSDate.civil_from_days 19782 = (2024, 2, 29)
  /\ JSDate.civil_from_days 19783 = (2024, 3, 1)
  /\ JSDate.civil_from_days 10956 = (1999, 12, 31)
  /\ JSDate.days_from_civil 2024 2 29 = 19782
  /\ JSDate.days_from_civil 2000 1 1 = 10957.
Proof. repeat split. Qed.

Example ymd_ex :
  ymd (JSDate.fixed_zone 0 0) (JSDate.of_string "2024-03-05") = "2024-03-05"
  /\ ymd (JSDate.fixed_zone (-300) 0) (JSDate.of_string "2024-03-05") = "2024-03-04"
  /\ ymd (JSDate.fixed_zone 240 0) (JSDate.of_string "2024-12-31T21:30:00.000Z") = "2025-01-01"
  /\ ymd (JSDate.fixed_zone 0 0) (JSDate.of_string "yesterday") = "NaN-NaN-NaN".
Proof. repeat split. Qed.

(** ** Escaping *)

Lemma html_safe_app_char c r :
  Ascii.eqb c "&" = false -> html_sensitive c = false ->
  html_safe (String c r) = html_safe r.
Proof.
  intros Hamp Hs. simpl. rewrite Hamp, Hs. reflexivity.
Qed.

Lemma prefix_empty (s : string) : prefix "" s = true.
Proof. destruct s; reflexivity. Qed.

(** The output of [escapeHTML] holds no raw HTML-sensitive character. *)
Lemma escapeHTML_safe (str : string) : html_safe (escapeHTML str) = true.
Proof.
  induction str as [|c r IH]; [reflexivity|].
  cbn [escapeHTML]. unfold escapeChar.
  destruct (Ascii.eqb c "&") eqn:E1; [simpl; rewrite prefix_empty; exact IH|].
  destruct (Ascii.eqb c "<") eqn:E2; [simpl; rewrite prefix_empty; exact IH|].
  destruct (Ascii.eqb c ">") eqn:E3; [simpl; rewrite prefix_empty; exact IH|].
  destruct (Ascii.eqb c dquote) eqn:E4;
    [simpl; rewrite prefix_empty; exact IH|].
  destruct (Ascii.eqb c "'") eqn:E5;
    [simpl; rewrite prefix_empty; exact IH|].
  change (String c "" ++ escapeHTML r)%string with (String c (escapeHTML r)).
  rewrite html_safe_app_char; [exact IH | exact E1 |].
  unfold html_sensitive. rewrite E1, E2, E3, E4, E5. reflexivity.
Qed.

(** A string without HTML-sensitive characters is left as it is. *)
Lemma escapeHTML_plain (str : string) :
  (forall c, In c (list_ascii_of_string str) -> html_sensitive c = false) ->
  escapeHTML str = str.
Proof.
  induction str as [|c r IH]; intros H; [reflexivity|].
  cbn [escapeHTML]. rewrite IH by (intros d Hd; apply H; right; exact Hd).
  assert (Hc : html_sensitive c = false) by (apply H; left; reflexivity).
  unfold html_sensitive in Hc. unfold escapeChar.
  destruct (Ascii.eqb c "&"); [discriminate|].
  destruct (Ascii.eqb c "<"); [discriminate|].
  destruct (Ascii.eqb c ">"); [discriminate|].
  destruct (Ascii.eqb c dquote); [discriminate|].
  destruct (Ascii.eqb c "'"); [discriminate|].
  reflexivity.
Qed.

Lemma or_else_safe (x d : string) :
  html_safe x = true -> html_safe d = true -> html_safe (or_else x d) = true.
Proof. destruct x; simpl; auto. Qed.

Lemma forallb_concat_map {A B} (f : A -> list B) (P : B -> bool) (l : list A) :
  (forall a, In a l -> forallb P (f a) = true) ->
  forallb P (concat (map f l)) = true.
Proof.
  induction l as [|a l IH]; intros H; [reflexivity|].
  simpl. rewrite forallb_app, H by (left; reflexivity).
  apply IH. intros b Hb. apply H. right. exact Hb.
Qed.

Lemma catRows_escaped e : forallb (piece_escaped free_text) (catRows e) = true.
Proof.
  unfold catRows. apply forallb_concat_map. intros [k v] _.
  cbn. rewrite escapeHTML_safe. reflexivity.
Qed.

Lemma matTable_escaped e : forallb (piece_escaped free_text) (matTable e) = true.
Proof.
  unfold matTable.
  destruct (Entry.materialsRequired e && _); [|reflexivity].
  unfold matTable_table. rewrite !forallb_app.
  rewrite forallb_concat_map; [reflexivity|].
  intros m _. cbn. rewrite !escapeHTML_safe. reflexivity.
Qed.

Lemma photos_escaped e : forallb (piece_escaped free_text) (photos e) = true.
Proof.
  unfold photos. destruct (negb _); [|reflexivity].
  rewrite !forallb_app. rewrite forallb_concat_map; [reflexivity|].
  intros p _. reflexivity.
Qed.

(** C1 (as amended).  In the markup [renderReportHTML] builds for any entry,
    every substitution that comes from a free-text field (site, area,
    weather, manpower, obstacles, safety incidents, notes, a category name,
    the name, quantity or notes of a material item) has gone through
    [escapeHTML]: it holds none of the characters less-than, greater-than,
    double quote and apostrophe, and an ampersand only at the head of one
    of the five entities. *)
Theorem free_text_escaped (h : JSDate.Host) (e : Entry.t) :
  forallb (piece_escaped free_text) (renderReportHTML_markup h e) = true.
Proof.
  unfold renderReportHTML_markup.
  rewrite !forallb_app, catRows_escaped, matTable_escaped, photos_escaped.
  cbn.
  rewrite !escapeHTML_safe.
  rewrite !or_else_safe by (try apply escapeHTML_safe; reflexivity).
  reflexivity.
Qed.

(** C1 (as stated) fails: the needed-by value of a material item and the
    photo sources are placed into the markup as they are.  For
    [entry_raw] the markup holds the substitutions [<b>soon</b>] and
    [x' onerror='alert(1)] unescaped, and the rendered string holds the
    table cell and the image tag they produce. *)
Lemma neededBy_and_photo_not_escaped :
  let m := renderReportHTML_markup (JSDate.fixed_zone 0 0) entry_raw in
  forallb (piece_escaped user_supplied) m = false
  /\ In (Sub MaterialNeededBy "<b>soon</b>") m
  /\ html_safe "<b>soon</b>" = false
  /\ In (Sub PhotoSrc "x' onerror='alert(1)") m
  /\ html_safe "x' onerror='alert(1)" = false.
Proof.
  cbv zeta. repeat split; try reflexivity.
  - vm_compute. tauto.
  - vm_compute. tauto.
Qed.

(** ** The materials table *)


Lemma subs_of_app o (m1 m2 : list piece) :
  subs_of o (m1 ++ m2) = subs_of o m1 ++ subs_of o m2.
Proof.
  induction m1 as [|[s|o' s] r IH]; simpl; [reflexivity|exact IH|].
  destruct (origin_eq_dec o o'); [simpl; f_equal|]; exact IH.
Qed.

Lemma subs_of_rows {A} o (f : A -> list piece) (g : A -> list string) (l : list A) :
  (forall a, subs_of o (f a) = g a) ->
  subs_of o (concat (map f l)) = concat (map g l).
Proof.
  intros H. induction l as [|a l IH]; [reflexivity|].
  simpl. rewrite subs_of_app, H, IH. reflexivity.
Qed.

Lemma concat_map_nil {A B} (l : list A) :
  concat (map (fun _ : A => @nil B) l) = [].
Proof. induction l; simpl; auto. Qed.

Lemma concat_map_singleton {A B} (g : A -> B) (l : list A) :
  concat (map (fun a => [g a]) l) = map g l.
Proof. induction l as [|a l IH]; simpl; [|rewrite IH]; reflexivity. Qed.






(** Where each field goes: every free-text field of the entry is placed
    once, escaped (with its fallback when it is empty), the category names
    and percentages are placed row by row in the order of the object, and
    the photo sources one by one in the order of the list. *)
Lemma fields_placed (h : JSDate.Host) (e : Entry.t) :
  let m := renderReportHTML_markup h e in
  subs_of Site m = [escapeHTML (Entry.site e)]
  /\ subs_of Area m = [escapeHTML (Entry.area e)]
  /\ subs_of Weather m = [escapeHTML (Entry.weather e)]
  /\ subs_of Manpower m = [escapeHTML (Entry.manpower e)]
  /\ subs_of Obstacles m = [or_else (escapeHTML (Entry.obstacles e)) "-"]
  /\ subs_of SafetyIncidents m
     = [or_else (escapeHTML (Entry.safetyIncidents e)) "None"]
  /\ subs_of Notes m = [or_else (escapeHTML (Entry.notes e)) "-"]
  /\ subs_of CategoryName m
     = map (fun kv => escapeHTML (fst kv)) (Entry.categoryProgress e)
  /\ subs_of CategoryValue m
     = map (fun kv => Number_toString (snd kv)) (Entry.categoryProgress e)
  /\ subs_of PhotoSrc m = Entry.photos e.
Proof.
  assert (Hcat : forall o,
             subs_of o (catRows e)
             = match o with
               | CategoryName =>
                   map (fun kv => escapeHTML (fst kv)) (Entry.categoryProgress e)
               | CategoryValue =>
                   map (fun kv => Number_toString (snd kv)) (Entry.categoryProgress e)
               | _ => []
               end).
  { intros o. unfold catRows, JSObject.entries.
    destruct o;
      try (rewrite (subs_of_rows _ catRow (fun _ => []))
             by (intros [k v]; reflexivity); apply concat_map_nil).
    - rewrite (subs_of_rows _ catRow (fun kv => [escapeHTML (fst kv)]))
        by (intros [k v]; reflexivity). apply concat_map_singleton.
    - rewrite (subs_of_rows _ catRow (fun kv => [Number_toString (snd kv)]))
        by (intros [k v]; reflexivity). apply concat_map_singleton. }
  assert (Hmat : forall o, material_origin o = false -> subs_of o (matTable e) = []).
  { intros o Ho. unfold matTable.
    destruct (Entry.materialsRequired e && _); [|reflexivity].
    unfold matTable_table. rewrite !subs_of_app.
    rewrite (subs_of_rows o matRow (fun _ => []))
      by (intros x; destruct o; try discriminate; reflexivity).
    rewrite concat_map_nil. reflexivity. }
  assert (Hph : forall o,
             subs_of o (photos e)
             = match o with PhotoSrc => Entry.photos e | _ => [] end).
  { intros o. unfold photos.
    destruct (Entry.photos e) as [|p ps] eqn:E; [destruct o; reflexivity|].
    cbn [length Nat.eqb negb]. rewrite !subs_of_app.
    destruct o;
      try (rewrite (subs_of_rows _ photoImg (fun _ => []))
             by (intros x; reflexivity); rewrite concat_map_nil; reflexivity).
    rewrite (subs_of_rows _ photoImg (fun x => [x])) by (intros x; reflexivity).
    rewrite concat_map_singleton, map_id. cbn [subs_of app].
    rewrite app_nil_r. reflexivity. }
  cbv zeta. unfold renderReportHTML_markup.
  repeat split; rewrite !subs_of_app, Hcat, Hmat, Hph by reflexivity;
    cbn; rewrite ?app_nil_r; reflexivity.
Qed.






(** The example of the specification: the flag is false and there are
    three items. *)
Example materials_not_required_three_items :
  let item n := {| MaterialItem.id := n; MaterialItem.name := n;
                   MaterialItem.quantity := "1"; MaterialItem.neededBy := "";
                   MaterialItem.notes := "" |} in
  let e := {| Entry.id := "entry_1"; Entry.date := "2024-03-05";
              Entry.site := "s"; Entry.area := ""; Entry.categoryProgress := [];
              Entry.weather := ""; Entry.obstacles := ""; Entry.notes := "";
              Entry.manpower := ""; Entry.safetyIncidents := "";
              Entry.materialsRequired := false;
              Entry.materialItems := [item "a"; item "b"; item "c"];
              Entry.photos := [] |} in
  matTable e = [Lit matTable_no]
  /\ has_lit matTable_heading (renderReportHTML_markup (JSDate.fixed_zone 0 0) e) = false.
Proof. split; reflexivity. Qed.

(** ** Determinism *)


Lemma matRows_rendered l1 l2 :
  map rendered_item l1 = map rendered_item l2 ->
  concat (map matRow l1) = concat (map matRow l2).
Proof.
  revert l2. induction l1 as [|a l1 IH]; intros [|b l2] H; try discriminate;
    [reflexivity|].
  simpl in H. unfold rendered_item at 1 3 in H. injection H as Hn Hq Hb Ht Hl.
  cbn [map concat]. rewrite (IH l2 Hl). unfold matRow.
  rewrite Hn, Hq, Hb, Ht. reflexivity.
Qed.

(** The report shows nothing of the identifiers: entries that agree on the
    fields the report shows have the same markup. *)
Lemma render_same_rendered_fields (h : JSDate.Host) (e1 e2 : Entry.t) :
  same_rendered_fields e1 e2 ->
  renderReportHTML_markup h e1 = renderReportHTML_markup h e2.
Proof.
  intros (Hd & Hs & Ha & Hc & Hw & Ho & Hn & Hm & Hi & Hr & Hl & Hp).
  assert (Hlen : length (Entry.materialItems e1) = length (Entry.materialItems e2)).
  { rewrite <- (length_map rendered_item (Entry.materialItems e1)), Hl.
    apply length_map. }
  unfold renderReportHTML_markup, catRows, matTable, matTable_table, photos.
  rewrite Hd, Hs, Ha, Hc, Hw, Ho, Hn, Hm, Hi, Hr, Hp, Hlen.
  rewrite (matRows_rendered _ _ Hl). reflexivity.
Qed.


Example render_ignores_identifiers :
  Entry.id entry_raw <> Entry.id entry_copy
  /\ renderReportHTML_markup (JSDate.fixed_zone 0 0) entry_raw
     = renderReportHTML_markup (JSDate.fixed_zone 0 0) entry_copy.
Proof.
  split; [discriminate|].
  apply render_same_rendered_fields. repeat split.
Qed.


(** ** Pagination *)

Lemma Qpositive_true q : Qpositive q = true <-> (0 < q)%Q.
Proof.
  unfold Qpositive. rewrite negb_true_iff. split; intros H.
  - apply Qnot_le_lt. intros Hle. apply Qle_bool_iff in Hle. congruence.
  - destruct (Qle_bool q 0) eqn:E; [|reflexivity].
    apply Qle_bool_iff in E. exfalso. exact (Qlt_not_le _ _ H E).
Qed.

Lemma Qpositive_false q : Qpositive q = false <-> (q <= 0)%Q.
Proof.
  unfold Qpositive. rewrite negb_false_iff. apply Qle_bool_iff.
Qed.

(** The loop exits at once when nothing remains, whatever the fuel. *)
Lemma paginate_exit fuel imgData w h p st :
  (remaining st <= 0)%Q -> paginate fuel imgData w h p st = Some st.
Proof.
  intros H. apply Qpositive_false in H.
  destruct fuel; simpl; rewrite H; reflexivity.
Qed.

(** One turn of the loop. *)
Lemma paginate_turn fuel imgData w h p st :
  (0 < remaining st)%Q ->
  paginate (S fuel) imgData w h p st
  = paginate fuel imgData w h p
      {| y := (y st + p)%Q;
         remaining := (remaining st - p)%Q;
         pdf := if Qpositive (remaining st - p)%Q
                then jsPDF.addPage (jsPDF.addImage (pdf st) (full_image imgData w h))
                else jsPDF.addImage (pdf st) (full_image imgData w h) |}.
Proof.
  intros H. apply Qpositive_true in H. simpl. rewrite H.
  unfold full_image. destruct (Qtruthy (y st)); reflexivity.
Qed.

Lemma inject_nat_succ (n : nat) :
  (inject_Z (Z.of_nat (S n)) == inject_Z (Z.of_nat n) + 1)%Q.
Proof. rewrite Nat2Z.inj_succ. unfold Z.succ. rewrite inject_Z_plus. reflexivity. Qed.

(** The loop from a state where [n] whole page heights fit strictly below
    what remains: it runs [n + 1] turns, draws the image on the current
    page and on [n] new pages. *)
Lemma paginate_pages imgData w h (p : Q) :
  (0 < p)%Q ->
  forall (n fuel : nat) (st : LoopState),
    (inject_Z (Z.of_nat n) * p < remaining st)%Q ->
    (remaining st <= inject_Z (Z.of_nat (S n)) * p)%Q ->
    (S n <= fuel)%nat ->
    exists st',
      paginate fuel imgData w h p st = Some st'
      /\ jsPDF.pages (pdf st')
         = jsPDF.finished (pdf st)
           ++ [jsPDF.current (pdf st) ++ [full_image imgData w h]]
           ++ repeat [full_image imgData w h] n.
Proof.
  intros Hp. induction n as [|n IH]; intros fuel st Hlo Hhi Hfuel.
  - destruct fuel as [|fuel]; [lia|].
    change (inject_Z (Z.of_nat 0)) with 0%Q in Hlo.
    change (inject_Z (Z.of_nat 1)) with 1%Q in Hhi.
    assert (Hr : (0 < remaining st)%Q) by lra.
    rewrite paginate_turn by exact Hr.
    assert (Hn : Qpositive (remaining st - p)%Q = false)
      by (apply Qpositive_false; lra).
    rewrite Hn. eexists. split.
    + apply paginate_exit. simpl. lra.
    + simpl. unfold jsPDF.pages. simpl. reflexivity.
  - destruct fuel as [|fuel]; [lia|].
    pose proof (inject_nat_succ n) as Hs.
    pose proof (inject_nat_succ (S n)) as Hss.
    assert (Hn0 : (0 <= inject_Z (Z.of_nat n))%Q).
    { rewrite <- (Zle_Qle 0). lia. }
    assert (Hnp : (0 <= inject_Z (Z.of_nat n) * p)%Q).
    { apply Qmult_le_0_compat; [exact Hn0 | lra]. }
    rewrite Hs in Hlo. rewrite Hss, Hs in Hhi.
    assert (Hr : (0 < remaining st)%Q) by lra.
    rewrite paginate_turn by exact Hr.
    assert (Hn : Qpositive (remaining st - p)%Q = true)
      by (apply Qpositive_true; lra).
    rewrite Hn.
    match goal with |- exists st', paginate fuel _ _ _ _ ?s = _ /\ _ =>
      destruct (IH fuel s) as (st' & Hrun & Hpages)
    end.
    + simpl. lra.
    + simpl. rewrite Hs. lra.
    + lia.
    + exists st'. split; [exact Hrun|].
      rewrite Hpages. simpl. rewrite <- !app_assoc. reflexivity.
Qed.

(** The number of bands of a positive height: [n * p < h <= (n + 1) * p]
    for [n = bands h p - 1]. *)
Lemma bands_bounds (h p : Q) :
  (0 < p)%Q -> (0 < h)%Q ->
  1 <= bands h p
  /\ (inject_Z (bands h p - 1) * p < h)%Q
  /\ (h <= inject_Z (bands h p) * p)%Q.
Proof.
  intros Hp Hh. unfold bands.
  pose proof (Qle_ceiling (h / p)) as Hup.
  pose proof (Qceiling_lt (h / p)) as Hlow.
  assert (Hdiv : (h / p * p == h)%Q) by (field; lra).
  assert (Hpos : (0 < h / p)%Q).
  { apply Qlt_shift_div_l; [exact Hp | lra]. }
  repeat split.
  - assert (H0 : (0 < inject_Z (Qceiling (h / p)))%Q) by lra.
    rewrite <- (Zlt_Qlt 0) in H0. lia.
  - apply (Qmult_lt_r _ _ p Hp) in Hlow. lra.
  - apply (Qmult_le_r _ _ p Hp) in Hup. lra.
Qed.

(** The loop, started as the source starts it, terminates when a page has
    a positive height, and produces [expected_pages]. *)
Lemma paginate_image_pages imgData (w h p : Q) (fuel : nat) :
  (0 < p)%Q ->
  (Z.to_nat (bands h p) <= fuel)%nat ->
  exists doc,
    paginate_image fuel imgData w h p = Some doc
    /\ jsPDF.pages doc = expected_pages imgData w h p.
Proof.
  intros Hp Hfuel. unfold paginate_image, expected_pages.
  destruct (Qpositive h) eqn:Hh.
  - apply Qpositive_true in Hh.
    destruct (bands_bounds h p Hp Hh) as (H1 & Hlo & Hhi).
    destruct (paginate_pages imgData w h p Hp (Z.to_nat (bands h p - 1)) fuel
                {| y := 0; remaining := h; pdf := jsPDF.create |})
      as (st' & Hrun & Hpages).
    + cbn [remaining]. rewrite Z2Nat.id by lia. exact Hlo.
    + cbn [remaining]. rewrite Nat2Z.inj_succ, Z2Nat.id by lia.
      replace (Z.succ (bands h p - 1)) with (bands h p) by lia. exact Hhi.
    + rewrite <- Z2Nat.inj_succ by lia.
      replace (Z.succ (bands h p - 1)) with (bands h p) by lia. exact Hfuel.
    + exists (pdf st'). rewrite Hrun. split; [reflexivity|].
      rewrite Hpages. simpl.
      replace (Z.to_nat (bands h p)) with (S (Z.to_nat (bands h p - 1)))
        by (rewrite <- Z2Nat.inj_succ by lia; f_equal; lia).
      reflexivity.
  - apply Qpositive_false in Hh.
    exists jsPDF.create. rewrite paginate_exit by exact Hh.
    split; reflexivity.
Qed.





(** C4.  Every page of the document the loop produces holds the whole
    image, placed at horizontal and vertical offset 0 with the full width
    and the full height: the placement is the same on every page, whatever
    its index; nothing is cropped or shifted. *)
Theorem pages_place_full_image (imgData : string) (w h p : Q) (fuel : nat) :
  (0 < p)%Q ->
  (Z.to_nat (Qceiling (h / p)) <= fuel)%nat ->
  exists doc,
    paginate_image fuel imgData w h p = Some doc
    /\ Forall (Forall (fun im => im = full_image imgData w h)) (jsPDF.pages doc)
    /\ ((0 < h)%Q ->
        forall i page, nth_error (jsPDF.pages doc) i = Some page ->
                       page = [{| jsPDF.imageData := imgData;
                                  jsPDF.x := 0; jsPDF.y := 0;
                                  jsPDF.w := w; jsPDF.h := h |}]).
Proof.
  intros Hp Hfuel.
  destruct (paginate_image_pages imgData w h p fuel Hp Hfuel) as (doc & Hrun & Hpages).
  exists doc. split; [exact Hrun|]. rewrite Hpages. unfold expected_pages. split.
  - destruct (Qpositive h).
    + apply Forall_forall. intros page Hin. apply repeat_spec in Hin. subst page.
      repeat constructor.
    + repeat constructor.
  - intros Hh i page Hnth. apply Qpositive_true in Hh. rewrite Hh in Hnth.
    apply nth_error_In in Hnth. apply repeat_spec in Hnth. exact Hnth.
Qed.

Lemma pages_place_full_image_witness :
  exists doc,
    paginate_image 3 "png" jsPDF.a4_width (2000 # 1) jsPDF.a4_height = Some doc
    /\ Forall (Forall (fun im => im = full_image "png" jsPDF.a4_width (2000 # 1)))
              (jsPDF.pages doc).
Proof.
  destruct (pages_place_full_image "png" jsPDF.a4_width (2000 # 1) jsPDF.a4_height 3)
    as (doc & Hrun & Hall & _).
  - reflexivity.
  - vm_compute. lia.
  - exists doc. split; [exact Hrun | exact Hall].
Defined.

(** ** The scratch container *)

(** When the export saves a file, the container has its original content
    again. *)
Lemma generatePDF_restores_when_saved fuel b entries entry node filename doc node' :
  generatePDF fuel b entries entry node = (Saved filename doc, node') ->
  node' = node.
Proof.
  unfold generatePDF. destruct node as [original|]; [|discriminate].
  destruct (html2canvas b _); [|discriminate].
  destruct (run_loop _ _ _ _ _); [|discriminate].
  intros H. injection H as _ _ <-. reflexivity.
Qed.

(** When the rasterizer fails, the container keeps the markup of the
    report: the assignment that restores it is never reached. *)
Lemma generatePDF_renderer_failure fuel b entries (e : Entry.t) original :
  html2canvas b (renderReportHTML (host b) e) = None ->
  generatePDF fuel b entries (Some e) (Some original)
  = (RendererFailed, Some (renderReportHTML (host b) e)).
Proof. intros H. unfold generatePDF. rewrite H. reflexivity. Qed.

(** C5 (the code at the failing input).  The container is empty, the
    export of one entry is started and the rasterizer fails: the call ends
    with the container holding the markup of the report, not its original
    (empty) content. *)
Theorem generatePDF_failure_not_restored :
  exists html,
    generatePDF 10 failing_browser [] (Some entry_2024_03_05) (Some "")
    = (RendererFailed, Some html)
    /\ html = renderReportHTML (host failing_browser) entry_2024_03_05
    /\ Some html <> Some "".
Proof.
  eexists. split; [apply generatePDF_renderer_failure; reflexivity|].
  split; [reflexivity|]. vm_compute. discriminate.
Qed.

(** ** The file name *)






(** ** Ordinary objects *)

Module JSObjectFacts.
Import JSObject.

Section Facts.
Context {A : Type}.

Lemma has_own_app (o1 o2 : t A) k : has_own (o1 ++ o2) k = has_own o1 k || has_own o2 k.
Proof. apply existsb_app. Qed.

Lemma get_own_none (o : t A) k : has_own o k = false -> get_own o k = None.
Proof.
  induction o as [|[k' v'] r IH]; simpl; [reflexivity|].
  intros H. apply orb_false_iff in H as [H1 H2]. rewrite H1. auto.
Qed.

Lemma get_own_some (o : t A) k : has_own o k = true -> exists v, get_own o k = Some v.
Proof.
  induction o as [|[k' v'] r IH]; simpl; [discriminate|].
  destruct (String.eqb k' k); simpl; eauto.
Qed.

Lemma get_own_replace (o : t A) k v :
  has_own o k = true -> get_own (replace k v o) k = Some v.
Proof.
  induction o as [|[k' v'] r IH]; simpl; [discriminate|].
  destruct (String.eqb k' k) eqn:E; simpl; rewrite E; auto.
Qed.

Lemma get_own_insert_index (o : t A) i k v :
  has_own o k = false -> get_own (insert_index i k v o) k = Some v.
Proof.
  induction o as [|[k' v'] r IH]; simpl.
  - intros _. rewrite String.eqb_refl. reflexivity.
  - intros H. apply orb_false_iff in H as [H1 H2].
    destruct (array_index k') as [j|]; [destruct (j <? i)|]; simpl;
      rewrite ?H1, ?String.eqb_refl; auto.
Qed.

Lemma get_own_app_new (o : t A) k v :
  has_own o k = false -> get_own (o ++ [(k, v)]) k = Some v.
Proof.
  induction o as [|[k' v'] r IH]; simpl.
  - intros _. rewrite String.eqb_refl. reflexivity.
  - intros H. apply orb_false_iff in H as [H1 H2]. rewrite H1. auto.
Qed.

(** Reading back the property just written. *)
Lemma get_own_set (o : t A) k v : get_own (set o k v) k = Some v.
Proof.
  unfold set. destruct (has_own o k) eqn:E.
  - apply get_own_replace. exact E.
  - destruct (array_index k).
    + apply get_own_insert_index. exact E.
    + apply get_own_app_new. exact E.
Qed.

Lemma get_own_replace_other (o : t A) k v k' :
  k' <> k -> get_own (replace k v o) k' = get_own o k'.
Proof.
  intros Hne. induction o as [|[k0 v0] r IH]; simpl; [reflexivity|].
  destruct (String.eqb k0 k) eqn:E; simpl.
  - apply String.eqb_eq in E. subst k0.
    destruct (String.eqb k k') eqn:E'; [|reflexivity].
    apply String.eqb_eq in E'. congruence.
  - rewrite IH. reflexivity.
Qed.

Lemma get_own_insert_index_other (o : t A) i k v k' :
  k' <> k -> get_own (insert_index i k v o) k' = get_own o k'.
Proof.
  intros Hne.
  assert (Hk : String.eqb k k' = false) by (apply String.eqb_neq; congruence).
  induction o as [|[k0 v0] r IH]; simpl; [rewrite Hk; reflexivity|].
  destruct (array_index k0) as [j|]; [destruct (j <? i)|]; simpl;
    rewrite ?Hk, ?IH; reflexivity.
Qed.

Lemma get_own_app_other (o : t A) k v k' :
  k' <> k -> get_own (o ++ [(k, v)]) k' = get_own o k'.
Proof.
  intros Hne.
  assert (Hk : String.eqb k k' = false) by (apply String.eqb_neq; congruence).
  induction o as [|[k0 v0] r IH]; simpl; [rewrite Hk; reflexivity|].
  rewrite IH. reflexivity.
Qed.

(** Writing a property leaves the others as they are. *)
Lemma get_own_set_other (o : t A) k v k' :
  k' <> k -> get_own (set o k v) k' = get_own o k'.
Proof.
  intros Hne. unfold set. destruct (has_own o k).
  - apply get_own_replace_other. exact Hne.
  - destruct (array_index k).
    + apply get_own_insert_index_other. exact Hne.
    + apply get_own_app_other. exact Hne.
Qed.

Section Invariant.
Variable P : string * A -> Prop.

Lemma Forall_replace (o : t A) k v :
  (forall k', P (k', v)) -> Forall P o -> Forall P (replace k v o).
Proof.
  intros Hv. induction 1 as [|[k' v'] r Hx Hr IH]; simpl; [constructor|].
  destruct (String.eqb k' k); constructor; auto.
Qed.

Lemma Forall_insert_index (o : t A) i k v :
  P (k, v) -> Forall P o -> Forall P (insert_index i k v o).
Proof.
  intros Hv. induction 1 as [|[k' v'] r Hx Hr IH]; simpl; [repeat constructor; auto|].
  destruct (array_index k') as [j|]; [destruct (j <? i)|];
    repeat constructor; auto.
Qed.

Lemma Forall_set (o : t A) k v :
  (forall k', P (k', v)) -> Forall P o -> Forall P (set o k v).
Proof.
  intros Hv Ho. unfold set. destruct (has_own o k).
  - apply Forall_replace; assumption.
  - destruct (array_index k).
    + apply Forall_insert_index; auto.
    + apply Forall_app. split; [exact Ho | repeat constructor; auto].
Qed.

Lemma Forall_delete (o : t A) k : Forall P o -> Forall P (delete o k).
Proof.
  intros Ho. unfold delete. apply Forall_forall. intros x Hx.
  apply filter_In in Hx as [Hx _]. revert x Hx. apply Forall_forall. exact Ho.
Qed.

End Invariant.

(** A property that depends on the value only is kept by a spread. *)
Lemma Forall_spread (Q : A -> Prop) (src dst : t A) :
  Forall (fun kv => Q (snd kv)) dst -> Forall (fun kv => Q (snd kv)) src ->
  Forall (fun kv => Q (snd kv)) (spread dst src).
Proof.
  unfold spread. revert dst.
  induction src as [|[k v] r IH]; intros dst Hd Hs; simpl; [exact Hd|].
  inversion Hs as [|x l Hx Hl]; subst.
  apply IH; [|exact Hl].
  apply (Forall_set (fun kv => Q (snd kv))); [intros k'; exact Hx | exact Hd].
Qed.

(** *** Objects in the order of the language *)

Lemma insert_index_end (o : t A) i k v :
  indices_below i o = true -> insert_index i k v o = o ++ [(k, v)].
Proof.
  induction o as [|[k' v'] r IH]; simpl; [reflexivity|].
  intros H. apply andb_true_iff in H as [H1 H2].
  destruct (array_index k') as [j|]; [|discriminate].
  rewrite H1, IH by exact H2. reflexivity.
Qed.

Lemma ordered_prefix_no_key (pre r : t A) k v :
  ordered (pre ++ (k, v) :: r) = true -> has_own pre k = false.
Proof.
  induction pre as [|[k0 v0] pre IH]; simpl; [reflexivity|].
  intros H. apply andb_true_iff in H as [H Hr].
  apply andb_true_iff in H as [Hn _].
  apply negb_true_iff in Hn. rewrite has_own_app in Hn.
  apply orb_false_iff in Hn as [_ Hn]. simpl in Hn.
  apply orb_false_iff in Hn as [Hn _].
  rewrite String.eqb_sym, Hn. simpl. apply IH. exact Hr.
Qed.

Lemma ordered_prefix_indices (pre r : t A) k v i :
  ordered (pre ++ (k, v) :: r) = true -> array_index k = Some i ->
  indices_below i pre = true.
Proof.
  intros H Hk. induction pre as [|[k0 v0] pre IH]; simpl; [reflexivity|].
  simpl in H. apply andb_true_iff in H as [H Hr].
  apply andb_true_iff in H as [_ Hf].
  rewrite (IH Hr), andb_true_r.
  destruct (array_index k0) as [j|].
  - rewrite forallb_app in Hf. apply andb_true_iff in Hf as [_ Hf].
    simpl in Hf. rewrite Hk in Hf. apply andb_true_iff in Hf as [Hf _]. exact Hf.
  - rewrite forallb_app in Hf. apply andb_true_iff in Hf as [_ Hf].
    simpl in Hf. rewrite Hk in Hf. discriminate.
Qed.

Lemma set_after_ordered (pre r : t A) k v :
  ordered (pre ++ (k, v) :: r) = true -> set pre k v = pre ++ [(k, v)].
Proof.
  intros H. unfold set. rewrite (ordered_prefix_no_key _ _ _ _ H).
  destruct (array_index k) as [i|] eqn:Hk; [|reflexivity].
  apply insert_index_end. exact (ordered_prefix_indices _ _ _ _ _ H Hk).
Qed.

Lemma spread_ordered_from (src pre : t A) :
  ordered (pre ++ src) = true -> spread pre src = pre ++ src.
Proof.
  unfold spread. revert pre.
  induction src as [|[k v] r IH]; intros pre H; simpl; [symmetry; apply app_nil_r|].
  rewrite (set_after_ordered _ _ _ _ H).
  rewrite IH by (rewrite <- app_assoc; exact H).
  rewrite <- app_assoc. reflexivity.
Qed.

(** Copying an object by a spread gives the same properties in the same
    order. *)
Lemma spread_ordered (o : t A) : ordered o = true -> spread [] o = o.
Proof. intros H. apply (spread_ordered_from o []). exact H. Qed.

Lemma delete_absent (o : t A) k : has_own o k = false -> delete o k = o.
Proof.
  unfold delete. induction o as [|[k' v'] r IH]; simpl; [reflexivity|].
  intros H. apply orb_false_iff in H as [H1 H2]. rewrite H1. simpl.
  rewrite IH by exact H2. reflexivity.
Qed.

Lemma delete_insert_index (o : t A) i k v :
  has_own o k = false -> delete (insert_index i k v o) k = o.
Proof.
  intros H. induction o as [|[k' v'] r IH]; simpl.
  - unfold delete. simpl. rewrite String.eqb_refl. reflexivity.
  - simpl in H. apply orb_false_iff in H as [H1 H2].
    assert (Hd : delete ((k, v) :: (k', v') :: r) k = (k', v') :: r).
    { unfold delete. simpl. rewrite String.eqb_refl, H1. simpl.
      fold (delete r k). rewrite (delete_absent r k H2). reflexivity. }
    destruct (array_index k') as [j|]; [destruct (j <? i)|]; try exact Hd.
    unfold delete. simpl. rewrite H1. simpl. fold (delete (insert_index i k v r) k).
    rewrite (IH H2). reflexivity.
Qed.

(** A new property does not move the others: taking it away again gives
    the object back, keys, values and order. *)
Lemma delete_set_new (o : t A) k v :
  has_own o k = false -> delete (set o k v) k = o.
Proof.
  intros H. unfold set. rewrite H. destruct (array_index k).
  - apply delete_insert_index. exact H.
  - unfold delete. rewrite filter_app. simpl. rewrite String.eqb_refl. simpl.
    fold (delete o k). rewrite (delete_absent o k H). apply app_nil_r.
Qed.

(** *** The order of the language is kept by every operation *)

Lemma array_index_canonical (k : string) (i : Z) :
  array_index k = Some i -> k = Number_toString i.
Proof.
  unfold array_index. destruct (digits_value 0 k) as [n|]; [|discriminate].
  destruct (String.eqb (Number_toString n) k) eqn:E; [|discriminate].
  destruct (n <=? 4294967294); [|discriminate].
  intros H. injection H as <-. apply String.eqb_eq in E. congruence.
Qed.

Lemma has_own_replace (o : t A) k v k0 : has_own (replace k v o) k0 = has_own o k0.
Proof.
  unfold has_own. induction o as [|[k' v'] r IH]; [reflexivity|].
  cbn [replace]. destruct (String.eqb k' k); cbn [existsb fst]; [|rewrite IH];
    reflexivity.
Qed.

Lemma forallb_replace (p : string -> bool) (o : t A) k v :
  forallb (fun kv => p (fst kv)) (replace k v o) = forallb (fun kv => p (fst kv)) o.
Proof.
  induction o as [|[k' v'] r IH]; [reflexivity|].
  cbn [replace]. destruct (String.eqb k' k); cbn [forallb fst]; [|rewrite IH];
    reflexivity.
Qed.

Lemma ordered_replace (o : t A) k v : ordered (replace k v o) = ordered o.
Proof.
  induction o as [|[k' v'] r IH]; [reflexivity|].
  cbn [replace]. destruct (String.eqb k' k); cbn [ordered]; [reflexivity|].
  rewrite has_own_replace, IH.
  destruct (array_index k') as [j|].
  - rewrite (forallb_replace (fun k0 => match array_index k0 with
                                        | Some j' => j <? j' | None => true end)).
    reflexivity.
  - rewrite (forallb_replace (fun k0 => match array_index k0 with
                                        | Some _ => false | None => true end)).
    reflexivity.
Qed.

Lemma ordered_app_new (o : t A) k v :
  ordered o = true -> has_own o k = false -> array_index k = None ->
  ordered (o ++ [(k, v)]) = true.
Proof.
  intros Ho Hk Hi. induction o as [|[k0 v0] r IH]; cbn [app ordered].
  - cbn [has_own existsb]. rewrite Hi. reflexivity.
  - cbn [ordered] in Ho. apply andb_true_iff in Ho as [Ho Hr].
    apply andb_true_iff in Ho as [Hn Hf].
    cbn [has_own existsb fst] in Hk. apply orb_false_iff in Hk as [Hk0 Hkr].
    fold (has_own r k) in Hkr.
    rewrite has_own_app, (IH Hr Hkr), andb_true_r.
    apply negb_true_iff in Hn. rewrite Hn.
    cbn [has_own existsb fst]. rewrite String.eqb_sym, Hk0. cbn [orb negb andb].
    destruct (array_index k0) as [j|]; rewrite forallb_app, Hf;
      cbn [forallb fst]; rewrite Hi; reflexivity.
Qed.

Lemma has_own_insert_index (o : t A) i k v k0 :
  has_own (insert_index i k v o) k0 = String.eqb k k0 || has_own o k0.
Proof.
  unfold has_own. induction o as [|[k' v'] r IH]; [reflexivity|].
  cbn [insert_index].
  destruct (array_index k') as [j|]; [destruct (j <? i)|]; cbn [existsb fst];
    try reflexivity.
  rewrite IH. cbn [existsb fst].
  destruct (String.eqb k' k0), (String.eqb k k0); reflexivity.
Qed.

Lemma forallb_insert_index (p : string * A -> bool) (o : t A) i k v :
  forallb p (insert_index i k v o) = p (k, v) && forallb p o.
Proof.
  induction o as [|[k' v'] r IH]; [reflexivity|].
  cbn [insert_index].
  destruct (array_index k') as [j|]; [destruct (j <? i)|]; cbn [forallb];
    try reflexivity.
  rewrite IH. destruct (p (k', v')), (p (k, v)); reflexivity.
Qed.

Lemma forallb_weaken (p q : string * A -> bool) (o : t A) :
  (forall x, p x = true -> q x = true) -> forallb p o = true -> forallb q o = true.
Proof.
  intros H Hp. rewrite forallb_forall in *. auto.
Qed.

Lemma ordered_cons (k : string) (v : A) (r : t A) :
  ordered ((k, v) :: r)
  = negb (has_own r k)
    && match array_index k with
       | Some i =>
           forallb (fun kv => match array_index (fst kv) with
                              | Some j => i <? j
                              | None => true
                              end) r
       | None =>
           forallb (fun kv => match array_index (fst kv) with
                              | Some _ => false
                              | None => true
                              end) r
       end
    && ordered r.
Proof. reflexivity. Qed.

Lemma ordered_insert_index (o : t A) i k v :
  ordered o = true -> has_own o k = false -> array_index k = Some i ->
  ordered (insert_index i k v o) = true.
Proof.
  intros Ho Hk Hi. induction o as [|[k0 v0] r IH]; cbn [insert_index].
  - cbn [ordered has_own existsb]. rewrite Hi. reflexivity.
  - assert (Ho' := Ho). cbn [ordered] in Ho.
    apply andb_true_iff in Ho as [Ho Hr].
    apply andb_true_iff in Ho as [Hn Hf]. apply negb_true_iff in Hn.
    assert (Hk' := Hk). cbn [has_own existsb fst] in Hk.
    apply orb_false_iff in Hk as [Hk0 Hkr]. fold (has_own r k) in Hkr.
    destruct (array_index k0) as [j|] eqn:Hj; [destruct (j <? i) eqn:Hji|].
    + cbn [ordered]. rewrite Hj, has_own_insert_index, Hn, (IH Hr Hkr).
      rewrite String.eqb_sym, Hk0, forallb_insert_index, Hf.
      cbn [fst]. rewrite Hi, Hji. reflexivity.
    + rewrite ordered_cons, Hk', Hi, Ho'. cbn [negb forallb fst andb].
      rewrite Hj.
      assert (Hlt : (i <? j) = true).
      { apply Z.ltb_lt. apply Z.ltb_ge in Hji.
        assert (Hne : j <> i).
        { intros ->. apply array_index_canonical in Hj, Hi. subst k0 k.
          rewrite String.eqb_refl in Hk0. discriminate. }
        lia. }
      rewrite Hlt, andb_true_r. cbn [andb].
      revert Hf. apply forallb_weaken. intros [k1 v1]. cbn [fst].
      destruct (array_index k1) as [j1|]; [|reflexivity].
      intros H1. apply Z.ltb_lt in H1, Hlt. apply Z.ltb_lt. lia.
    + rewrite ordered_cons, Hk', Hi, Ho'. cbn [negb forallb fst andb].
      rewrite Hj, andb_true_r. cbn [andb].
      revert Hf. apply forallb_weaken. intros [k1 v1]. cbn [fst].
      destruct (array_index k1); [discriminate | reflexivity].
Qed.

(** Writing a property keeps the order. *)
Lemma ordered_set (o : t A) k v : ordered o = true -> ordered (set o k v) = true.
Proof.
  intros Ho. unfold set. destruct (has_own o k) eqn:Hk.
  - rewrite ordered_replace. exact Ho.
  - destruct (array_index k) as [i|] eqn:Hi.
    + apply ordered_insert_index; assumption.
    + apply ordered_app_new; assumption.
Qed.

Lemma ordered_spread (src dst : t A) :
  ordered dst = true -> ordered (spread dst src) = true.
Proof.
  unfold spread. revert dst. induction src as [|[k v] r IH]; intros dst H;
    [exact H|].
  cbn [fold_left fst snd]. apply IH. apply ordered_set. exact H.
Qed.

Lemma has_own_delete_false (o : t A) k k0 :
  has_own o k0 = false -> has_own (delete o k) k0 = false.
Proof.
  unfold has_own, delete. induction o as [|[k' v'] r IH]; [reflexivity|].
  cbn [existsb filter fst]. intros H. apply orb_false_iff in H as [H1 H2].
  destruct (negb (String.eqb k' k)); cbn [existsb fst]; rewrite ?H1; auto.
Qed.

Lemma forallb_delete (p : string * A -> bool) (o : t A) k :
  forallb p o = true -> forallb p (delete o k) = true.
Proof.
  unfold delete. rewrite !forallb_forall. intros H x Hx.
  apply filter_In in Hx as [Hx _]. auto.
Qed.

(** Deleting a property keeps the order. *)
Lemma ordered_delete (o : t A) k : ordered o = true -> ordered (delete o k) = true.
Proof.
  induction o as [|[k0 v0] r IH]; [reflexivity|].
  cbn [ordered]. intros Ho. apply andb_true_iff in Ho as [Ho Hr].
  apply andb_true_iff in Ho as [Hn Hf]. apply negb_true_iff in Hn.
  unfold delete. cbn [filter fst]. fold (delete r k).
  destruct (negb (String.eqb k0 k)); [|exact (IH Hr)].
  cbn [ordered]. rewrite (has_own_delete_false r k k0 Hn), (IH Hr).
  destruct (array_index k0); rewrite (forallb_delete _ r k Hf); reflexivity.
Qed.

End Facts.

End JSObjectFacts.

(** ** The slider *)

Lemma round_to_step_integer (z : Z) : RangeInput.round_to_step (inject_Z z) = z.
Proof.
  unfold RangeInput.round_to_step.
  pose proof (Qfloor_le (inject_Z z + (1 # 2))) as Hlo.
  pose proof (Qlt_floor (inject_Z z + (1 # 2))) as Hhi.
  set (f := Qfloor (inject_Z z + (1 # 2))) in *.
  rewrite inject_Z_plus in Hhi. change (inject_Z 1) with 1%Q in Hhi.
  assert (H1 : f < z + 1).
  { rewrite Zlt_Qlt, inject_Z_plus. change (inject_Z 1) with 1%Q. lra. }
  assert (H2 : z < f + 1).
  { rewrite Zlt_Qlt, inject_Z_plus. change (inject_Z 1) with 1%Q. lra. }
  lia.
Qed.

Lemma round_to_step_bounds (lo hi : Z) (v : Q) :
  (inject_Z lo <= v)%Q -> (v <= inject_Z hi)%Q ->
  lo <= RangeInput.round_to_step v <= hi.
Proof.
  intros Hlo Hhi. unfold RangeInput.round_to_step. split.
  - rewrite <- (Qfloor_Z lo). apply Qfloor_resp_le. lra.
  - pose proof (Qfloor_le (v + (1 # 2))) as Hf.
    set (f := Qfloor (v + (1 # 2))) in *.
    assert (H : f < hi + 1).
    { rewrite Zlt_Qlt, inject_Z_plus. change (inject_Z 1) with 1%Q. lra. }
    lia.
Qed.

(** The value a range control reports is within its bounds. *)
Lemma sanitize_bounds (lo hi : Z) (requested : option Q) :
  lo <= hi -> lo <= RangeInput.sanitize lo hi requested <= hi.
Proof.
  intros Hle. unfold RangeInput.sanitize.
  match goal with
  | |- context [Qpositive (inject_Z lo - ?x)] => generalize x; intros v
  end.
  destruct (Qpositive (inject_Z lo - v)) eqn:E1; [lia|].
  apply Qpositive_false in E1.
  assert (Hb : (lo <=? hi) = true) by (apply Z.leb_le; exact Hle).
  rewrite Hb. simpl.
  destruct (Qpositive (v - inject_Z hi)) eqn:E2; [lia|].
  apply Qpositive_false in E2.
  apply round_to_step_bounds; lra.
Qed.

Lemma sanitize_below (lo hi : Z) (q : Q) :
  (q < inject_Z lo)%Q -> RangeInput.sanitize lo hi (Some q) = lo.
Proof.
  intros H. unfold RangeInput.sanitize.
  assert (E : Qpositive (inject_Z lo - q) = true) by (apply Qpositive_true; lra).
  rewrite E. reflexivity.
Qed.

Lemma sanitize_above (lo hi : Z) (q : Q) :
  lo <= hi -> (inject_Z hi < q)%Q -> RangeInput.sanitize lo hi (Some q) = hi.
Proof.
  intros Hle H. unfold RangeInput.sanitize.
  assert (Hq : (inject_Z lo <= inject_Z hi)%Q) by (rewrite <- Zle_Qle; exact Hle).
  assert (E1 : Qpositive (inject_Z lo - q) = false) by (apply Qpositive_false; lra).
  assert (E2 : Qpositive (q - inject_Z hi) = true) by (apply Qpositive_true; lra).
  assert (Hb : (lo <=? hi) = true) by (apply Z.leb_le; exact Hle).
  rewrite E1, E2, Hb. reflexivity.
Qed.

Lemma sanitize_inside (lo hi z : Z) :
  lo <= z <= hi -> RangeInput.sanitize lo hi (Some (inject_Z z)) = z.
Proof.
  intros [H1 H2]. unfold RangeInput.sanitize.
  assert (Q1 : (inject_Z lo <= inject_Z z)%Q) by (rewrite <- Zle_Qle; exact H1).
  assert (Q2 : (inject_Z z <= inject_Z hi)%Q) by (rewrite <- Zle_Qle; exact H2).
  assert (E1 : Qpositive (inject_Z lo - inject_Z z) = false)
    by (apply Qpositive_false; lra).
  assert (E2 : Qpositive (inject_Z z - inject_Z hi) = false)
    by (apply Qpositive_false; lra).
  rewrite E1, E2, andb_false_r. apply round_to_step_integer.
Qed.

(** ** The percentages stay in range *)

Lemma progress_in_range_default : progress_in_range default_categoryProgress.
Proof. unfold progress_in_range. vm_compute. repeat constructor; discriminate. Qed.

Lemma progress_in_range_spread (cp : CategoryProgress) :
  progress_in_range cp -> progress_in_range (JSObject.spread [] cp).
Proof.
  intros H. apply (JSObjectFacts.Forall_spread (fun v => 0 <= v <= 100)).
  - constructor.
  - exact H.
Qed.

Lemma progress_in_range_set (cp : CategoryProgress) k v :
  0 <= v <= 100 -> progress_in_range cp -> progress_in_range (JSObject.set cp k v).
Proof.
  intros Hv H. apply JSObjectFacts.Forall_set; [intros k'; exact Hv | exact H].
Qed.

Lemma onAdd_in_range name s :
  progress_in_range (Entry.categoryProgress s) ->
  progress_in_range (Entry.categoryProgress (onAdd name s)).
Proof.
  intros H. unfold onAdd. destruct name; [exact H|]. cbn [Entry.with_categoryProgress Entry.categoryProgress].
  destruct (JSObject.is_defined _); [exact H|].
  apply progress_in_range_set; [lia|]. apply progress_in_range_spread. exact H.
Qed.

Lemma onRemove_in_range cat s :
  progress_in_range (Entry.categoryProgress s) ->
  progress_in_range (Entry.categoryProgress (onRemove cat s)).
Proof.
  intros H. unfold onRemove. cbn [Entry.with_categoryProgress Entry.categoryProgress].
  apply JSObjectFacts.Forall_delete. apply progress_in_range_spread. exact H.
Qed.

(** ** The key order of [categoryProgress] is an invariant of the form *)

Lemma handlers_keep_order (s : Entry.t) :
  JSObject.ordered (Entry.categoryProgress s) = true ->
  (forall name, JSObject.ordered (Entry.categoryProgress (onAdd name s)) = true)
  /\ (forall cat requested,
        JSObject.ordered (Entry.categoryProgress (slide cat requested s)) = true)
  /\ (forall cat, JSObject.ordered (Entry.categoryProgress (onRemove cat s)) = true).
Proof.
  intros H.
  assert (Hs : JSObject.ordered (JSObject.spread [] (Entry.categoryProgress s)) = true)
    by (apply JSObjectFacts.ordered_spread; reflexivity).
  repeat split.
  - intros name. unfold onAdd. destruct name; [exact H|].
    cbn [Entry.with_categoryProgress Entry.categoryProgress].
    destruct (JSObject.is_defined _); [exact H|].
    apply JSObjectFacts.ordered_set. exact Hs.
  - intros cat requested. unfold slide, onProgressChange.
    cbn [Entry.with_categoryProgress Entry.categoryProgress].
    apply JSObjectFacts.ordered_set. exact Hs.
  - intros cat. unfold onRemove.
    cbn [Entry.with_categoryProgress Entry.categoryProgress].
    apply JSObjectFacts.ordered_delete. exact Hs.
Qed.

Lemma blank_form_ordered (id date : string) :
  JSObject.ordered (Entry.categoryProgress (blank_form id date)) = true.
Proof. reflexivity. Qed.

(** C8.  Moving the slider of a category stores a value within [0, 100]:
    a request below 0 stores 0, a request above 100 stores 100 and a whole
    number in between is stored as it is; and the invariant that all
    percentages are within [0, 100] holds for the blank form and is kept
    by every handler that updates [categoryProgress] (the slider, adding a
    category, removing a category). *)
Theorem progress_stays_in_range (s : Entry.t) (cat : string) (requested : option Q) :
  progress_in_range (Entry.categoryProgress s) ->
  (exists v,
      JSObject.get_own (Entry.categoryProgress (slide cat requested s)) cat = Some v
      /\ 0 <= v <= 100
      /\ (forall q, requested = Some q -> (q < 0)%Q -> v = 0)
      /\ (forall q, requested = Some q -> (100 < q)%Q -> v = 100)
      /\ (forall z, requested = Some (inject_Z z) -> 0 <= z <= 100 -> v = z))
  /\ progress_in_range (Entry.categoryProgress (slide cat requested s))
  /\ (forall name, progress_in_range (Entry.categoryProgress (onAdd name s)))
  /\ (forall cat', progress_in_range (Entry.categoryProgress (onRemove cat' s)))
  /\ (forall id date, progress_in_range (Entry.categoryProgress (blank_form id date))).
Proof.
  intros H.
  pose proof (sanitize_bounds 0 100 requested ltac:(lia)) as Hb.
  repeat split.
  - exists (RangeInput.sanitize 0 100 requested).
    unfold slide, onProgressChange.
    cbn [Entry.with_categoryProgress Entry.categoryProgress].
    rewrite JSObjectFacts.get_own_set. repeat split; try lia.
    + intros q -> Hq. apply sanitize_below. exact Hq.
    + intros q -> Hq. apply sanitize_above; [lia | exact Hq].
    + intros z -> Hz. apply sanitize_inside. exact Hz.
  - unfold slide, onProgressChange.
    cbn [Entry.with_categoryProgress Entry.categoryProgress].
    apply progress_in_range_set; [exact Hb|].
    apply progress_in_range_spread. exact H.
  - intros name. apply onAdd_in_range. exact H.
  - intros cat'. apply onRemove_in_range. exact H.
  - intros id date. apply progress_in_range_default.
Qed.

Lemma progress_stays_in_range_witness :
  progress_in_range (Entry.categoryProgress entry_2024_03_05)
  /\ JSObject.get_own
       (Entry.categoryProgress (slide "Painting" (Some (250 # 1)) entry_2024_03_05))
       "Painting" = Some 100
  /\ progress_in_range
       (Entry.categoryProgress (slide "Painting" (Some (250 # 1)) entry_2024_03_05)).
Proof.
  assert (H : progress_in_range (Entry.categoryProgress entry_2024_03_05))
    by apply progress_in_range_default.
  split; [exact H|]. split; [reflexivity|].
  exact (proj1 (proj2 (progress_stays_in_range entry_2024_03_05 "Painting"
                         (Some (250 # 1)) H))).
Defined.

(** ** Adding a category *)

(** A name that is already a key: nothing changes. *)
Lemma onAdd_existing name s :
  JSObject.has_own (Entry.categoryProgress s) name = true ->
  Entry.categoryProgress (onAdd name s) = Entry.categoryProgress s.
Proof.
  intros H. unfold onAdd. destruct name; [reflexivity|].
  cbn [Entry.with_categoryProgress Entry.categoryProgress].
  unfold JSObject.get.
  destruct (JSObjectFacts.get_own_some _ _ H) as [v ->]. reflexivity.
Qed.

(** A name that is not a key and that [Object.prototype] does not define:
    it is added with the value 0, and taking it away again gives the
    object back, so the earlier keys keep their values and their order. *)
Lemma onAdd_new name s :
  name <> "" ->
  JSObject.ordered (Entry.categoryProgress s) = true ->
  JSObject.has_own (Entry.categoryProgress s) name = false ->
  existsb (String.eqb name) JSObject.prototype_keys = false ->
  let cp' := Entry.categoryProgress (onAdd name s) in
  cp' = JSObject.set (Entry.categoryProgress s) name 0
  /\ JSObject.get_own cp' name = Some 0
  /\ JSObject.delete cp' name = Entry.categoryProgress s
  /\ forall k, k <> name -> JSObject.get_own cp' k = JSObject.get_own (Entry.categoryProgress s) k.
Proof.
  intros Hne Hord Hown Hproto. cbv zeta.
  assert (E : Entry.categoryProgress (onAdd name s)
              = JSObject.set (Entry.categoryProgress s) name 0).
  { unfold onAdd. destruct name; [congruence|].
    cbn [Entry.with_categoryProgress Entry.categoryProgress].
    unfold JSObject.get. rewrite (JSObjectFacts.get_own_none _ _ Hown), Hproto.
    cbn [JSObject.is_defined].
    rewrite JSObjectFacts.spread_ordered by exact Hord. reflexivity. }
  rewrite E. repeat split.
  - apply JSObjectFacts.get_own_set.
  - apply JSObjectFacts.delete_set_new. exact Hown.
  - intros k Hk. apply JSObjectFacts.get_own_set_other. exact Hk.
Qed.

(** C10 (the code at the failing input).  The name [constructor] is not a
    key of the blank form's [categoryProgress], yet adding it changes
    nothing: [s.categoryProgress[name]] finds the property that every
    object inherits from [Object.prototype], which is not [undefined], so
    the handler takes the branch for a name that is already present. *)
Theorem onAdd_inherited_name_not_added :
  let s := blank_form "entry_a1b2c3d" "2024-03-05T08:00:00.000Z" in
  JSObject.has_own (Entry.categoryProgress s) "constructor" = false
  /\ Entry.categoryProgress (onAdd "constructor" s) = Entry.categoryProgress s
  /\ JSObject.get_own (Entry.categoryProgress (onAdd "constructor" s)) "constructor"
     = None
  /\ JSObject.get_own (Entry.categoryProgress (onAdd "Scaffolding" s)) "Scaffolding"
     = Some 0.
Proof. cbv zeta. repeat split. Qed.

(** ** JSON: reading back what was written *)

Module JSONFacts.
Import JSON.

(** *** Strings *)

Lemma parse_chars_quote_char (c : ascii) (l : text) :
  parse_chars (quote_char c ++ l) = prepend [c] (parse_chars l).
Proof.
  destruct c as [[] [] [] [] [] [] [] []]; reflexivity.
Qed.

Lemma parse_chars_quote_chars (s : string) (rest : text) :
  parse_chars (quote_chars s ++ dquote :: rest)
  = Some (list_ascii_of_string s, rest).
Proof.
  induction s as [|c s IH]; [reflexivity|].
  cbn [quote_chars list_ascii_of_string]. rewrite <- app_assoc.
  rewrite parse_chars_quote_char, IH. reflexivity.
Qed.

(** *** Numbers *)

Lemma digits_dlist (f : nat) (n : Z) (acc : string) :
  list_ascii_of_string (digits f n acc)
  = map digitChar (dlist f n) ++ list_ascii_of_string acc.
Proof.
  revert n acc. induction f as [|f IH]; intros n acc; [reflexivity|].
  cbn [digits dlist]. destruct (n <? 10); [reflexivity|].
  rewrite IH, map_app, <- app_assoc. reflexivity.
Qed.

Lemma dlist_range (f : nat) (n : Z) : Forall (fun d => 0 <= d <= 9) (dlist f n).
Proof.
  revert n. induction f as [|f IH]; intros n; cbn [dlist].
  - repeat constructor; pose proof (Z.mod_pos_bound n 10); lia.
  - destruct (n <? 10).
    + repeat constructor; pose proof (Z.mod_pos_bound n 10); lia.
    + apply Forall_app. split; [apply IH|].
      repeat constructor; pose proof (Z.mod_pos_bound n 10); lia.
Qed.

Lemma digits_to_Z_snoc (ds : list Z) (d : Z) :
  digits_to_Z (ds ++ [d]) = 10 * digits_to_Z ds + d.
Proof. unfold digits_to_Z. rewrite fold_left_app. reflexivity. Qed.

Lemma dlist_value (f : nat) (n : Z) :
  0 <= n < 10 ^ Z.of_nat (S f) -> digits_to_Z (dlist f n) = n.
Proof.
  revert n. induction f as [|f IH]; intros n Hn; cbn [dlist].
  - change (10 ^ Z.of_nat 1) with 10 in Hn.
    unfold digits_to_Z. simpl. rewrite Z.mod_small by lia. lia.
  - destruct (n <? 10) eqn:E.
    + apply Z.ltb_lt in E. unfold digits_to_Z. simpl.
      rewrite Z.mod_small by lia. lia.
    + apply Z.ltb_ge in E. rewrite digits_to_Z_snoc, IH.
      * pose proof (Z.div_mod n 10). lia.
      * rewrite Nat2Z.inj_succ, Z.pow_succ_r in Hn by lia.
        split; [apply Z.div_pos; lia | apply Z.div_lt_upper_bound; lia].
Qed.

Lemma dlist_zero (f : nat) : dlist f 0 = [0].
Proof. destruct f; reflexivity. Qed.

Lemma dlist_head (f : nat) (n : Z) :
  0 < n < 10 ^ Z.of_nat (S f) ->
  exists d ds, dlist f n = d :: ds /\ d <> 0.
Proof.
  revert n. induction f as [|f IH]; intros n Hn; cbn [dlist].
  - change (10 ^ Z.of_nat 1) with 10 in Hn.
    exists (n mod 10), []. rewrite Z.mod_small by lia. split; [reflexivity | lia].
  - destruct (n <? 10) eqn:E.
    + apply Z.ltb_lt in E. exists (n mod 10), [].
      rewrite Z.mod_small by lia. split; [reflexivity | lia].
    + apply Z.ltb_ge in E.
      destruct (IH (n / 10)) as (d & ds & Hd & Hnz).
      * rewrite Nat2Z.inj_succ, Z.pow_succ_r in Hn by lia.
        split; [apply Z.div_str_pos; lia | apply Z.div_lt_upper_bound; lia].
      * rewrite Hd. exists d, (ds ++ [n mod 10]). split; [reflexivity | exact Hnz].
Qed.

Lemma log2_fuel (n : Z) : 0 <= n -> 0 <= n < 10 ^ Z.of_nat (S (Z.to_nat (Z.log2 n))).
Proof.
  intros Hn. split; [exact Hn|].
  rewrite Nat2Z.inj_succ, Z2Nat.id by apply Z.log2_nonneg.
  destruct (Z.eq_dec n 0) as [->|Hz]; [reflexivity|].
  pose proof (Z.log2_spec n ltac:(lia)) as [_ Hlt].
  apply Z.lt_le_trans with (1 := Hlt).
  apply Z.pow_le_mono_l. pose proof (Z.log2_nonneg n). lia.
Qed.

Lemma digit_val_digitChar (d : Z) :
  0 <= d <= 9 -> JSDate.digit_val (digitChar d) = Some d.
Proof.
  intros H.
  assert (Hd : d = 0 \/ d = 1 \/ d = 2 \/ d = 3 \/ d = 4 \/ d = 5 \/ d = 6
               \/ d = 7 \/ d = 8 \/ d = 9) by lia.
  repeat (destruct Hd as [-> | Hd]; [reflexivity|]). subst d. reflexivity.
Qed.

Lemma take_digits_digits (ds : list Z) (rest : text) :
  Forall (fun d => 0 <= d <= 9) ds -> ends_number rest = true ->
  take_digits (map digitChar ds ++ rest) = (ds, rest).
Proof.
  intros Hds Hrest. induction Hds as [|d ds Hd _ IH]; cbn [map app take_digits].
  - destruct rest as [|c r]; [reflexivity|]. cbn [take_digits ends_number] in *.
    destruct (JSDate.digit_val c); [discriminate | reflexivity].
  - rewrite (digit_val_digitChar d Hd), IH. reflexivity.
Qed.

Lemma ends_number_continues (rest : text) :
  ends_number rest = true -> continues_number rest = false.
Proof.
  destruct rest as [|c r]; [reflexivity|]. unfold ends_number.
  destruct (JSDate.digit_val c); [discriminate|]. apply negb_true_iff.
Qed.

Lemma digitChar_not_minus (d : Z) : 0 <= d <= 9 -> Ascii.eqb (digitChar d) "-" = false.
Proof.
  intros H.
  assert (Hd : d = 0 \/ d = 1 \/ d = 2 \/ d = 3 \/ d = 4 \/ d = 5 \/ d = 6
               \/ d = 7 \/ d = 8 \/ d = 9) by lia.
  repeat (destruct Hd as [-> | Hd]; [reflexivity|]). subst d. reflexivity.
Qed.

(** An unsigned run of digits, read back. *)
Lemma parse_number_unsigned (n : Z) (rest : text) :
  0 <= n -> ends_number rest = true ->
  parse_number (map digitChar (dlist (Z.to_nat (Z.log2 n)) n) ++ rest)
  = Some (n, rest).
Proof.
  intros Hn Hrest. set (f := Z.to_nat (Z.log2 n)).
  pose proof (log2_fuel n Hn) as Hf. fold f in Hf.
  pose proof (dlist_range f n) as Hr.
  pose proof (dlist_value f n Hf) as Hv.
  pose proof (take_digits_digits _ rest Hr Hrest) as Ht.
  assert (Hhead : exists d ds, dlist f n = d :: ds
                               /\ ((d =? 0) && negb (length ds =? 0)%nat = false)).
  { destruct (Z.eq_dec n 0) as [->|Hz].
    - subst f. rewrite dlist_zero. exists 0, []. split; reflexivity.
    - destruct (dlist_head f n ltac:(lia)) as (d & ds & Hd & Hnz).
      exists d, ds. split; [exact Hd|].
      apply Z.eqb_neq in Hnz. rewrite Hnz. reflexivity. }
  destruct Hhead as (d & ds & Hd & Hlead).
  unfold parse_number. rewrite Hd in *. cbn [map app].
  pose proof (Forall_inv Hr) as Hd0. cbv beta in Hd0.
  rewrite (digitChar_not_minus d Hd0).
  cbn [map app] in Ht. rewrite Ht, Hlead, (ends_number_continues rest Hrest), Hv.
  reflexivity.
Qed.

Lemma Number_toString_text (n : Z) :
  list_ascii_of_string (Number_toString n)
  = if n <? 0
    then "-"%char :: map digitChar (dlist (Z.to_nat (Z.log2 (- n))) (- n))
    else map digitChar (dlist (Z.to_nat (Z.log2 n)) n).
Proof.
  unfold Number_toString. destruct (n <? 0); cbn [list_ascii_of_string];
    rewrite digits_dlist; cbn [list_ascii_of_string]; rewrite app_nil_r; reflexivity.
Qed.

(** A number, read back. *)
Lemma parse_number_toString (n : Z) (rest : text) :
  ends_number rest = true ->
  parse_number (list_ascii_of_string (Number_toString n) ++ rest) = Some (n, rest).
Proof.
  intros Hrest. rewrite Number_toString_text. destruct (n <? 0) eqn:E.
  - apply Z.ltb_lt in E. set (f := Z.to_nat (Z.log2 (- n))).
    pose proof (log2_fuel (- n) ltac:(lia)) as Hf. fold f in Hf.
    pose proof (dlist_range f (- n)) as Hr.
    pose proof (dlist_value f (- n) Hf) as Hv.
    pose proof (take_digits_digits _ rest Hr Hrest) as Ht.
    destruct (dlist_head f (- n) ltac:(lia)) as (d & ds & Hd & Hnz).
    rewrite Hd in *. apply Z.eqb_neq in Hnz.
    unfold parse_number. cbn [app]. change (Ascii.eqb "-" "-") with true. cbv iota.
    rewrite Ht, Hnz, (ends_number_continues rest Hrest), Hv. cbn [andb].
    f_equal. f_equal. lia.
  - apply Z.ltb_ge in E. apply parse_number_unsigned; assumption.
Qed.

(** *** White space *)

Lemma skip_ws_app (pre l : text) :
  forallb is_ws pre = true -> skip_ws (pre ++ l) = skip_ws l.
Proof.
  induction pre as [|c pre IH]; [reflexivity|]. cbn [forallb app skip_ws].
  intros H. apply andb_true_iff in H as [Hc Hpre]. rewrite Hc. auto.
Qed.

Lemma skip_ws_nonws (c : ascii) (l : text) :
  is_ws c = false -> skip_ws (c :: l) = c :: l.
Proof. intros H. cbn [skip_ws]. rewrite H. reflexivity. Qed.

Lemma skip_ws_item (l : text) : starts_item l = true -> skip_ws l = l.
Proof.
  destruct l as [|c r]; [discriminate|]. cbn [starts_item skip_ws].
  destruct (is_ws c); [discriminate | reflexivity].
Qed.

(** *** One step of the parser *)

Lemma parse_value_S f l :
  parse_value (S f) l
  = match skip_ws l with
    | [] => None
    | c :: r => parse_value (S f) (c :: r)
    end.
Proof.
  cbn [parse_value]. destruct (skip_ws l) as [|c r] eqn:E; [reflexivity|].
  assert (Hc : is_ws c = false).
  { destruct l as [|a l]; [discriminate|]. revert a E.
    induction l as [|b l IH]; intros a E; cbn [skip_ws] in E.
    - destruct (is_ws a) eqn:Ha; [discriminate|]. injection E as <- _. exact Ha.
    - destruct (is_ws a) eqn:Ha.
      + apply (IH b). exact E.
      + injection E as <- _. exact Ha. }
  cbn [skip_ws]. rewrite Hc. reflexivity.
Qed.

Lemma parse_value_skip fuel (pre l : text) :
  forallb is_ws pre = true -> parse_value fuel (pre ++ l) = parse_value fuel l.
Proof.
  intros H. destruct fuel as [|f]; [reflexivity|].
  rewrite (parse_value_S f (pre ++ l)), (parse_value_S f l), skip_ws_app by exact H.
  reflexivity.
Qed.

Lemma parse_value_null f rest :
  parse_value (S f) (list_ascii_of_string "null" ++ rest) = Some (Null, rest).
Proof. reflexivity. Qed.

Lemma parse_value_bool f b rest :
  parse_value (S f) (serialize [] (Bool b) ++ rest) = Some (Bool b, rest).
Proof. destruct b; reflexivity. Qed.

Lemma parse_value_string f r :
  parse_value (S f) (dquote :: r)
  = match parse_chars r with
    | Some (s, rest) => Some (Str (string_of_list_ascii s), rest)
    | None => None
    end.
Proof. reflexivity. Qed.

Lemma parse_value_array f r :
  starts_item (skip_ws r) = true ->
  parse_value (S f) ("["%char :: r)
  = match parse_elements f r with
    | Some (vs, rest) => Some (Arr vs, rest)
    | None => None
    end.
Proof.
  intros H. change (parse_value (S f) ("["%char :: r))
    with (match skip_ws r with
          | c' :: r' =>
              if Ascii.eqb c' "]" then Some (Arr [], r')
              else match parse_elements f r with
                   | Some (vs, rest) => Some (Arr vs, rest)
                   | None => None
                   end
          | [] => None
          end).
  destruct (skip_ws r) as [|c' r']; [discriminate|].
  cbn [starts_item] in H. destruct (Ascii.eqb c' "]"); [|reflexivity].
  rewrite andb_false_r in H. discriminate.
Qed.

Lemma parse_value_object f r :
  starts_item (skip_ws r) = true ->
  parse_value (S f) ("{"%char :: r)
  = match parse_members f r with
    | Some (ms, rest) => Some (Obj (JSObject.fromEntries ms), rest)
    | None => None
    end.
Proof.
  intros H. change (parse_value (S f) ("{"%char :: r))
    with (match skip_ws r with
          | c' :: r' =>
              if Ascii.eqb c' "}" then Some (Obj [], r')
              else match parse_members f r with
                   | Some (ms, rest) => Some (Obj (JSObject.fromEntries ms), rest)
                   | None => None
                   end
          | [] => None
          end).
  destruct (skip_ws r) as [|c' r']; [discriminate|].
  cbn [starts_item] in H. destruct (Ascii.eqb c' "}"); [|reflexivity].
  rewrite andb_false_r in H. discriminate.
Qed.

Lemma parse_value_digit f d r :
  0 <= d <= 9 ->
  parse_value (S f) (digitChar d :: r)
  = match parse_number (digitChar d :: r) with
    | Some (n, rest) => Some (Num n, rest)
    | None => None
    end.
Proof.
  intros H.
  assert (Hd : d = 0 \/ d = 1 \/ d = 2 \/ d = 3 \/ d = 4 \/ d = 5 \/ d = 6
               \/ d = 7 \/ d = 8 \/ d = 9) by lia.
  repeat (destruct Hd as [-> | Hd]; [reflexivity|]). subst d. reflexivity.
Qed.

Lemma parse_value_minus f r :
  parse_value (S f) ("-"%char :: r)
  = match parse_number ("-"%char :: r) with
    | Some (n, rest) => Some (Num n, rest)
    | None => None
    end.
Proof. reflexivity. Qed.

Lemma parse_elements_S f l :
  parse_elements (S f) l
  = match parse_value f l with
    | Some (v, r) =>
        match skip_ws r with
        | c :: r' =>
            if Ascii.eqb c "," then
              match parse_elements f r' with
              | Some (vs, rest) => Some (v :: vs, rest)
              | None => None
              end
            else if Ascii.eqb c "]" then Some ([v], r')
            else None
        | [] => None
        end
    | None => None
    end.
Proof. reflexivity. Qed.

Lemma parse_members_S f l :
  parse_members (S f) l
  = match skip_ws l with
    | c :: r =>
        if Ascii.eqb c dquote then
          match parse_chars r with
          | Some (k, r1) =>
              match skip_ws r1 with
              | c1 :: r2 =>
                  if Ascii.eqb c1 ":" then
                    match parse_value f r2 with
                    | Some (v, r3) =>
                        match skip_ws r3 with
                        | c3 :: r4 =>
                            if Ascii.eqb c3 "," then
                              match parse_members f r4 with
                              | Some (ms, rest) =>
                                  Some ((string_of_list_ascii k, v) :: ms, rest)
                              | None => None
                              end
                            else if Ascii.eqb c3 "}" then
                              Some ([(string_of_list_ascii k, v)], r4)
                            else None
                        | [] => None
                        end
                    | None => None
                    end
                  else None
              | [] => None
              end
          | None => None
          end
        else None
    | [] => None
    end.
Proof. reflexivity. Qed.

(** *** The first character of a value *)

Lemma dlist_nonempty (f : nat) (n : Z) : dlist f n <> [].
Proof.
  destruct f; cbn [dlist]; [discriminate|].
  destruct (n <? 10); [discriminate|].
  intros H. apply app_eq_nil in H as [_ H]. discriminate.
Qed.

Lemma starts_item_digit (d : Z) (r : text) :
  0 <= d <= 9 -> starts_item (digitChar d :: r) = true.
Proof.
  intros H.
  assert (Hd : d = 0 \/ d = 1 \/ d = 2 \/ d = 3 \/ d = 4 \/ d = 5 \/ d = 6
               \/ d = 7 \/ d = 8 \/ d = 9) by lia.
  repeat (destruct Hd as [-> | Hd]; [reflexivity|]). subst d. reflexivity.
Qed.

Lemma serialize_starts (indent : text) (v : value) (rest : text) :
  starts_item (serialize indent v ++ rest) = true.
Proof.
  destruct v as [|[]|n|s|[|x l]|[|m ms]]; try reflexivity.
  cbn [serialize]. rewrite Number_toString_text.
  destruct (n <? 0); [reflexivity|].
  pose proof (dlist_range (Z.to_nat (Z.log2 n)) n) as Hr.
  destruct (dlist (Z.to_nat (Z.log2 n)) n) as [|d ds] eqn:E.
  - exfalso. exact (dlist_nonempty _ _ E).
  - cbn [map app]. apply starts_item_digit. exact (Forall_inv Hr).
Qed.

Lemma member_text_starts (indent : text) (kv : string * value) (rest : text) :
  starts_item (member_text indent kv ++ rest) = true.
Proof. destruct kv as [k x]. reflexivity. Qed.

Lemma join_text_cons (sep a : text) (l : list text) (rest : text) :
  join_text sep (a :: l) ++ rest
  = a ++ match l with
         | [] => rest
         | _ => sep ++ join_text sep l ++ rest
         end.
Proof.
  destruct l as [|b l]; [reflexivity|].
  cbn [join_text]. rewrite <- !app_assoc. reflexivity.
Qed.

(** *** Arrays and objects *)

Lemma skip_ws_closing (stepback : text) (c : ascii) (rest : text) :
  forallb is_ws stepback = true -> is_ws c = false ->
  skip_ws (newline :: stepback ++ c :: rest) = c :: rest.
Proof.
  intros Hs Hc. change (newline :: stepback ++ c :: rest)
    with ((newline :: stepback) ++ c :: rest).
  rewrite skip_ws_app by (cbn [forallb]; rewrite Hs; reflexivity).
  cbn [skip_ws]. rewrite Hc. reflexivity.
Qed.

Lemma parse_elements_join (l : list value) :
  l <> [] -> Forall reads_back l ->
  forall (indent stepback rest pre : text) (fuel : nat),
    forallb is_ws indent = true ->
    forallb is_ws stepback = true ->
    forallb is_ws pre = true ->
    (fold_right (fun x a => S (size x) + a)%nat O l <= fuel)%nat ->
    parse_elements fuel
      (pre ++ join_text (","%char :: newline :: indent) (map (serialize indent) l)
       ++ newline :: stepback ++ "]"%char :: rest)
    = Some (l, rest).
Proof.
  induction l as [|x l IH]; [congruence|].
  intros _ Hall indent stepback rest pre fuel Hi Hs Hp Hfuel.
  inversion Hall as [|? ? Hx Hl]; subst.
  cbn [fold_right] in Hfuel. destruct fuel as [|f]; [lia|].
  rewrite parse_elements_S, parse_value_skip by exact Hp.
  cbn [map]. rewrite join_text_cons.
  destruct l as [|y l'].
  - cbn [map]. rewrite (Hx indent _ f Hi) by (reflexivity || lia).
    rewrite skip_ws_closing by (exact Hs || reflexivity). reflexivity.
  - rewrite (Hx indent _ f Hi) by (reflexivity || lia).
    cbn [map]. cbv iota.
    change ((","%char :: newline :: indent) ++ ?t)
      with (","%char :: (newline :: indent) ++ t).
    rewrite skip_ws_nonws by reflexivity. rewrite Ascii.eqb_refl.
    assert (Hrec := IH ltac:(discriminate) Hl indent stepback rest
                       (newline :: indent) f Hi Hs).
    cbn [map] in Hrec. rewrite Hrec; [reflexivity | | lia].
    cbn [forallb]. rewrite Hi. reflexivity.
Qed.

Lemma member_text_app (indent : text) (k : string) (x : value) (t : text) :
  member_text indent (k, x) ++ t
  = dquote :: quote_chars k
    ++ dquote :: ":"%char :: space :: serialize indent x ++ t.
Proof.
  unfold member_text, QuoteJSONString. cbn [app].
  rewrite <- !app_assoc. reflexivity.
Qed.

Lemma parse_members_join (ms : list (string * value)) :
  ms <> [] -> Forall (fun kv => reads_back (snd kv)) ms ->
  forall (indent stepback rest pre : text) (fuel : nat),
    forallb is_ws indent = true ->
    forallb is_ws stepback = true ->
    forallb is_ws pre = true ->
    (fold_right (fun (kv : string * value) a =>
                   let (_, x) := kv in S (size x) + a)%nat O ms <= fuel)%nat ->
    parse_members fuel
      (pre ++ join_text (","%char :: newline :: indent) (map (member_text indent) ms)
       ++ newline :: stepback ++ "}"%char :: rest)
    = Some (ms, rest).
Proof.
  induction ms as [|[k x] ms IH]; [congruence|].
  intros _ Hall indent stepback rest pre fuel Hi Hs Hp Hfuel.
  inversion Hall as [|? ? Hx Hl]; subst. cbn [snd] in Hx.
  cbn [fold_right] in Hfuel. destruct fuel as [|f]; [lia|].
  rewrite parse_members_S, skip_ws_app by exact Hp.
  cbn [map]. rewrite join_text_cons, member_text_app.
  rewrite skip_ws_nonws by reflexivity. rewrite Ascii.eqb_refl.
  rewrite parse_chars_quote_chars.
  rewrite skip_ws_nonws by reflexivity. rewrite Ascii.eqb_refl.
  change (space :: serialize indent x ++ ?t)
    with ([space] ++ serialize indent x ++ t).
  rewrite parse_value_skip by reflexivity.
  rewrite string_of_list_ascii_of_string.
  destruct ms as [|[k' y] ms'].
  - rewrite (Hx indent _ f Hi) by (reflexivity || lia).
    cbn [map]. cbv iota.
    rewrite skip_ws_closing by (exact Hs || reflexivity). reflexivity.
  - rewrite (Hx indent _ f Hi) by (reflexivity || lia).
    cbn [map]. cbv iota.
    change ((","%char :: newline :: indent) ++ ?t)
      with (","%char :: (newline :: indent) ++ t).
    rewrite skip_ws_nonws by reflexivity. rewrite Ascii.eqb_refl.
    assert (Hrec := IH ltac:(discriminate) Hl indent stepback rest
                       (newline :: indent) f Hi Hs).
    cbn [map] in Hrec. rewrite Hrec; [reflexivity | | lia].
    cbn [forallb]. rewrite Hi. reflexivity.
Qed.

Lemma serialize_Arr_app (indent : text) (x : value) (l : list value) (rest : text) :
  serialize indent (Arr (x :: l)) ++ rest
  = "["%char
    :: (newline :: indent ++ gap)
       ++ join_text (","%char :: newline :: indent ++ gap)
            (map (serialize (indent ++ gap)) (x :: l))
       ++ newline :: indent ++ "]"%char :: rest.
Proof.
  cbn [serialize]. cbn [app]. rewrite <- !app_assoc. cbn [app].
  rewrite <- !app_assoc. reflexivity.
Qed.

Lemma serialize_Obj_app (indent : text) (m : string * value)
      (ms : list (string * value)) (rest : text) :
  serialize indent (Obj (m :: ms)) ++ rest
  = "{"%char
    :: (newline :: indent ++ gap)
       ++ join_text (","%char :: newline :: indent ++ gap)
            (map (member_text (indent ++ gap)) (m :: ms))
       ++ newline :: indent ++ "}"%char :: rest.
Proof.
  cbn [serialize]. cbn [app]. rewrite <- !app_assoc. cbn [app].
  rewrite <- !app_assoc. reflexivity.
Qed.

Lemma is_ws_indent (indent : text) :
  forallb is_ws indent = true -> forallb is_ws (indent ++ gap) = true.
Proof. intros H. rewrite forallb_app, H. reflexivity. Qed.

(** Every value whose objects are in the order of the language is read
    back from its text. *)
Theorem parse_serialize (v : value) : well_formed v = true -> reads_back v.
Proof.
  induction v as [| b | n | s | l IHl | ms IHms] using value_induction;
    intros Hwf indent rest fuel Hi Hrest Hfuel;
    (destruct fuel as [|f]; [cbn in Hfuel; lia|]).
  - apply parse_value_null.
  - apply parse_value_bool.
  - pose proof (parse_number_toString n rest Hrest) as Hp.
    cbn [serialize]. rewrite Number_toString_text in *.
    destruct (n <? 0).
    + cbn [app] in *. rewrite parse_value_minus, Hp. reflexivity.
    + pose proof (dlist_range (Z.to_nat (Z.log2 n)) n) as Hr.
      destruct (dlist (Z.to_nat (Z.log2 n)) n) as [|d ds] eqn:E;
        [exfalso; exact (dlist_nonempty _ _ E)|].
      cbn [map app] in *.
      rewrite parse_value_digit by exact (Forall_inv Hr).
      rewrite Hp. reflexivity.
  - cbn [serialize]. unfold QuoteJSONString. cbn [app].
    rewrite <- app_assoc. cbn [app].
    rewrite parse_value_string, parse_chars_quote_chars.
    rewrite string_of_list_ascii_of_string. reflexivity.
  - destruct l as [|x l]; [reflexivity|].
    rewrite serialize_Arr_app.
    assert (Hall : Forall reads_back (x :: l)).
    { cbn [well_formed] in Hwf. rewrite forallb_forall in Hwf.
      rewrite Forall_forall in *. intros y Hy. apply IHl; [exact Hy|].
      apply Hwf. exact Hy. }
    pose proof (is_ws_indent indent Hi) as Hi'.
    rewrite parse_value_array.
    + cbn [size] in Hfuel.
      rewrite (parse_elements_join (x :: l) ltac:(discriminate) Hall);
        try assumption; try reflexivity.
      lia.
    + rewrite skip_ws_app by (cbn [forallb]; rewrite Hi'; reflexivity).
      cbn [map]. rewrite join_text_cons.
      rewrite skip_ws_item; apply serialize_starts.
  - destruct ms as [|m ms]; [reflexivity|].
    rewrite serialize_Obj_app.
    cbn [well_formed] in Hwf. apply andb_true_iff in Hwf as [Hord Hwf].
    assert (Hall : Forall (fun kv => reads_back (snd kv)) (m :: ms)).
    { rewrite forallb_forall in Hwf.
      rewrite Forall_forall in *. intros [k y] Hy. apply (IHms _ Hy).
      exact (Hwf _ Hy). }
    pose proof (is_ws_indent indent Hi) as Hi'.
    rewrite parse_value_object.
    + cbn [size] in Hfuel.
      rewrite (parse_members_join (m :: ms) ltac:(discriminate) Hall);
        try assumption; try reflexivity.
      * unfold JSObject.fromEntries.
        rewrite JSObjectFacts.spread_ordered by exact Hord. reflexivity.
      * lia.
    + rewrite skip_ws_app by (cbn [forallb]; rewrite Hi'; reflexivity).
      cbn [map]. rewrite join_text_cons.
      rewrite skip_ws_item; apply member_text_starts.
Qed.

(** [JSON.parse(JSON.stringify(v, null, 2))] is [v]. *)
Theorem parse_stringify (v : value) (fuel : nat) :
  well_formed v = true -> (size v <= fuel)%nat ->
  parse fuel (stringify v) = Some v.
Proof.
  intros Hwf Hfuel. unfold parse, stringify.
  rewrite list_ascii_of_string_of_list_ascii.
  rewrite <- (app_nil_r (serialize [] v)).
  rewrite (parse_serialize v Hwf [] [] fuel); reflexivity || exact Hfuel.
Qed.

End JSONFacts.

(** ** JSON export *)

Lemma traverse_map {A B} (f : B -> option A) (g : A -> B) (l : list A) :
  (forall x, f (g x) = Some x) -> traverse f (map g l) = Some l.
Proof.
  intros H. induction l as [|x l IH]; [reflexivity|].
  cbn [map traverse]. rewrite H, IH. reflexivity.
Qed.

Lemma MaterialItem_of_to_json (m : MaterialItem.t) :
  MaterialItem_of_json (MaterialItem_to_json m) = Some m.
Proof. destruct m. reflexivity. Qed.

Lemma Entry_of_to_json (e : Entry.t) : Entry_of_json (Entry_to_json e) = Some e.
Proof.
  destruct e as [i d s a cp w o n m si mr mi ph].
  unfold Entry_to_json, CategoryProgress_to_json, Entry_of_json.
  cbn [Entry.id Entry.date Entry.site Entry.area Entry.categoryProgress
       Entry.weather Entry.obstacles Entry.notes Entry.manpower
       Entry.safetyIncidents Entry.materialsRequired Entry.materialItems
       Entry.photos].
  rewrite (traverse_map json_progress (fun kv => (fst kv, JSON.Num (snd kv))))
    by (intros [k v]; reflexivity).
  rewrite (traverse_map MaterialItem_of_json MaterialItem_to_json)
    by apply MaterialItem_of_to_json.
  rewrite (traverse_map json_string JSON.Str) by reflexivity.
  reflexivity.
Qed.

Lemma entries_of_to_json (l : list Entry.t) :
  entries_of_json (entries_to_json l) = Some l.
Proof. apply traverse_map. apply Entry_of_to_json. Qed.

Lemma has_own_map_values {A B} (f : A -> B) (o : JSObject.t A) k :
  JSObject.has_own (map (fun kv => (fst kv, f (snd kv))) o) k = JSObject.has_own o k.
Proof.
  unfold JSObject.has_own. induction o as [|[k' v'] r IH]; [reflexivity|].
  cbn [map existsb fst]. rewrite IH. reflexivity.
Qed.

Lemma forallb_map_values {A B} (f : A -> B) (p : string -> bool) (o : JSObject.t A) :
  forallb (fun kv => p (fst kv)) (map (fun kv => (fst kv, f (snd kv))) o)
  = forallb (fun kv => p (fst kv)) o.
Proof.
  induction o as [|[k' v'] r IH]; [reflexivity|].
  cbn [map forallb fst]. rewrite IH. reflexivity.
Qed.

(** The order of an object depends on its keys only. *)
Lemma ordered_map_values {A B} (f : A -> B) (o : JSObject.t A) :
  JSObject.ordered (map (fun kv => (fst kv, f (snd kv))) o) = JSObject.ordered o.
Proof.
  induction o as [|[k v] r IH]; [reflexivity|].
  cbn [map JSObject.ordered fst snd]. rewrite has_own_map_values, IH.
  destruct (JSObject.array_index k) as [i|].
  - rewrite (forallb_map_values f
               (fun k' => match JSObject.array_index k' with
                          | Some j => i <? j
                          | None => true
                          end)). reflexivity.
  - rewrite (forallb_map_values f
               (fun k' => match JSObject.array_index k' with
                          | Some _ => false
                          | None => true
                          end)). reflexivity.
Qed.

Lemma forallb_map_true {A B} (p : B -> bool) (g : A -> B) (l : list A) :
  (forall x, p (g x) = true) -> forallb p (map g l) = true.
Proof.
  intros H. induction l as [|x l IH]; [reflexivity|].
  cbn [map forallb]. rewrite H, IH. reflexivity.
Qed.

Lemma well_formed_CategoryProgress (cp : CategoryProgress) :
  JSObject.ordered cp = true ->
  JSON.well_formed (CategoryProgress_to_json cp) = true.
Proof.
  intros H. unfold CategoryProgress_to_json. cbn [JSON.well_formed].
  rewrite (ordered_map_values JSON.Num cp), H.
  apply forallb_map_true. reflexivity.
Qed.

Lemma well_formed_Entry (e : Entry.t) :
  JSObject.ordered (Entry.categoryProgress e) = true ->
  JSON.well_formed (Entry_to_json e) = true.
Proof.
  intros H. pose proof (well_formed_CategoryProgress _ H) as Hcp.
  unfold Entry_to_json.
  set (cp := CategoryProgress_to_json (Entry.categoryProgress e)) in *.
  cbn [JSON.well_formed forallb]. rewrite Hcp.
  rewrite (forallb_map_true JSON.well_formed MaterialItem_to_json)
    by reflexivity.
  rewrite (forallb_map_true JSON.well_formed JSON.Str) by reflexivity.
  reflexivity.
Qed.

Lemma well_formed_entries (l : list Entry.t) :
  entries_ordered l -> JSON.well_formed (entries_to_json l) = true.
Proof.
  intros H. unfold entries_to_json. cbn [JSON.well_formed].
  induction H as [|e l He _ IH]; [reflexivity|].
  cbn [map forallb]. rewrite (well_formed_Entry e He), IH. reflexivity.
Qed.

(** C7.  The text [exportJSON] hands to the browser, parsed, gives back
    the list of entries, equal field for field (given enough fuel for the
    parser); and the export leaves the state of the page, and so the list
    of entries, as it is. *)
Theorem exportJSON_roundtrip (h : JSDate.Host) (st : AppState) (fuel : nat) :
  entries_ordered (entries st) ->
  (JSON.size (entries_to_json (entries st)) <= fuel)%nat ->
  JSON.parse fuel (content (fst (exportJSON h st)))
  = Some (entries_to_json (entries st))
  /\ import_entries fuel (content (fst (exportJSON h st))) = Some (entries st)
  /\ snd (exportJSON h st) = st.
Proof.
  intros Hord Hfuel.
  assert (Hp : JSON.parse fuel (content (fst (exportJSON h st)))
               = Some (entries_to_json (entries st))).
  { cbn [exportJSON fst content].
    apply JSONFacts.parse_stringify; [|exact Hfuel].
    apply well_formed_entries. exact Hord. }
  split; [exact Hp|]. split; [|reflexivity].
  unfold import_entries. rewrite Hp. apply entries_of_to_json.
Qed.

Lemma exportJSON_roundtrip_witness :
  entries_ordered (entries sample_state)
  /\ import_entries 200 (content (fst (exportJSON (JSDate.fixed_zone 0 0) sample_state)))
     = Some (entries sample_state).
Proof.
  assert (H : entries_ordered (entries sample_state))
    by (repeat constructor).
  split; [exact H|].
  refine (proj1 (proj2 (exportJSON_roundtrip (JSDate.fixed_zone 0 0) sample_state 200 H _))).
  vm_compute. lia.
Defined.

(* ------------------------------------------------------------------ *)
(** * Further properties of the page *)

(** ** Escaping loses nothing *)

Lemma escapeHTML_length (s : string) :
  (String.length s <= String.length (escapeHTML s))%nat.
Proof.
  induction s as [|c r IH]; [apply Nat.le_refl|].
  cbn [escapeHTML]. unfold escapeChar.
  repeat match goal with
         | |- context [if Ascii.eqb ?a ?b then _ else _] => destruct (Ascii.eqb a b)
         end; cbn [String.append String.length]; lia.
Qed.

Lemma escapeChar_prefix_free (c1 c2 : ascii) (r1 r2 : string) :
  (escapeChar c1 ++ r1)%string = (escapeChar c2 ++ r2)%string ->
  c1 = c2 /\ r1 = r2.
Proof.
  unfold escapeChar.
  destruct (Ascii.eqb c1 "&") eqn:A1; destruct (Ascii.eqb c1 "<") eqn:A2;
    destruct (Ascii.eqb c1 ">") eqn:A3; destruct (Ascii.eqb c1 dquote) eqn:A4;
    destruct (Ascii.eqb c1 "'") eqn:A5;
    destruct (Ascii.eqb c2 "&") eqn:B1; destruct (Ascii.eqb c2 "<") eqn:B2;
    destruct (Ascii.eqb c2 ">") eqn:B3; destruct (Ascii.eqb c2 dquote) eqn:B4;
    destruct (Ascii.eqb c2 "'") eqn:B5;
    repeat match goal with
           | E : Ascii.eqb _ _ = true |- _ => apply Ascii.eqb_eq in E; subst
           end;
    try discriminate;
    cbn [String.append]; intros H; try discriminate H;
    injection H as H; subst; try discriminate; try (split; reflexivity).
Qed.

(** X1.  [escapeHTML] is injective: two different texts never have the
    same escaped form, so the text of a field can be recovered from the
    markup. *)
Theorem escapeHTML_injective (s1 s2 : string) :
  escapeHTML s1 = escapeHTML s2 -> s1 = s2.
Proof.
  revert s2. induction s1 as [|c1 r1 IH]; intros [|c2 r2] H.
  - reflexivity.
  - exfalso. pose proof (escapeHTML_length (String c2 r2)) as Hl.
    rewrite <- H in Hl. cbn in Hl. lia.
  - exfalso. pose proof (escapeHTML_length (String c1 r1)) as Hl.
    rewrite H in Hl. cbn in Hl. lia.
  - cbn [escapeHTML] in H. apply escapeChar_prefix_free in H as [-> H].
    rewrite (IH r2 H). reflexivity.
Qed.

Lemma escapeHTML_injective_witness :
  escapeHTML "Tom & <Jerry>" = "Tom &amp; &lt;Jerry&gt;"
  /\ "Tom & <Jerry>" = "Tom & <Jerry>".
Proof.
  split; [reflexivity|].
  apply (escapeHTML_injective "Tom & <Jerry>" "Tom & <Jerry>"). reflexivity.
Defined.

(** Escaping a text piece by piece is escaping it as a whole. *)
Lemma escapeHTML_app (s1 s2 : string) :
  escapeHTML (s1 ++ s2) = (escapeHTML s1 ++ escapeHTML s2)%string.
Proof.
  induction s1 as [|c r IH]; [reflexivity|].
  cbn [String.append escapeHTML]. rewrite IH.
  unfold escapeChar.
  repeat match goal with
         | |- context [if Ascii.eqb ?a ?b then _ else _] => destruct (Ascii.eqb a b)
         end; reflexivity.
Qed.

(** X2.  [escapeHTML] returns a text as it is exactly when the text holds
    none of the five HTML-sensitive characters; every other text comes
    back changed (and longer). *)
Theorem escapeHTML_unchanged_iff (s : string) :
  escapeHTML s = s
  <-> forall c, In c (list_ascii_of_string s) -> html_sensitive c = false.
Proof.
  split; [|apply escapeHTML_plain].
  induction s as [|c r IH]; intros H d Hd; [destruct Hd|].
  cbn [escapeHTML] in H.
  assert (Hc : html_sensitive c = false /\ escapeHTML r = r).
  { pose proof (escapeHTML_length r) as Hl.
    unfold escapeChar, html_sensitive in *.
    destruct (Ascii.eqb c "&") eqn:E1.
    { exfalso. cbn [String.append] in H. injection H as _ H.
      apply (f_equal String.length) in H. cbn [String.length] in H. lia. }
    destruct (Ascii.eqb c "<") eqn:E2.
    { exfalso. cbn [String.append] in H. injection H as H _. subst c. discriminate. }
    destruct (Ascii.eqb c ">") eqn:E3.
    { exfalso. cbn [String.append] in H. injection H as H _. subst c. discriminate. }
    destruct (Ascii.eqb c dquote) eqn:E4.
    { exfalso. cbn [String.append] in H. injection H as H _. subst c. discriminate. }
    destruct (Ascii.eqb c "'") eqn:E5.
    { exfalso. cbn [String.append] in H. injection H as H _. subst c. discriminate. }
    cbn [String.append] in H. injection H as H. split; [reflexivity | exact H]. }
  destruct Hc as [Hc Hr]. cbn [list_ascii_of_string] in Hd.
  destruct Hd as [<- | Hd]; [exact Hc | exact (IH Hr d Hd)].
Qed.


(** ** Strings *)

Lemma string_app_assoc (a b c : string) :
  ((a ++ b) ++ c)%string = (a ++ (b ++ c))%string.
Proof. induction a as [|x a IH]; [reflexivity|]. cbn. rewrite IH. reflexivity. Qed.

Lemma string_app_nil_r (a : string) : (a ++ "")%string = a.
Proof. induction a as [|x a IH]; [reflexivity|]. cbn. rewrite IH. reflexivity. Qed.

Lemma string_length_app (a b : string) :
  String.length (a ++ b) = (String.length a + String.length b)%nat.
Proof. induction a as [|x a IH]; [reflexivity|]. cbn. rewrite IH. reflexivity. Qed.

Lemma list_ascii_app (a b : string) :
  list_ascii_of_string (a ++ b)
  = list_ascii_of_string a ++ list_ascii_of_string b.
Proof. induction a as [|x a IH]; [reflexivity|]. cbn. rewrite IH. reflexivity. Qed.

(** ** The batch report *)

Lemma join_app (sep : string) (l1 l2 : list string) :
  l1 <> [] -> l2 <> [] ->
  join sep (l1 ++ l2) = (join sep l1 ++ sep ++ join sep l2)%string.
Proof.
  intros H1 H2. induction l1 as [|x l1 IH]; [congruence|].
  destruct l1 as [|y l1].
  - destruct l2 as [|z l2]; [congruence|]. reflexivity.
  - change (join sep ((x :: y :: l1) ++ l2))
      with (x ++ sep ++ join sep ((y :: l1) ++ l2))%string.
    rewrite IH by discriminate.
    change (join sep (x :: y :: l1)) with (x ++ sep ++ join sep (y :: l1))%string.
    rewrite !string_app_assoc. reflexivity.
Qed.

(** X3.  The markup of a batch is the markup of its entries joined by the
    page-break block: no entries give the empty markup, one entry gives its
    own report, and the batch of two non-empty lists put together is the
    batch of the first, a page break, and the batch of the second. *)
Theorem renderAllReportsHTML_app (h : JSDate.Host) (l1 l2 : list Entry.t) :
  l1 <> [] -> l2 <> [] ->
  renderAllReportsHTML h (l1 ++ l2)
  = (renderAllReportsHTML h l1 ++ page_break ++ renderAllReportsHTML h l2)%string
  /\ renderAllReportsHTML h [] = ""
  /\ forall e, renderAllReportsHTML h [e] = renderReportHTML h e.
Proof.
  intros H1 H2. split; [|split; reflexivity].
  unfold renderAllReportsHTML. rewrite map_app.
  apply join_app; destruct l1, l2; try congruence; discriminate.
Qed.

Lemma renderAllReportsHTML_app_witness :
  renderAllReportsHTML (JSDate.fixed_zone 0 0) ([entry_raw] ++ [entry_2024_03_05])
  = (renderReportHTML (JSDate.fixed_zone 0 0) entry_raw ++ page_break
     ++ renderReportHTML (JSDate.fixed_zone 0 0) entry_2024_03_05)%string.
Proof.
  exact (proj1 (renderAllReportsHTML_app (JSDate.fixed_zone 0 0)
                  [entry_raw] [entry_2024_03_05]
                  ltac:(discriminate) ltac:(discriminate))).
Defined.

(** ** Photos *)




(** ** Material items *)

Lemma with_materialItems_same (s : Entry.t) :
  with_materialItems s (Entry.materialItems s) = s.
Proof. destruct s. reflexivity. Qed.

Lemma apply_patch_id (m : MaterialItem.t) (p : MaterialPatch) :
  field_patch p -> MaterialItem.id (apply_patch m p) = MaterialItem.id m.
Proof. unfold field_patch. intros H. cbn. rewrite H. reflexivity. Qed.

Lemma apply_patch_twice (m : MaterialItem.t) (p : MaterialPatch) :
  apply_patch (apply_patch m p) p = apply_patch m p.
Proof.
  destruct p as [[i|] [n|] [q|] [b|] [t|]]; reflexivity.
Qed.

(** X5.  [updateMaterialItem(id, patch)] with a patch that does not touch
    the identifier (the form sends one field at a time) changes the rows
    that carry [id] and no other: the number of rows and the order of the
    identifiers stay, a row with another identifier is kept as it is, a row
    with this identifier gets the fields of the patch, an identifier that
    no row carries changes nothing, and sending the same patch twice is
    the same as sending it once. *)
Theorem updateMaterialItem_spec (id : string) (patch : MaterialPatch) (s : Entry.t) :
  field_patch patch ->
  let l := Entry.materialItems s in
  let l' := Entry.materialItems (updateMaterialItem id patch s) in
  map MaterialItem.id l' = map MaterialItem.id l
  /\ (forall i m, nth_error l i = Some m ->
        nth_error l' i
        = Some (if String.eqb (MaterialItem.id m) id then apply_patch m patch else m))
  /\ (~ In id (map MaterialItem.id l) -> updateMaterialItem id patch s = s)
  /\ updateMaterialItem id patch (updateMaterialItem id patch s)
     = updateMaterialItem id patch s
  /\ Entry.photos (updateMaterialItem id patch s) = Entry.photos s.
Proof.
  intros Hp. cbv zeta. unfold updateMaterialItem.
  cbn [with_materialItems Entry.materialItems Entry.photos].
  split; [|split; [|split; [|split; [|reflexivity]]]].
  - rewrite map_map. apply map_ext. intros m.
    destruct (String.eqb (MaterialItem.id m) id); [apply apply_patch_id; exact Hp|].
    reflexivity.
  - intros i m H. rewrite nth_error_map, H. reflexivity.
  - intros Hnot.
    transitivity (with_materialItems s (Entry.materialItems s));
      [f_equal | apply with_materialItems_same].
    transitivity (map (fun m => m) (Entry.materialItems s)); [|apply map_id].
    apply map_ext_in. intros m Hm.
    destruct (String.eqb (MaterialItem.id m) id) eqn:E; [|reflexivity].
    exfalso. apply Hnot. apply String.eqb_eq in E. subst id.
    apply in_map. exact Hm.
  - unfold with_materialItems. cbn [Entry.materialItems Entry.id Entry.date
      Entry.site Entry.area Entry.categoryProgress Entry.weather Entry.obstacles
      Entry.notes Entry.manpower Entry.safetyIncidents Entry.materialsRequired
      Entry.photos]. f_equal.
    rewrite map_map. apply map_ext. intros m.
    destruct (String.eqb (MaterialItem.id m) id) eqn:E.
    + rewrite (apply_patch_id m patch Hp), E. apply apply_patch_twice.
    + rewrite E. reflexivity.
Qed.

Lemma updateMaterialItem_spec_witness :
  field_patch (quantity_patch "6 bags")
  /\ map MaterialItem.quantity
       (Entry.materialItems
          (updateMaterialItem "mat_aaaaaaa" (quantity_patch "6 bags") form_with_items))
     = ["6 bags"; ""]
  /\ map MaterialItem.id
       (Entry.materialItems
          (updateMaterialItem "mat_aaaaaaa" (quantity_patch "6 bags") form_with_items))
     = map MaterialItem.id (Entry.materialItems form_with_items).
Proof.
  assert (H : field_patch (quantity_patch "6 bags")) by reflexivity.
  split; [exact H|]. split; [reflexivity|].
  exact (proj1 (updateMaterialItem_spec "mat_aaaaaaa" (quantity_patch "6 bags")
                  form_with_items H)).
Defined.




(** ** The categories of the form *)

Lemma has_own_set {A} (o : JSObject.t A) k v k0 :
  JSObject.has_own (JSObject.set o k v) k0
  = String.eqb k k0 || JSObject.has_own o k0.
Proof.
  unfold JSObject.set. destruct (JSObject.has_own o k) eqn:E.
  - rewrite JSObjectFacts.has_own_replace.
    destruct (String.eqb k k0) eqn:Ek; [|reflexivity].
    apply String.eqb_eq in Ek. subst k0. rewrite E. reflexivity.
  - destruct (JSObject.array_index k).
    + apply JSObjectFacts.has_own_insert_index.
    + rewrite JSObjectFacts.has_own_app. cbn [JSObject.has_own existsb fst].
      rewrite orb_false_r, orb_comm. reflexivity.
Qed.

Lemma has_own_delete {A} (o : JSObject.t A) k k0 :
  JSObject.has_own (JSObject.delete o k) k0
  = negb (String.eqb k k0) && JSObject.has_own o k0.
Proof.
  unfold JSObject.has_own, JSObject.delete.
  induction o as [|[k' v'] r IH]; [cbn [filter existsb]; symmetry; apply andb_false_r|].
  cbn [filter existsb fst]. destruct (String.eqb k' k) eqn:E; cbn [negb].
  - apply String.eqb_eq in E. subst k'. rewrite IH.
    destruct (String.eqb k k0); reflexivity.
  - cbn [existsb fst]. rewrite IH.
    destruct (String.eqb k' k0) eqn:E0; [|reflexivity].
    apply String.eqb_eq in E0. subst k'. rewrite String.eqb_sym, E. reflexivity.
Qed.

Lemma get_own_delete_other {A} (o : JSObject.t A) k k0 :
  k0 <> k -> JSObject.get_own (JSObject.delete o k) k0 = JSObject.get_own o k0.
Proof.
  intros Hne. unfold JSObject.delete.
  induction o as [|[k' v'] r IH]; [reflexivity|].
  cbn [filter fst]. destruct (String.eqb k' k) eqn:E; cbn [negb JSObject.get_own].
  - apply String.eqb_eq in E. subst k'.
    assert (E0 : String.eqb k k0 = false) by (apply String.eqb_neq; congruence).
    rewrite E0. exact IH.
  - rewrite IH. reflexivity.
Qed.

Lemma keys_replace {A} (o : JSObject.t A) k v :
  JSObject.keys (JSObject.replace k v o) = JSObject.keys o.
Proof.
  unfold JSObject.keys. induction o as [|[k' v'] r IH]; [reflexivity|].
  cbn [JSObject.replace]. destruct (String.eqb k' k); cbn [map fst];
    [|rewrite IH]; reflexivity.
Qed.

Lemma ordered_length_keys {A} (o : JSObject.t A) (l : list string) :
  NoDup l -> (forall d, In d l -> JSObject.has_own o d = true) ->
  (length l <= length o)%nat.
Proof.
  intros Hnd Hall.
  rewrite <- (length_map fst o).
  apply NoDup_incl_length; [exact Hnd|].
  intros d Hd. specialize (Hall d Hd).
  unfold JSObject.has_own in Hall. apply existsb_exists in Hall as ([k v] & Hin & E).
  apply String.eqb_eq in E. cbn [fst] in E. subst d.
  apply (in_map fst) in Hin. exact Hin.
Qed.

Lemma default_categories_nodup : NoDup DEFAULT_CATEGORIES.
Proof.
  unfold DEFAULT_CATEGORIES.
  repeat (constructor; [cbn [In]; intuition discriminate|]). constructor.
Qed.

(** The part of the state the category handlers work on is kept by the
    photo and material handlers. *)
Lemma perform_other_categoryProgress (a : FormAction) (s : Entry.t) :
  match a with
  | AddCategoryAction _ | SlideAction _ _ | RemoveCategoryAction _ => True
  | _ => Entry.categoryProgress (perform a s) = Entry.categoryProgress s
  end.
Proof. destruct a; exact I || reflexivity. Qed.

(** X7.  In every state of the form the user can reach from a blank form
    through the category, photo and material controls, all percentages are
    within [0, 100], the keys of [categoryProgress] are in the order of the
    language, and each of the twelve default categories is still a key
    (the page offers no way to remove one), so there are always at least
    twelve rows. *)
Theorem form_invariant (s : Entry.t) :
  reachable s ->
  progress_in_range (Entry.categoryProgress s)
  /\ JSObject.ordered (Entry.categoryProgress s) = true
  /\ (forall d, In d DEFAULT_CATEGORIES ->
                JSObject.has_own (Entry.categoryProgress s) d = true)
  /\ (12 <= length (Entry.categoryProgress s))%nat.
Proof.
  intros Hr.
  assert (H3 : progress_in_range (Entry.categoryProgress s)
               /\ JSObject.ordered (Entry.categoryProgress s) = true
               /\ (forall d, In d DEFAULT_CATEGORIES ->
                             JSObject.has_own (Entry.categoryProgress s) d = true)).
  { induction Hr as [id date | s a Hr IH Ha].
    - split; [apply progress_in_range_default|]. split; [reflexivity|].
      intros d Hd. cbn [In DEFAULT_CATEGORIES] in Hd.
      repeat (destruct Hd as [<- | Hd]; [reflexivity|]). destruct Hd.
    - destruct IH as (Hrange & Hord & Hdef).
      pose proof (JSObjectFacts.spread_ordered _ Hord) as Hsp.
      pose proof (handlers_keep_order s Hord) as (Ho1 & Ho2 & Ho3).
      destruct a as [name | cat requested | cat | | | | | ];
        try (repeat split; assumption).
      + split; [apply onAdd_in_range; exact Hrange|]. split; [apply Ho1|].
        intros d Hd. cbn [perform]. unfold onAdd. destruct name; [auto|].
        cbn [Entry.with_categoryProgress Entry.categoryProgress].
        destruct (JSObject.is_defined _); [auto|].
        rewrite Hsp, has_own_set, (Hdef d Hd). apply orb_true_r.
      + split.
        { cbn [perform]. unfold slide, onProgressChange.
          cbn [Entry.with_categoryProgress Entry.categoryProgress].
          apply progress_in_range_set;
            [apply sanitize_bounds; lia | apply progress_in_range_spread; exact Hrange]. }
        split; [apply Ho2|].
        intros d Hd. cbn [perform]. unfold slide, onProgressChange.
        cbn [Entry.with_categoryProgress Entry.categoryProgress].
        rewrite Hsp, has_own_set, (Hdef d Hd). apply orb_true_r.
      + split; [apply onRemove_in_range; exact Hrange|]. split; [apply Ho3|].
        intros d Hd. cbn [perform]. unfold onRemove.
        cbn [Entry.with_categoryProgress Entry.categoryProgress].
        rewrite Hsp, has_own_delete, (Hdef d Hd), andb_true_r.
        cbn [offered] in Ha. apply andb_true_iff in Ha as [_ Ha].
        apply negb_true_iff in Ha.
        destruct (String.eqb cat d) eqn:E; [|reflexivity].
        apply String.eqb_eq in E. subst d.
        unfold is_default_category in Ha.
        assert (Hex : existsb (String.eqb cat) DEFAULT_CATEGORIES = true).
        { apply existsb_exists. exists cat. split; [exact Hd | apply String.eqb_refl]. }
        congruence. }
  destruct H3 as (H1 & H2 & H3). repeat split; try assumption.
  change 12%nat with (length DEFAULT_CATEGORIES).
  apply ordered_length_keys; [apply default_categories_nodup | exact H3].
Qed.

Lemma form_invariant_witness :
  reachable (perform (SlideAction "Painting" (Some (40 # 1)))
               (perform (AddCategoryAction "Scaffolding")
                  (blank_form "entry_a1b2c3d" "2024-03-05T08:00:00.000Z")))
  /\ (12 <= length (Entry.categoryProgress
                      (perform (SlideAction "Painting" (Some (40 # 1)))
                         (perform (AddCategoryAction "Scaffolding")
                            (blank_form "entry_a1b2c3d" "2024-03-05T08:00:00.000Z")))))%nat.
Proof.
  assert (H : reachable (perform (SlideAction "Painting" (Some (40 # 1)))
               (perform (AddCategoryAction "Scaffolding")
                  (blank_form "entry_a1b2c3d" "2024-03-05T08:00:00.000Z")))).
  { apply reachable_step; [apply reachable_step; [apply reachable_blank|]|];
      reflexivity. }
  split; [exact H|].
  exact (proj2 (proj2 (proj2 (form_invariant _ H)))).
Defined.

(** X8.  Moving the slider of a category that is a key changes the value
    of that key and nothing else: the categories and their order stay, and
    every other category keeps its percentage. *)
Theorem slide_frame (cat : string) (requested : option Q) (s : Entry.t) :
  JSObject.ordered (Entry.categoryProgress s) = true ->
  JSObject.has_own (Entry.categoryProgress s) cat = true ->
  let cp := Entry.categoryProgress s in
  let cp' := Entry.categoryProgress (slide cat requested s) in
  JSObject.keys cp' = JSObject.keys cp
  /\ JSObject.get_own cp' cat = Some (RangeInput.sanitize 0 100 requested)
  /\ (forall k, k <> cat -> JSObject.get_own cp' k = JSObject.get_own cp k)
  /\ Entry.photos (slide cat requested s) = Entry.photos s
  /\ Entry.materialItems (slide cat requested s) = Entry.materialItems s.
Proof.
  intros Hord Hown. cbv zeta. unfold slide, onProgressChange.
  cbn [Entry.with_categoryProgress Entry.categoryProgress Entry.photos
       Entry.materialItems].
  rewrite JSObjectFacts.spread_ordered by exact Hord.
  split; [|split; [|split; [|split; reflexivity]]].
  - unfold JSObject.set. rewrite Hown. apply keys_replace.
  - apply JSObjectFacts.get_own_set.
  - intros k Hk. apply JSObjectFacts.get_own_set_other. exact Hk.
Qed.

Lemma slide_frame_witness :
  JSObject.keys (Entry.categoryProgress
                   (slide "Painting" (Some (40 # 1)) entry_2024_03_05))
  = JSObject.keys (Entry.categoryProgress entry_2024_03_05)
  /\ JSObject.get_own (Entry.categoryProgress
                         (slide "Painting" (Some (40 # 1)) entry_2024_03_05))
                      "Painting" = Some 40.
Proof.
  pose proof (slide_frame "Painting" (Some (40 # 1)) entry_2024_03_05
                eq_refl eq_refl) as (H1 & H2 & _).
  split; [exact H1 | exact H2].
Defined.

(** X9.  Whatever the name, adding a category never touches what is
    there: every key that was present keeps its value, and the object
    without the name is the same before and after, keys, values and order.
    (This holds also for the names the handler refuses to add.) *)
Theorem onAdd_frame (name : string) (s : Entry.t) :
  JSObject.ordered (Entry.categoryProgress s) = true ->
  let cp := Entry.categoryProgress s in
  let cp' := Entry.categoryProgress (onAdd name s) in
  JSObject.delete cp' name = JSObject.delete cp name
  /\ (forall k, JSObject.has_own cp k = true ->
                JSObject.get_own cp' k = JSObject.get_own cp k)
  /\ (length cp <= length cp' <= S (length cp))%nat.
Proof.
  intros Hord. cbv zeta. unfold onAdd. destruct name as [|c name].
  { repeat split; auto. }
  cbn [Entry.with_categoryProgress Entry.categoryProgress].
  destruct (JSObject.is_defined _) eqn:Hdef.
  { repeat split; auto. }
  rewrite JSObjectFacts.spread_ordered by exact Hord.
  assert (Hown : JSObject.has_own (Entry.categoryProgress s) (String c name) = false).
  { destruct (JSObject.has_own (Entry.categoryProgress s) (String c name)) eqn:E;
      [|reflexivity].
    destruct (JSObjectFacts.get_own_some _ _ E) as [v Hv].
    unfold JSObject.get in Hdef. rewrite Hv in Hdef. discriminate. }
  split; [|split].
  - rewrite JSObjectFacts.delete_set_new by exact Hown.
    symmetry. apply JSObjectFacts.delete_absent. exact Hown.
  - intros k Hk. apply JSObjectFacts.get_own_set_other.
    intros ->. congruence.
  - unfold JSObject.set. rewrite Hown.
    destruct (JSObject.array_index (String c name)) as [i|].
    + assert (Hlen : forall (o : CategoryProgress),
                 length (JSObject.insert_index i (String c name) 0 o) = S (length o)).
      { induction o as [|[k' v'] r IH]; [reflexivity|].
        cbn [JSObject.insert_index].
        destruct (JSObject.array_index k') as [j|]; [destruct (j <? i)|];
          cbn [length]; rewrite ?IH; reflexivity. }
      rewrite Hlen. lia.
    + rewrite length_app. cbn [length]. lia.
Qed.

Lemma onAdd_frame_witness :
  JSObject.delete (Entry.categoryProgress (onAdd "2024" entry_2024_03_05)) "2024"
  = Entry.categoryProgress entry_2024_03_05
  /\ JSObject.keys (Entry.categoryProgress (onAdd "2024" entry_2024_03_05))
     = "2024" :: DEFAULT_CATEGORIES.
Proof.
  pose proof (onAdd_frame "2024" entry_2024_03_05 eq_refl) as (H1 & _).
  split; [rewrite H1; reflexivity | reflexivity].
Defined.

(** X10.  Removing a category takes that key away and nothing else: the
    other keys keep their values and their order; removing a name that is
    not a key changes nothing; and a category that was added (a new name
    that [Object.prototype] does not define) and then removed leaves
    [categoryProgress] as it was. *)
Theorem onRemove_spec (cat : string) (s : Entry.t) :
  JSObject.ordered (Entry.categoryProgress s) = true ->
  let cp := Entry.categoryProgress s in
  let cp' := Entry.categoryProgress (onRemove cat s) in
  JSObject.has_own cp' cat = false
  /\ (forall k, k <> cat -> JSObject.get_own cp' k = JSObject.get_own cp k)
  /\ (JSObject.has_own cp cat = false -> cp' = cp)
  /\ (cat <> "" -> JSObject.has_own cp cat = false ->
      existsb (String.eqb cat) JSObject.prototype_keys = false ->
      Entry.categoryProgress (onRemove cat (onAdd cat s)) = cp).
Proof.
  intros Hord. cbv zeta. unfold onRemove.
  cbn [Entry.with_categoryProgress Entry.categoryProgress].
  rewrite JSObjectFacts.spread_ordered by exact Hord.
  split; [|split; [|split]].
  - rewrite has_own_delete, String.eqb_refl. reflexivity.
  - intros k Hk. apply get_own_delete_other. exact Hk.
  - apply JSObjectFacts.delete_absent.
  - intros Hne Hown Hproto.
    destruct (onAdd_new cat s Hne Hord Hown Hproto) as (E & _ & Hdel & _).
    pose proof (handlers_keep_order s Hord) as (Ho & _).
    rewrite JSObjectFacts.spread_ordered by apply Ho. exact Hdel.
Qed.

Lemma onRemove_spec_witness :
  Entry.categoryProgress (onRemove "Scaffolding" (onAdd "Scaffolding" entry_2024_03_05))
  = Entry.categoryProgress entry_2024_03_05.
Proof.
  pose proof (onRemove_spec "Scaffolding" entry_2024_03_05 eq_refl)
    as (_ & _ & _ & H).
  apply H; [discriminate | reflexivity | reflexivity].
Defined.


(** ** The badge of a saved entry *)

Lemma sort_insert_perm {A} (cmp : A -> A -> Z) (x : A) (l : list A) :
  Permutation (sort_insert cmp x l) (x :: l).
Proof.
  induction l as [|y r IH]; [apply Permutation_refl|].
  cbn [sort_insert]. destruct (cmp x y <=? 0); [apply Permutation_refl|].
  apply perm_trans with (y :: x :: r); [apply perm_skip, IH | apply perm_swap].
Qed.

Lemma sort_perm {A} (cmp : A -> A -> Z) (l : list A) :
  Permutation (sort cmp l) l.
Proof.
  induction l as [|x r IH]; [apply perm_nil|].
  cbn [sort]. apply perm_trans with (x :: sort cmp r);
    [apply sort_insert_perm | apply perm_skip, IH].
Qed.

Lemma sort_insert_sorted (x : string * Z) (l : list (string * Z)) :
  StronglySorted not_below l ->
  StronglySorted not_below (sort_insert by_value_desc x l).
Proof.
  induction 1 as [|y r Hs IH Hy]; [repeat constructor|].
  cbn [sort_insert]. unfold by_value_desc at 1.
  destruct (snd y - snd x <=? 0) eqn:E.
  - apply Z.leb_le in E. constructor; [constructor; assumption|].
    constructor; [unfold not_below; lia|].
    eapply Forall_impl; [|exact Hy]. unfold not_below. intros z Hz. lia.
  - apply Z.leb_gt in E. constructor; [exact IH|].
    apply (Permutation_Forall (Permutation_sym (sort_insert_perm by_value_desc x r))).
    constructor; [unfold not_below; lia | exact Hy].
Qed.

Lemma sort_sorted (l : list (string * Z)) :
  StronglySorted not_below (sort by_value_desc l).
Proof.
  induction l as [|x r IH]; [constructor|].
  cbn [sort]. apply sort_insert_sorted, IH.
Qed.

Lemma sort_insert_stable (v : Z) (x : string * Z) (l : list (string * Z)) :
  filter (fun kv => snd kv =? v) (sort_insert by_value_desc x l)
  = filter (fun kv => snd kv =? v) (x :: l).
Proof.
  induction l as [|y r IH]; [reflexivity|].
  cbn [sort_insert]. unfold by_value_desc at 1.
  destruct (snd y - snd x <=? 0) eqn:E; [reflexivity|].
  apply Z.leb_gt in E. cbn [filter] in *. rewrite IH.
  destruct (snd x =? v) eqn:Ex; [|reflexivity].
  apply Z.eqb_eq in Ex.
  assert (Ey : (snd y =? v) = false) by (apply Z.eqb_neq; lia).
  rewrite Ey. reflexivity.
Qed.

Lemma sort_stable (v : Z) (l : list (string * Z)) :
  filter (fun kv => snd kv =? v) (sort by_value_desc l)
  = filter (fun kv => snd kv =? v) l.
Proof.
  induction l as [|x r IH]; [reflexivity|].
  cbn [sort]. rewrite sort_insert_stable. cbn [filter]. rewrite IH. reflexivity.
Qed.

Lemma StronglySorted_app {A} (R : A -> A -> Prop) (l1 l2 : list A) :
  StronglySorted R (l1 ++ l2) ->
  StronglySorted R l1 /\ (forall a b, In a l1 -> In b l2 -> R a b).
Proof.
  induction l1 as [|x r IH]; cbn [app]; intros H.
  - split; [constructor | intros a b []].
  - apply StronglySorted_inv in H as [Hs Hx]. destruct (IH Hs) as [H1 H2].
    apply Forall_app in Hx as [Hx1 Hx2]. split; [constructor; assumption|].
    intros a b [<- | Ha] Hb; [|apply H2; assumption].
    rewrite Forall_forall in Hx2. apply Hx2, Hb.
Qed.

(** X11.  The badge lists the categories with the largest percentages:
    the (at most three) listed entries together with the others are the
    entries of the object, no listed entry has a smaller percentage than an
    entry left out, the listed ones are in descending order, and entries
    with the same percentage keep the order they have in the object. *)
Theorem summarizeProgress_top (cp : CategoryProgress) :
  let sorted := sort by_value_desc (JSObject.entries cp) in
  let top := top_progress cp in
  let rest := skipn 3 sorted in
  Permutation (top ++ rest) cp
  /\ length top = Nat.min 3 (length cp)
  /\ (forall a b, In a top -> In b rest -> snd b <= snd a)
  /\ StronglySorted (fun a b => snd b <= snd a) top
  /\ (forall v, filter (fun kv => snd kv =? v) sorted
                = filter (fun kv => snd kv =? v) cp).
Proof.
  cbv zeta. unfold top_progress, JSObject.entries.
  pose proof (sort_sorted cp) as Hs.
  rewrite <- (firstn_skipn 3 (sort by_value_desc cp)) in Hs.
  apply StronglySorted_app in Hs as [H1 H2].
  split; [rewrite firstn_skipn; apply sort_perm|].
  split; [rewrite length_firstn, (Permutation_length (sort_perm by_value_desc cp));
          reflexivity|].
  split; [exact H2|]. split; [exact H1|].
  intros v. apply sort_stable.
Qed.

Lemma in_join (sep : string) (c : ascii) (x : string) (r : list string) :
  In c (list_ascii_of_string x) ->
  In c (list_ascii_of_string (JSString.join sep (x :: r))).
Proof.
  intros H. cbn [JSString.join]. destruct r; [exact H|].
  rewrite list_ascii_app. apply in_or_app. left. exact H.
Qed.

Lemma summary_part_percent (kv : string * Z) :
  In "%"%char (list_ascii_of_string (summary_part kv)).
Proof.
  unfold summary_part. rewrite !list_ascii_app.
  apply in_or_app. right. apply in_or_app. right. apply in_or_app. right.
  left. reflexivity.
Qed.

(** X12.  The badge reads No progress exactly when the entry has no
    category at all; otherwise it is the joined parts themselves, each of
    which ends in a percent sign.  The badge is never empty. *)
Theorem summarizeProgress_no_progress (cp : CategoryProgress) :
  (summarizeProgress cp = "No progress" <-> cp = [])
  /\ (cp <> [] ->
      summarizeProgress cp
      = JSString.join ", " (map summary_part (top_progress cp)))
  /\ summarizeProgress cp <> "".
Proof.
  assert (Hne : cp <> [] ->
                In "%"%char (list_ascii_of_string
                   (JSString.join ", " (map summary_part (top_progress cp))))).
  { intros Hcp. unfold top_progress, JSObject.entries.
    pose proof (Permutation_length (sort_perm by_value_desc cp)) as Hl.
    destruct (sort by_value_desc cp) as [|x r].
    - destruct cp; [congruence | discriminate].
    - cbn [firstn map]. apply in_join, summary_part_percent. }
  assert (Hsame : cp <> [] ->
                  summarizeProgress cp
                  = JSString.join ", " (map summary_part (top_progress cp))).
  { intros Hcp. specialize (Hne Hcp). unfold summarizeProgress.
    destruct (JSString.join ", " (map summary_part (top_progress cp)));
      [destruct Hne | reflexivity]. }
  split; [|split; [exact Hsame|]].
  - split.
    + intros H. destruct cp as [|kv r]; [reflexivity|]. exfalso.
      assert (Hcp : kv :: r <> []) by discriminate.
      specialize (Hne Hcp). rewrite <- (Hsame Hcp), H in Hne.
      cbn in Hne. intuition discriminate.
    + intros ->. reflexivity.
  - destruct cp as [|kv r]; [discriminate|].
    assert (Hcp : kv :: r <> []) by discriminate.
    specialize (Hne Hcp). rewrite (Hsame Hcp). intros E. rewrite E in Hne.
    destruct Hne.
Qed.

Lemma summarizeProgress_no_progress_witness :
  summarizeProgress
    (Entry.categoryProgress
       (slide "Painting" (Some (40 # 1))
          (slide "Demolition" (Some (100 # 1)) entry_2024_03_05)))
  = JSString.join ", "
      (map summary_part
         (top_progress
            (Entry.categoryProgress
               (slide "Painting" (Some (40 # 1))
                  (slide "Demolition" (Some (100 # 1)) entry_2024_03_05))))).
Proof.
  apply (proj1 (proj2 (summarizeProgress_no_progress _))).
  intros H. vm_compute in H. discriminate H.
Defined.

(** X13.  The name shown in the badge is the category name cut at its
    first space: it holds no space, and the name is that word alone or
    that word, a space and a rest. *)
Theorem first_word_spec (k : string) :
  ~ In " "%char (list_ascii_of_string (first_word k))
  /\ (k = first_word k
      \/ exists rest, k = (first_word k ++ " " ++ rest)%string).
Proof.
  induction k as [|c r [IH1 IH2]]; [split; [intros [] | left; reflexivity]|].
  cbn [first_word]. destruct (Ascii.eqb c " ") eqn:E.
  - apply Ascii.eqb_eq in E. subst c. split; [intros []|].
    right. exists r. reflexivity.
  - apply Ascii.eqb_neq in E. split.
    + cbn [list_ascii_of_string In]. intros [H | H]; [congruence | auto].
    + destruct IH2 as [H | [rest H]].
      * left. f_equal. exact H.
      * right. exists rest. cbn [String.append]. f_equal. exact H.
Qed.


(** ** The PDF export from the canvas to the saved file *)






(** ** Reading back what is written to localStorage *)

Module JSONCompactFacts.
Import JSON.











End JSONCompactFacts.



(** ** Trimming *)

(** Induction along the run of [trimStart s]. *)
Ltac trimStart_cases s :=
  pattern s, (trimStart s); apply trimStart_ind;
  [ intros ? ?
  | intros ? a r ? H1 IH
  | intros ? a r ? H1 ?
  | intros ? a r ? H1 b r2 ? H2 IH
  | intros ? a r ? H1 b r2 ? H2 ?
  | intros ? a r ? H1 b r2 ? H2 c r3 ? H3 IH
  | intros ? a r ? H1 b r2 ? H2 c r3 ? H3 ]; subst.

Lemma white_space_2_lead a b :
  white_space_2 a b = true -> white_space_1 a = false.
Proof.
  destruct a as [[] [] [] [] [] [] [] []]; try reflexivity;
    vm_compute; intros H; discriminate H.
Qed.

Lemma white_space_3_lead a b c :
  white_space_3 a b c = true ->
  white_space_1 a = false /\ white_space_2 a b = false.
Proof.
  destruct a as [[] [] [] [] [] [] [] []];
    try (intros _; split; reflexivity); vm_compute; intros H; discriminate H.
Qed.

Lemma trimStart_length (s : string) :
  (String.length (trimStart s) <= String.length s)%nat.
Proof.
  trimStart_cases s; cbn [String.length] in *; lia.
Qed.

Lemma trimStart_white_prefix (s : string) :
  exists pre, white pre /\ s = (pre ++ trimStart s)%string.
Proof.
  trimStart_cases s;
    try (exists ""; split; [constructor | reflexivity]).
  - destruct IH as (pre & Hw & E). exists (String a pre).
    split; [apply white_1; assumption|]. cbn [String.append]. f_equal. exact E.
  - destruct IH as (pre & Hw & E). exists (String a (String b pre)).
    split; [apply white_2; assumption|]. cbn [String.append]. do 2 f_equal. exact E.
  - destruct IH as (pre & Hw & E). exists (String a (String b (String c pre))).
    split; [apply white_3; assumption|]. cbn [String.append]. do 3 f_equal. exact E.
Qed.

Lemma trimStart_white_app (w s : string) :
  white w -> trimStart (w ++ s)%string = trimStart s.
Proof.
  induction 1 as [| a r Ha _ IH | a b r Hab _ IH | a b c r Habc _ IH].
  - reflexivity.
  - cbn [String.append trimStart]. rewrite Ha. exact IH.
  - cbn [String.append trimStart].
    rewrite (white_space_2_lead a b Hab), Hab. exact IH.
  - cbn [String.append trimStart].
    destruct (white_space_3_lead a b c Habc) as [H1 H2].
    rewrite H1, H2, Habc. exact IH.
Qed.

Lemma trimStart_empty_iff (s : string) : trimStart s = "" <-> white s.
Proof.
  split.
  - intros H. destruct (trimStart_white_prefix s) as (pre & Hw & E).
    rewrite H, string_app_nil_r in E. subst s. exact Hw.
  - intros H. rewrite <- (string_app_nil_r s). rewrite trimStart_white_app by exact H.
    reflexivity.
Qed.

Lemma white_app (w1 w2 : string) : white w1 -> white w2 -> white (w1 ++ w2)%string.
Proof.
  induction 1; intros H2; cbn [String.append];
    [exact H2 | apply white_1 | apply white_2 | apply white_3]; auto.
Qed.

Lemma trimStart_fixed_iff (s : string) : trimStart s = s <-> starts_white s = false.
Proof.
  destruct s as [|a r]; [split; reflexivity|].
  cbn [trimStart starts_white].
  destruct (white_space_1 a) eqn:H1; cbn [orb].
  { split; [|discriminate]. intros E.
    pose proof (trimStart_length r) as Hl. rewrite E in Hl.
    cbn [String.length] in Hl. lia. }
  destruct r as [|b r2]; [split; reflexivity|].
  destruct (white_space_2 a b) eqn:H2; cbn [orb].
  { split; [|discriminate]. intros E.
    pose proof (trimStart_length r2) as Hl. rewrite E in Hl.
    cbn [String.length] in Hl. lia. }
  destruct r2 as [|c r3]; [split; reflexivity|].
  destruct (white_space_3 a b c) eqn:H3.
  { split; [|discriminate]. intros E.
    pose proof (trimStart_length r3) as Hl. rewrite E in Hl.
    cbn [String.length] in Hl. lia. }
  split; reflexivity.
Qed.

Lemma trimStart_idempotent (s : string) : trimStart (trimStart s) = trimStart s.
Proof.
  trimStart_cases s; try assumption; try reflexivity.
  - cbn [trimStart]. rewrite H1. reflexivity.
  - cbn [trimStart]. rewrite H1, H2. reflexivity.
  - cbn [trimStart]. rewrite H1, H2, H3. reflexivity.
Qed.

Lemma white_starts (w x : string) :
  white w -> w <> "" -> starts_white (w ++ x)%string = true.
Proof.
  intros Hw Hne. destruct Hw as [| a r Ha _ | a b r Hab _ | a b c r Habc _];
    [congruence | | |]; cbn [String.append starts_white].
  - rewrite Ha. reflexivity.
  - rewrite Hab. apply orb_true_r.
  - rewrite Habc. rewrite !orb_true_r. reflexivity.
Qed.

Lemma trimEnd_cons (a : ascii) (r : string) :
  trimEnd (String a r)
  = match trimStart (String a r) with
    | EmptyString => EmptyString
    | _ => String a (trimEnd r)
    end.
Proof. reflexivity. Qed.

Lemma trimEnd_white_suffix (s : string) :
  exists post, white post /\ s = (trimEnd s ++ post)%string.
Proof.
  induction s as [|a r (post & Hw & E)]; [exists ""; split; [constructor | reflexivity]|].
  rewrite trimEnd_cons. destruct (trimStart (String a r)) eqn:Et.
  - exists (String a r). split; [apply trimStart_empty_iff; exact Et | reflexivity].
  - exists post. split; [exact Hw|]. cbn [String.append]. f_equal. exact E.
Qed.

Lemma trimEnd_kept (a : ascii) (r : string) :
  ~ white (String a r) -> trimEnd (String a r) = String a (trimEnd r).
Proof.
  intros H. rewrite trimEnd_cons. destruct (trimStart (String a r)) eqn:Et;
    [|reflexivity].
  exfalso. apply H, trimStart_empty_iff, Et.
Qed.

Lemma trimEnd_white (s : string) : white s -> trimEnd s = "".
Proof.
  intros H. destruct s as [|a r]; [reflexivity|].
  rewrite trimEnd_cons. apply trimStart_empty_iff in H. rewrite H. reflexivity.
Qed.

(** No white space is left at the end. *)
Lemma trimEnd_no_white_suffix (s x w : string) :
  white w -> trimEnd s = (x ++ w)%string -> w = "".
Proof.
  intros Hw. revert x. induction s as [|a r IH]; intros x E.
  - destruct x; [cbn in E; congruence | discriminate].
  - destruct (trimStart (String a r)) eqn:Et.
    + rewrite trimEnd_cons, Et in E. destruct x; [cbn in E; congruence | discriminate].
    + rewrite trimEnd_cons, Et in E.
      destruct x as [|a' x'].
      * cbn [String.append] in E. exfalso.
        destruct (trimEnd_white_suffix r) as (post & Hp & Er).
        assert (Hs : white (String a r)).
        { rewrite Er. change (String a (trimEnd r ++ post)%string)
            with (String a (trimEnd r) ++ post)%string.
          rewrite E. apply white_app; assumption. }
        apply trimStart_empty_iff in Hs. congruence.
      * cbn [String.append] in E. injection E as _ E. exact (IH _ E).
Qed.

Lemma trimEnd_idempotent (s : string) : trimEnd (trimEnd s) = trimEnd s.
Proof.
  induction s as [|a r IH]; [reflexivity|].
  destruct (trimStart (String a r)) eqn:Et; rewrite trimEnd_cons, Et; [reflexivity|].
  rewrite trimEnd_kept; [rewrite IH; reflexivity|].
  intros Hw.
  assert (E : String a (trimEnd r) = ("" ++ String a (trimEnd r))%string) by reflexivity.
  rewrite <- (trimEnd_kept a r) in E, Hw.
  - pose proof (trimEnd_no_white_suffix _ _ _ Hw E). rewrite trimEnd_cons, Et in H.
    discriminate.
  - intros H. apply trimStart_empty_iff in H. congruence.
  - intros H. apply trimStart_empty_iff in H. congruence.
Qed.

(** Cutting the end makes no white space at the start. *)
Lemma trimEnd_starts (s : string) :
  starts_white s = false -> starts_white (trimEnd s) = false.
Proof.
  intros H. destruct s as [|a r]; [reflexivity|].
  rewrite trimEnd_cons. destruct (trimStart (String a r)); [reflexivity|].
  cbn [starts_white] in *. apply orb_false_iff in H as [H1 H].
  rewrite H1. cbn [orb].
  destruct r as [|b r2]; [reflexivity|].
  rewrite trimEnd_cons. destruct (trimStart (String b r2)); [reflexivity|].
  apply orb_false_iff in H as [H2 H]. rewrite H2. cbn [orb].
  destruct r2 as [|c r3]; [reflexivity|].
  rewrite trimEnd_cons. destruct (trimStart (String c r3)); [reflexivity|].
  exact H.
Qed.

Lemma trim_starts (s : string) : starts_white (trim s) = false.
Proof.
  unfold trim. apply trimEnd_starts, trimStart_fixed_iff, trimStart_idempotent.
Qed.

Lemma trim_empty_iff (s : string) : trim s = "" <-> white s.
Proof.
  unfold trim. split.
  - intros H. destruct (trimStart_white_prefix s) as (pre & Hpre & E).
    destruct (trimEnd_white_suffix (trimStart s)) as (post & Hpost & E').
    rewrite H in E'. cbn [String.append] in E'. rewrite E, E'.
    apply white_app; assumption.
  - intros H. apply trimStart_empty_iff in H. rewrite H. reflexivity.
Qed.

(** X16.  [trim] cuts white space, and only white space, from both ends:
    the string is the trimmed string between two runs of white space; the
    trimmed string neither begins nor ends with white space; trimming it
    again changes nothing; and it is empty exactly when the string is white
    space only. *)
Theorem trim_spec (s : string) :
  (exists pre post,
      white pre /\ white post /\ s = (pre ++ trim s ++ post)%string)
  /\ (forall w x, white w -> trim s = (w ++ x)%string -> w = "")
  /\ (forall x w, white w -> trim s = (x ++ w)%string -> w = "")
  /\ trim (trim s) = trim s
  /\ (trim s = "" <-> white s).
Proof.
  split; [|split; [|split; [|split]]].
  - destruct (trimStart_white_prefix s) as (pre & Hpre & E).
    destruct (trimEnd_white_suffix (trimStart s)) as (post & Hpost & E').
    exists pre, post. split; [exact Hpre|]. split; [exact Hpost|].
    unfold trim. rewrite <- E'. exact E.
  - intros w x Hw E. destruct w as [|a w']; [reflexivity|]. exfalso.
    pose proof (trim_starts s) as H. rewrite E in H.
    rewrite white_starts in H; [discriminate | exact Hw | discriminate].
  - intros x w Hw E. exact (trimEnd_no_white_suffix _ _ _ Hw E).
  - unfold trim at 1.
    assert (H : trimStart (trim s) = trim s)
      by (apply trimStart_fixed_iff, trim_starts).
    rewrite H. unfold trim. apply trimEnd_idempotent.
  - apply trim_empty_iff.
Qed.

(** X17.  The Add button of the category box: a text of white space only
    (or no text) changes neither the form nor the box; any other text
    empties the box and hands the trimmed text, which is not empty and has
    no white space at either end, to the handler.  So every key of the
    result was a key before or is the trimmed text. *)
Theorem AddCategory_click_spec (val : string) (s : Entry.t) :
  (white val -> AddCategory_click val s = (s, val))
  /\ (~ white val ->
      AddCategory_click val s = (onAdd (trim val) s, "")
      /\ trim val <> ""
      /\ starts_white (trim val) = false
      /\ trimEnd (trim val) = trim val)
  /\ (JSObject.ordered (Entry.categoryProgress s) = true ->
      forall k,
        JSObject.has_own (Entry.categoryProgress (fst (AddCategory_click val s))) k
        = true ->
        JSObject.has_own (Entry.categoryProgress s) k = true \/ k = trim val).
Proof.
  split; [|split].
  - intros H. apply trim_empty_iff in H. unfold AddCategory_click. rewrite H.
    reflexivity.
  - intros H.
    assert (Hne : trim val <> "") by (intros E; apply H, trim_empty_iff, E).
    split; [|split; [exact Hne|split]].
    + unfold AddCategory_click. destruct (trim val); [congruence | reflexivity].
    + apply trim_starts.
    + unfold trim. apply trimEnd_idempotent.
  - intros Hord k. unfold AddCategory_click.
    destruct (trim val) as [|c name] eqn:E; [cbn [fst]; auto|].
    cbn [fst]. unfold onAdd.
    cbn [Entry.with_categoryProgress Entry.categoryProgress].
    destruct (JSObject.is_defined _); [auto|].
    cbn [Entry.categoryProgress].
    rewrite JSObjectFacts.spread_ordered by exact Hord.
    rewrite has_own_set. intros H. apply orb_true_iff in H as [H | H]; [|auto].
    right. apply String.eqb_eq in H. congruence.
Qed.

Lemma AddCategory_click_spec_witness :
  AddCategory_click "  " entry_2024_03_05 = (entry_2024_03_05, "  ")
  /\ AddCategory_click " Scaffolding " entry_2024_03_05
     = (onAdd "Scaffolding" entry_2024_03_05, "").
Proof.
  split.
  - apply (proj1 (AddCategory_click_spec "  " entry_2024_03_05)).
    repeat (apply white_1; [reflexivity|]). constructor.
  - refine (proj1 (proj1 (proj2 (AddCategory_click_spec " Scaffolding "
                                    entry_2024_03_05)) _)).
    intros H. apply trim_empty_iff in H. vm_compute in H. discriminate H.
Defined.


(** ** Saving and deleting entries *)








(** ** The calendar *)

(** Linear arithmetic with the divisions by constants of the calendar. *)
Ltac dlia := Z.to_euclidean_division_equations; lia.

Lemma yoe_of_doe (yoe doy : Z) :
  0 <= yoe <= 399 -> 0 <= doy < year_length yoe ->
  let doe := yoe * 365 + yoe / 4 - yoe / 100 + doy in
  0 <= doe <= 146096
  /\ (doe - doe / 1460 + doe / 36524 - doe / 146096) / 365 = yoe.
Proof.
  intros Hy Hd. cbv zeta. unfold year_length in Hd.
  destruct ((yoe + 1) mod 4 =? 0) eqn:E4; cbn [andb] in Hd.
  - destruct ((yoe + 1) mod 100 =? 0) eqn:E100; cbn [negb orb] in Hd.
    + destruct ((yoe + 1) mod 400 =? 0) eqn:E400.
      * apply Z.eqb_eq in E400. assert (yoe = 399) by dlia. subst. dlia.
      * dlia.
    + dlia.
  - dlia.
Qed.

Lemma doe_split (doe : Z) :
  0 <= doe <= 146096 ->
  let yoe := (doe - doe / 1460 + doe / 36524 - doe / 146096) / 365 in
  let doy := doe - (365 * yoe + yoe / 4 - yoe / 100) in
  0 <= yoe <= 399 /\ 0 <= doy < year_length yoe.
Proof.
  intros H. cbv zeta. unfold year_length.
  destruct (_ mod 4 =? 0) eqn:E4; cbn [andb];
    [destruct (_ mod 100 =? 0) eqn:E100; cbn [negb orb];
     [destruct (_ mod 400 =? 0) eqn:E400|]|]; dlia.
Qed.

Lemma month_of_doy (doy : Z) :
  0 <= doy <= 365 ->
  let mp := (5 * doy + 2) / 153 in
  let d := doy - (153 * mp + 2) / 5 + 1 in
  0 <= mp <= 11 /\ 1 <= d <= 31
  /\ (mp = 11 -> d <= doy - 336)
  /\ (mp = 1 \/ mp = 3 \/ mp = 6 \/ mp = 8 -> d <= 30).
Proof. intros H. cbv zeta. dlia. Qed.

Lemma doy_of_month (mp d : Z) :
  0 <= mp <= 11 -> 1 <= d <= 31 ->
  (mp = 1 \/ mp = 3 \/ mp = 6 \/ mp = 8 -> d <= 30) ->
  (mp = 11 -> d <= 29) ->
  let doy := (153 * mp + 2) / 5 + d - 1 in
  (5 * doy + 2) / 153 = mp /\ doy - (153 * mp + 2) / 5 + 1 = d
  /\ 0 <= doy <= 365 /\ (mp = 11 -> doy = 336 + d).
Proof. intros H1 H2 H3 H4. cbv zeta. dlia. Qed.

Lemma year_length_cases (yoe : Z) : year_length yoe = 365 \/ year_length yoe = 366.
Proof. unfold year_length. destruct (_ && _); lia. Qed.

Lemma leap_shifted (y : Z) :
  JSDate.isLeap (y + 1) = true <-> year_length (y - y / 400 * 400) = 366.
Proof.
  unfold JSDate.isLeap, year_length.
  destruct ((y + 1) mod 4 =? 0) eqn:A4, ((y + 1) mod 100 =? 0) eqn:A100,
           ((y + 1) mod 400 =? 0) eqn:A400,
           ((y - y / 400 * 400 + 1) mod 4 =? 0) eqn:B4,
           ((y - y / 400 * 400 + 1) mod 100 =? 0) eqn:B100,
           ((y - y / 400 * 400 + 1) mod 400 =? 0) eqn:B400;
    cbn [andb negb orb]; split; intros H; try reflexivity; try discriminate;
    exfalso; dlia.
Qed.

(** The calendar date of the day number of a calendar date. *)
Lemma civil_days (y m d : Z) :
  1 <= m <= 12 -> 1 <= d <= JSDate.DaysInMonth y m ->
  JSDate.civil_from_days (JSDate.days_from_civil y m d) = (y, m, d).
Proof.
  intros Hm Hd. unfold JSDate.days_from_civil.
  set (y' := if m <=? 2 then y - 1 else y).
  set (mp := if 2 <? m then m - 3 else m + 9).
  set (era := y' / 400). set (yoe := y' - era * 400).
  set (doy := (153 * mp + 2) / 5 + d - 1).
  assert (Hmp : 0 <= mp <= 11 /\ (m = if mp <? 10 then mp + 3 else mp - 9)
                /\ (y = if m <=? 2 then y' + 1 else y')).
  { subst mp y'.
    assert (Hc : m = 1 \/ m = 2 \/ m = 3 \/ m = 4 \/ m = 5 \/ m = 6 \/ m = 7
                 \/ m = 8 \/ m = 9 \/ m = 10 \/ m = 11 \/ m = 12) by lia.
    repeat (destruct Hc as [-> | Hc]; [cbn; lia|]). subst m. cbn. lia. }
  destruct Hmp as (Hmp & Em & Ey).
  assert (Hyoe : 0 <= yoe <= 399) by (subst yoe era; dlia).
  assert (Hdim : 1 <= d <= 31 /\ (mp = 1 \/ mp = 3 \/ mp = 6 \/ mp = 8 -> d <= 30)
                 /\ (mp = 11 -> d <= 29 /\ (d = 29 -> JSDate.isLeap y = true))).
  { unfold JSDate.DaysInMonth in Hd. subst mp. clear Em Ey.
    assert (Hc : m = 1 \/ m = 2 \/ m = 3 \/ m = 4 \/ m = 5 \/ m = 6 \/ m = 7
                 \/ m = 8 \/ m = 9 \/ m = 10 \/ m = 11 \/ m = 12) by lia.
    repeat (destruct Hc as [-> | Hc];
            [cbn in Hd |- *; try (destruct (JSDate.isLeap y)); lia|]).
    subst m. cbn in Hd |- *. lia. }
  destruct Hdim as (Hd1 & Hd30 & Hfeb).
  destruct (doy_of_month mp d Hmp Hd1 Hd30 ltac:(intros; apply Hfeb; assumption))
    as (Emp & Ed & Hdoy & Hdoy11).
  fold doy in Emp, Ed, Hdoy, Hdoy11.
  assert (Hlen : 0 <= doy < year_length yoe).
  { split; [lia|].
    pose proof (year_length_cases yoe) as Hcases.
    destruct (Z.eq_dec doy 365) as [E365|]; [|lia].
    assert (H11 : mp = 11) by dlia.
    destruct (Hfeb H11) as [_ Hleap]. specialize (Hleap ltac:(lia)).
    assert (Hm2 : m = 2) by (pose proof Em as Em2; rewrite H11 in Em2; exact Em2).
    assert (Hy : y = y' + 1) by (pose proof Ey as Ey2; rewrite Hm2 in Ey2; exact Ey2).
    rewrite Hy in Hleap. apply leap_shifted in Hleap.
    fold era in Hleap. fold yoe in Hleap. lia. }
  destruct (yoe_of_doe yoe doy Hyoe Hlen) as (Hdoe & Eyoe).
  set (doe := yoe * 365 + yoe / 4 - yoe / 100 + doy) in *.
  unfold JSDate.civil_from_days.
  replace (era * 146097 + doe - 719468 + 719468) with (doe + era * 146097) by lia.
  rewrite Z.div_add by lia. rewrite (Z.div_small doe) by lia. cbn [Z.add].
  replace (doe + era * 146097 - era * 146097) with doe by lia.
  rewrite Eyoe.
  replace (doe - (365 * yoe + yoe / 4 - yoe / 100)) with doy by (subst doe; lia).
  rewrite Emp, Ed, <- Em.
  replace (yoe + era * 400) with y' by (subst yoe; lia).
  rewrite <- Ey. reflexivity.
Qed.

(** The day number of the calendar date of a day number, and the ranges
    of the month and of the day of the month. *)
Lemma days_civil (z : Z) :
  let '(y, m, d) := JSDate.civil_from_days z in
  JSDate.days_from_civil y m d = z
  /\ 1 <= m <= 12 /\ 1 <= d <= JSDate.DaysInMonth y m.
Proof.
  unfold JSDate.civil_from_days.
  set (era := (z + 719468) / 146097).
  set (doe := z + 719468 - era * 146097).
  assert (Hdoe : 0 <= doe <= 146096) by (subst doe era; dlia).
  destruct (doe_split doe Hdoe) as (Hyoe & Hdoy).
  set (yoe := (doe - doe / 1460 + doe / 36524 - doe / 146096) / 365) in *.
  set (doy := doe - (365 * yoe + yoe / 4 - yoe / 100)) in *.
  pose proof (year_length_cases yoe) as Hlen.
  destruct (month_of_doy doy ltac:(lia)) as (Hmp & Hd & Hd11 & Hd30).
  set (mp := (5 * doy + 2) / 153) in *.
  set (d := doy - (153 * mp + 2) / 5 + 1) in *.
  set (m := if mp <? 10 then mp + 3 else mp - 9).
  set (y := if m <=? 2 then yoe + era * 400 + 1 else yoe + era * 400).
  assert (Hm : 1 <= m <= 12 /\ mp = (if 2 <? m then m - 3 else m + 9)
               /\ (if m <=? 2 then y - 1 else y) = yoe + era * 400).
  { subst m y.
    assert (Hc : mp = 0 \/ mp = 1 \/ mp = 2 \/ mp = 3 \/ mp = 4 \/ mp = 5 \/ mp = 6
                 \/ mp = 7 \/ mp = 8 \/ mp = 9 \/ mp = 10 \/ mp = 11) by lia.
    clearbody mp. clear - Hc.
    repeat (destruct Hc as [-> | Hc]; [cbn; lia|]). subst mp. cbn. lia. }
  destruct Hm as (Hm & Emp & Ey).
  split; [|split; [exact Hm|]].
  - unfold JSDate.days_from_civil. rewrite Ey, <- Emp.
    replace ((yoe + era * 400) / 400) with era by dlia.
    replace (yoe + era * 400 - era * 400) with yoe by lia.
    subst d doy doe. lia.
  - split; [lia|]. unfold JSDate.DaysInMonth.
    destruct (Z.eqb_spec m 2) as [E2|N2].
    + assert (H11 : mp = 11) by (subst m; destruct (Z.ltb_spec mp 10); lia).
      assert (d <= 29) by lia.
      destruct (JSDate.isLeap y) eqn:El; [lia|].
      destruct (Z.eq_dec d 29); [|lia]. exfalso.
      assert (doy = 365) by lia.
      assert (Hy : y = yoe + era * 400 + 1) by (subst y; rewrite E2; reflexivity).
      assert (Hl : JSDate.isLeap (yoe + era * 400 + 1) = true).
      { apply leap_shifted.
        replace (yoe + era * 400 - (yoe + era * 400) / 400 * 400) with yoe by dlia.
        lia. }
      congruence.
    + destruct (Z.eqb_spec m 4), (Z.eqb_spec m 6), (Z.eqb_spec m 9), (Z.eqb_spec m 11);
        cbn [orb]; try lia;
        (assert (Hmp30 : mp = 1 \/ mp = 3 \/ mp = 6 \/ mp = 8)
          by (subst m; destruct (Z.ltb_spec mp 10); lia));
        specialize (Hd30 Hmp30); lia.
Qed.


(** ** Dates as text *)

Lemma dlist_1 (f : nat) (n : Z) : 0 <= n < 10 -> JSON.dlist f n = [n].
Proof.
  intros H. assert (E : (n <? 10) = true) by (apply Z.ltb_lt; lia).
  destruct f; cbn [JSON.dlist]; rewrite ?E, Z.mod_small by lia; reflexivity.
Qed.

Lemma dlist_more (f : nat) (n : Z) :
  10 <= n -> JSON.dlist (S f) n = JSON.dlist f (n / 10) ++ [n mod 10].
Proof.
  intros H. assert (E : (n <? 10) = false) by (apply Z.ltb_ge; lia).
  cbn [JSON.dlist]. rewrite E. reflexivity.
Qed.

(** The fuel [Number_toString] gives to [digits]. *)
Lemma log2_fuel_small (n : Z) :
  (10 <= n -> 3 <= Z.log2 n) /\ (100 <= n -> 6 <= Z.log2 n)
  /\ (1000 <= n -> 9 <= Z.log2 n).
Proof.
  split; [|split]; intros H.
  - change 3 with (Z.log2 8). apply Z.log2_le_mono. lia.
  - change 6 with (Z.log2 64). apply Z.log2_le_mono. lia.
  - change 9 with (Z.log2 512). apply Z.log2_le_mono. lia.
Qed.

Lemma dlist_small (n : Z) :
  0 <= n <= 9999 ->
  JSON.dlist (Z.to_nat (Z.log2 n)) n
  = if n <? 10 then [n]
    else if n <? 100 then [n / 10; n mod 10]
    else if n <? 1000 then [n / 100; (n / 10) mod 10; n mod 10]
    else [n / 1000; (n / 100) mod 10; (n / 10) mod 10; n mod 10].
Proof.
  intros H. destruct (log2_fuel_small n) as (H10 & H100 & H1000).
  destruct (Z.ltb_spec n 10) as [L1|L1]; [apply dlist_1; lia|].
  specialize (H10 L1).
  destruct (Z.to_nat (Z.log2 n)) as [|[|[|f]]] eqn:Ef; try lia.
  rewrite dlist_more by lia.
  destruct (Z.ltb_spec n 100) as [L2|L2]; [rewrite dlist_1 by dlia; reflexivity|].
  rewrite dlist_more by dlia.
  destruct (Z.ltb_spec n 1000) as [L3|L3].
  { rewrite dlist_1 by dlia. rewrite Z.div_div by lia. reflexivity. }
  specialize (H1000 L3).
  destruct f as [|f]; [lia|].
  rewrite dlist_more by dlia. rewrite dlist_1 by dlia.
  rewrite !Z.div_div by lia. reflexivity.
Qed.

Lemma Number_toString_small (n : Z) :
  0 <= n <= 9999 ->
  Number_toString n
  = string_of_list_ascii
      (map digitChar
         (if n <? 10 then [n]
          else if n <? 100 then [n / 10; n mod 10]
          else if n <? 1000 then [n / 100; (n / 10) mod 10; n mod 10]
          else [n / 1000; (n / 100) mod 10; (n / 10) mod 10; n mod 10])).
Proof.
  intros H. rewrite <- dlist_small by exact H.
  rewrite <- (string_of_list_ascii_of_string (Number_toString n)).
  rewrite JSONFacts.Number_toString_text.
  assert (E : (n <? 0) = false) by (apply Z.ltb_ge; lia).
  rewrite E. reflexivity.
Qed.

Lemma pad_2 (n : Z) :
  0 <= n <= 99 ->
  pad n 2 = String (digitChar (n / 10)) (String (digitChar (n mod 10)) "").
Proof.
  intros H. unfold pad. rewrite Number_toString_small by lia.
  destruct (Z.ltb_spec n 10) as [L1|L1].
  - rewrite Z.div_small, Z.mod_small by lia. reflexivity.
  - assert (E : (n <? 100) = true) by (apply Z.ltb_lt; lia). rewrite E. reflexivity.
Qed.

Lemma pad_3 (n : Z) :
  0 <= n <= 999 ->
  pad n 3 = String (digitChar (n / 100))
              (String (digitChar ((n / 10) mod 10)) (String (digitChar (n mod 10)) "")).
Proof.
  intros H. unfold pad. rewrite Number_toString_small by lia.
  destruct (Z.ltb_spec n 10) as [L1|L1].
  - rewrite (Z.div_small n 100), (Z.div_small n 10), (Z.mod_small n 10) by lia.
    reflexivity.
  - destruct (Z.ltb_spec n 100) as [L2|L2].
    + rewrite (Z.div_small n 100), (Z.mod_small (n / 10)) by dlia. reflexivity.
    + assert (E : (n <? 1000) = true) by (apply Z.ltb_lt; lia). rewrite E.
      reflexivity.
Qed.

Lemma pad_4 (n : Z) :
  0 <= n <= 9999 ->
  pad n 4 = String (digitChar (n / 1000))
              (String (digitChar ((n / 100) mod 10))
                 (String (digitChar ((n / 10) mod 10))
                    (String (digitChar (n mod 10)) ""))).
Proof.
  intros H. unfold pad. rewrite Number_toString_small by lia.
  destruct (Z.ltb_spec n 10) as [L1|L1].
  - rewrite (Z.div_small n 1000), (Z.div_small n 100), (Z.div_small n 10),
      (Z.mod_small n 10) by lia. reflexivity.
  - destruct (Z.ltb_spec n 100) as [L2|L2].
    + rewrite (Z.div_small n 1000), (Z.div_small n 100), (Z.mod_small (n / 10))
        by dlia. reflexivity.
    + destruct (Z.ltb_spec n 1000) as [L3|L3].
      * rewrite (Z.div_small n 1000), (Z.mod_small (n / 100)) by dlia. reflexivity.
      * reflexivity.
Qed.

Lemma take_digits_step (k : nat) (acc d : Z) (r : string) :
  0 <= d <= 9 ->
  JSDate.take_digits (S k) acc (String (digitChar d) r)
  = JSDate.take_digits k (10 * acc + d) r.
Proof.
  intros H. cbn [JSDate.take_digits].
  rewrite JSONFacts.digit_val_digitChar by exact H. reflexivity.
Qed.

Lemma take_pad_2 (n : Z) (rest : string) :
  0 <= n <= 99 ->
  JSDate.take_digits 2 0 (pad n 2 ++ rest)%string = Some (n, rest).
Proof.
  intros H. rewrite pad_2 by exact H. cbn [String.append].
  rewrite !take_digits_step by dlia. cbn [JSDate.take_digits].
  do 2 f_equal. dlia.
Qed.

Lemma take_pad_3 (n : Z) (rest : string) :
  0 <= n <= 999 ->
  JSDate.take_digits 3 0 (pad n 3 ++ rest)%string = Some (n, rest).
Proof.
  intros H. rewrite pad_3 by exact H. cbn [String.append].
  rewrite !take_digits_step by dlia. cbn [JSDate.take_digits].
  do 2 f_equal. dlia.
Qed.

Lemma take_pad_4 (n : Z) (rest : string) :
  0 <= n <= 9999 ->
  JSDate.take_digits 4 0 (pad n 4 ++ rest)%string = Some (n, rest).
Proof.
  intros H. rewrite pad_4 by exact H. cbn [String.append].
  rewrite !take_digits_step by dlia. cbn [JSDate.take_digits].
  do 2 f_equal. dlia.
Qed.

Lemma expect_here (c : ascii) (r : string) : JSDate.expect c (String c r) = Some r.
Proof. cbn [JSDate.expect]. rewrite Ascii.eqb_refl. reflexivity. Qed.

Lemma DaysInMonth_le (y m : Z) : JSDate.DaysInMonth y m <= 31.
Proof.
  unfold JSDate.DaysInMonth.
  destruct (m =? 2); [destruct (JSDate.isLeap y); lia|].
  destruct (_ || _); lia.
Qed.

Lemma parse_date_pad (y m d : Z) (rest : string) :
  0 <= y <= 9999 -> 1 <= m <= 12 -> 1 <= d <= JSDate.DaysInMonth y m ->
  JSDate.parse_date (pad y 4 ++ "-" ++ pad m 2 ++ "-" ++ pad d 2 ++ rest)%string
  = Some (JSDate.days_from_civil y m d, rest).
Proof.
  intros Hy Hm Hd. pose proof (DaysInMonth_le y m) as H31.
  unfold JSDate.parse_date.
  cbn [String.append].
  rewrite take_pad_4 by exact Hy. cbv beta iota. rewrite expect_here.
  rewrite take_pad_2 by lia. cbv beta iota. rewrite expect_here.
  rewrite take_pad_2 by lia. cbv beta iota.
  assert (E : (1 <=? m) && (m <=? 12) && (1 <=? d) && (d <=? JSDate.DaysInMonth y m)
              = true).
  { rewrite !andb_true_iff, !Z.leb_le. lia. }
  rewrite E. reflexivity.
Qed.

Lemma parse_time_pad (hh mi sec ms : Z) (rest : string) :
  0 <= hh <= 23 -> 0 <= mi <= 59 -> 0 <= sec <= 59 -> 0 <= ms <= 999 ->
  JSDate.parse_time
    (pad hh 2 ++ ":" ++ pad mi 2 ++ ":" ++ pad sec 2 ++ "." ++ pad ms 3 ++ rest)%string
  = Some (hh * 3600000 + mi * 60000 + sec * 1000 + ms, rest).
Proof.
  intros Hh Hmi Hs Hms. unfold JSDate.parse_time.
  cbn [String.append].
  rewrite take_pad_2 by lia. cbv beta iota. rewrite expect_here.
  rewrite take_pad_2 by lia. cbv beta iota. rewrite expect_here.
  rewrite take_pad_2 by lia. cbv beta iota. rewrite expect_here.
  rewrite take_pad_3 by lia. cbv beta iota.
  assert (E : (hh <=? 23) && (mi <=? 59) && (sec <=? 59) = true).
  { rewrite !andb_true_iff, !Z.leb_le. lia. }
  rewrite E. reflexivity.
Qed.


(** ** The date of the form *)

Lemma digit_val_inv (c : ascii) (d : Z) :
  JSDate.digit_val c = Some d -> 0 <= d <= 9 /\ c = digitChar d.
Proof.
  unfold JSDate.digit_val. destruct (_ && _) eqn:E; [|discriminate].
  intros H. injection H as <-.
  apply andb_true_iff in E as [E1 E2]. apply Z.leb_le in E1, E2.
  split; [lia|]. unfold digitChar.
  replace (48 + Z.to_nat (Z.of_nat (nat_of_ascii c) - 48))%nat
    with (nat_of_ascii c) by lia.
  symmetry. apply ascii_nat_embedding.
Qed.

Lemma take_digits_inv (k : nat) (acc : Z) (s : string) (v : Z) (r : string) :
  JSDate.take_digits (S k) acc s = Some (v, r) ->
  exists d s', 0 <= d <= 9 /\ s = String (digitChar d) s'
               /\ JSDate.take_digits k (10 * acc + d) s' = Some (v, r).
Proof.
  cbn [JSDate.take_digits]. destruct s as [|c s']; [discriminate|].
  destruct (JSDate.digit_val c) as [d|] eqn:E; [|discriminate].
  apply digit_val_inv in E as [Hd ->]. intros H. exists d, s'. auto.
Qed.

Lemma take_digits_O (acc : Z) (s : string) :
  JSDate.take_digits 0 acc s = Some (acc, s).
Proof. reflexivity. Qed.

Lemma take_2_inv (s : string) (v : Z) (r : string) :
  JSDate.take_digits 2 0 s = Some (v, r) ->
  0 <= v <= 99 /\ s = (pad v 2 ++ r)%string.
Proof.
  intros H.
  apply take_digits_inv in H as (a & s1 & Ha & -> & H).
  apply take_digits_inv in H as (b & s2 & Hb & -> & H).
  rewrite take_digits_O in H.
  assert (Ev : v = 10 * (10 * 0 + a) + b) by congruence.
  assert (Er : r = s2) by congruence. subst v r. clear H.
  split; [lia|]. rewrite pad_2 by lia.
  replace ((10 * (10 * 0 + a) + b) / 10) with a by dlia.
  replace ((10 * (10 * 0 + a) + b) mod 10) with b by dlia.
  reflexivity.
Qed.

Lemma take_4_inv (s : string) (v : Z) (r : string) :
  JSDate.take_digits 4 0 s = Some (v, r) ->
  0 <= v <= 9999 /\ s = (pad v 4 ++ r)%string.
Proof.
  intros H.
  apply take_digits_inv in H as (a & s1 & Ha & -> & H).
  apply take_digits_inv in H as (b & s2 & Hb & -> & H).
  apply take_digits_inv in H as (c & s3 & Hc & -> & H).
  apply take_digits_inv in H as (d & s4 & Hd & -> & H).
  rewrite take_digits_O in H.
  assert (Ev : v = 10 * (10 * (10 * (10 * 0 + a) + b) + c) + d) by congruence.
  assert (Er : r = s4) by congruence. subst r. clear H.
  split; [lia|]. rewrite pad_4 by lia.
  replace (v / 1000) with a by dlia.
  replace ((v / 100) mod 10) with b by dlia.
  replace ((v / 10) mod 10) with c by dlia.
  replace (v mod 10) with d by dlia.
  reflexivity.
Qed.

Lemma expect_inv (c : ascii) (s r : string) :
  JSDate.expect c s = Some r -> s = String c r.
Proof.
  destruct s as [|c' s']; [discriminate|]. cbn [JSDate.expect].
  destruct (Ascii.eqb c c') eqn:E; [|discriminate].
  apply Ascii.eqb_eq in E. subst c'. intros H. injection H as <-. reflexivity.
Qed.

(** The texts [parse_date] reads: four digits, two digits and two digits
    of a date of the calendar. *)
Lemma parse_date_inv (s : string) (day : Z) (rest : string) :
  JSDate.parse_date s = Some (day, rest) ->
  exists y m d,
    0 <= y <= 9999 /\ 1 <= m <= 12 /\ 1 <= d <= JSDate.DaysInMonth y m
    /\ day = JSDate.days_from_civil y m d
    /\ s = (pad y 4 ++ "-" ++ pad m 2 ++ "-" ++ pad d 2 ++ rest)%string.
Proof.
  unfold JSDate.parse_date.
  destruct (JSDate.take_digits 4 0 s) as [[y s1]|] eqn:E1; [|discriminate].
  destruct (JSDate.expect "-" s1) as [s2|] eqn:E2; [|discriminate].
  destruct (JSDate.take_digits 2 0 s2) as [[m s3]|] eqn:E3; [|discriminate].
  destruct (JSDate.expect "-" s3) as [s4|] eqn:E4; [|discriminate].
  destruct (JSDate.take_digits 2 0 s4) as [[d s5]|] eqn:E5; [|discriminate].
  destruct (_ && _) eqn:E; [|discriminate].
  intros H. injection H as <- <-.
  apply take_4_inv in E1 as [Hy ->]. apply expect_inv in E2 as ->.
  apply take_2_inv in E3 as [Hm ->]. apply expect_inv in E4 as ->.
  apply take_2_inv in E5 as [Hd ->].
  rewrite !andb_true_iff, !Z.leb_le in E.
  exists y, m, d. repeat (split; [lia|]). split; reflexivity.
Qed.

Lemma time_fields (t : Z) :
  0 <= HourFromTime t <= 23 /\ 0 <= MinFromTime t <= 59
  /\ 0 <= SecFromTime t <= 59 /\ 0 <= msFromTime t <= 999
  /\ JSDate.Day t * JSDate.msPerDay
     + (HourFromTime t * 3600000 + MinFromTime t * 60000
        + SecFromTime t * 1000 + msFromTime t) = t.
Proof.
  unfold HourFromTime, MinFromTime, SecFromTime, msFromTime, JSDate.Day,
    JSDate.msPerDay. dlia.
Qed.

(** The text of a time value whose year has four digits. *)
Lemma toISOString_text (t y m d : Z) :
  JSDate.civil_from_days (JSDate.Day t) = (y, m, d) ->
  0 <= y <= 9999 ->
  toISOString (Some t)
  = Some (pad y 4 ++ "-" ++ pad m 2 ++ "-" ++ pad d 2
          ++ "T" ++ pad (HourFromTime t) 2 ++ ":" ++ pad (MinFromTime t) 2
          ++ ":" ++ pad (SecFromTime t) 2 ++ "." ++ pad (msFromTime t) 3 ++ "Z")%string.
Proof.
  intros E Hy. unfold toISOString, JSDate.YearFromTime, JSDate.MonthFromTime,
    JSDate.DateFromTime. rewrite E.
  assert (Hr : (0 <=? y) && (y <=? 9999) = true)
    by (rewrite andb_true_iff, !Z.leb_le; lia).
  rewrite Hr. replace (m - 1 + 1) with m by lia. reflexivity.
Qed.

Lemma parse_iso_text (y m d hh mi sec ms : Z) :
  0 <= y <= 9999 -> 1 <= m <= 12 -> 1 <= d <= JSDate.DaysInMonth y m ->
  0 <= hh <= 23 -> 0 <= mi <= 59 -> 0 <= sec <= 59 -> 0 <= ms <= 999 ->
  JSDate.parse (pad y 4 ++ "-" ++ pad m 2 ++ "-" ++ pad d 2
                ++ "T" ++ pad hh 2 ++ ":" ++ pad mi 2
                ++ ":" ++ pad sec 2 ++ "." ++ pad ms 3 ++ "Z")%string
  = Some (JSDate.days_from_civil y m d * JSDate.msPerDay
          + (hh * 3600000 + mi * 60000 + sec * 1000 + ms)).
Proof.
  intros Hy Hm Hd Hh Hmi Hs Hms. unfold JSDate.parse.
  rewrite parse_date_pad by assumption. cbv beta iota.
  cbn [String.append].
  change (Ascii.eqb "T" "T") with true. cbv iota.
  pose proof (parse_time_pad hh mi sec ms "Z" Hh Hmi Hs Hms) as Hq.
  cbn [String.append] in Hq. rewrite Hq. reflexivity.
Qed.

Lemma iso_text_length (y m d hh mi sec ms : Z) (rest : string) :
  0 <= y <= 9999 -> 0 <= m <= 99 -> 0 <= d <= 99 ->
  substring 0 10 (pad y 4 ++ "-" ++ pad m 2 ++ "-" ++ pad d 2 ++ rest)
  = (pad y 4 ++ "-" ++ pad m 2 ++ "-" ++ pad d 2)%string
  /\ String.length (pad y 4 ++ "-" ++ pad m 2 ++ "-" ++ pad d 2)%string = 10%nat.
Proof.
  intros Hy Hm Hd. rewrite pad_4, !pad_2 by lia.
  cbn [String.append substring String.length].
  split; [|reflexivity]. destruct rest; reflexivity.
Qed.


(** X20.  The date the form is created with, [new Date().toISOString()],
    is read back by [new Date(date)] as the same instant, when the year of
    the clock has four digits: the text has 24 characters, the date input
    and the date badge show its first ten, and the report prints the local
    date of that instant. *)
Theorem form_date_roundtrip (t : Z) :
  0 <= JSDate.YearFromTime t <= 9999 ->
  exists iso,
    toISOString (JSDate.of_number t) = Some iso
    /\ JSDate.of_string iso = JSDate.of_number t
    /\ String.length iso = 24%nat
    /\ date_shown iso = Some (substring 0 10 iso)
    /\ (forall h, ymd h (JSDate.of_string iso) = ymd h (JSDate.of_number t)).
Proof.
  intros Hy. unfold JSDate.of_number, JSDate.of_string.
  pose proof (days_civil (JSDate.Day t)) as Hc.
  unfold JSDate.YearFromTime in Hy.
  destruct (JSDate.civil_from_days (JSDate.Day t)) as [[y m] d] eqn:E.
  destruct Hc as (Hday & Hm & Hd).
  pose proof (DaysInMonth_le y m) as H31.
  destruct (time_fields t) as (Hh & Hmi & Hs & Hms & Ht).
  rewrite (toISOString_text t y m d E Hy).
  eexists. split; [reflexivity|].
  assert (Hp : JSDate.parse
                 (pad y 4 ++ "-" ++ pad m 2 ++ "-" ++ pad d 2
                  ++ "T" ++ pad (HourFromTime t) 2 ++ ":" ++ pad (MinFromTime t) 2
                  ++ ":" ++ pad (SecFromTime t) 2 ++ "."
                  ++ pad (msFromTime t) 3 ++ "Z")%string = Some t).
  { rewrite parse_iso_text by assumption. rewrite Hday, Ht. reflexivity. }
  split; [exact Hp|]. split; [|split].
  - rewrite pad_4, !pad_2, pad_3 by lia. reflexivity.
  - unfold date_shown, JSDate.of_string. rewrite Hp.
    rewrite (toISOString_text t y m d E Hy). reflexivity.
  - intros h. rewrite Hp. reflexivity.
Qed.

Lemma form_date_roundtrip_witness :
  exists iso,
    toISOString (JSDate.of_number 1709640000123) = Some iso
    /\ JSDate.of_string iso = JSDate.of_number 1709640000123.
Proof.
  destruct (form_date_roundtrip 1709640000123) as (iso & H1 & H2 & _).
  - vm_compute. split; intros H; discriminate H.
  - exists iso. split; assumption.
Defined.

(** The text the date input stores for a chosen day denotes midnight UTC
    of that day. *)
Lemma stored_date_parse (value : string) (day : Z) :
  JSDate.parse_date value = Some (day, "") ->
  JSDate.parse (value ++ "T00:00:00.000Z")%string = Some (day * JSDate.msPerDay).
Proof.
  intros H.
  destruct (parse_date_inv value day "" H) as (y & m & d & Hy & Hm & Hd & -> & E).
  rewrite string_app_nil_r in E.
  rewrite E, !string_app_assoc. cbn [String.append].
  pose proof (parse_iso_text y m d 0 0 0 0 Hy Hm Hd) as Hq.
  cbn [String.append] in Hq.
  change (pad 0 2) with "00" in Hq. change (pad 0 3) with "000" in Hq.
  cbn [String.append] in Hq. rewrite Hq by lia. f_equal. lia.
Qed.

(** X21.  The date input.  The empty value of a cleared input makes the
    change handler throw.  A value that is a date of the calendar,
    [YYYY-MM-DD], is stored as that text followed by [T00:00:00.000Z],
    which denotes midnight UTC of that day; the input then shows the value
    again, and every other field of the form is kept. *)
Theorem date_input_roundtrip (s : Entry.t) :
  onDateChange "" s = None
  /\ (forall value day,
         JSDate.parse_date value = Some (day, "") ->
         exists s',
           onDateChange value s = Some s'
           /\ Entry.date s' = (value ++ "T00:00:00.000Z")%string
           /\ date_shown (Entry.date s') = Some value
           /\ JSDate.of_string (Entry.date s') = Some (day * JSDate.msPerDay)
           /\ with_date s' (Entry.date s) = s).
Proof.
  split; [reflexivity|].
  intros value day H.
  destruct (parse_date_inv value day "" H) as (y & m & d & Hy & Hm & Hd & -> & E).
  rewrite string_app_nil_r in E.
  pose proof (DaysInMonth_le y m) as H31.
  assert (Hp : JSDate.parse value
               = Some (JSDate.days_from_civil y m d * JSDate.msPerDay)).
  { unfold JSDate.parse. rewrite H. reflexivity. }
  set (t := JSDate.days_from_civil y m d * JSDate.msPerDay) in *.
  assert (Hday : JSDate.Day t = JSDate.days_from_civil y m d).
  { unfold t, JSDate.Day. apply Z.div_mul. discriminate. }
  assert (Hciv : JSDate.civil_from_days (JSDate.Day t) = (y, m, d)).
  { rewrite Hday. apply civil_days; assumption. }
  assert (Hzero : HourFromTime t = 0 /\ MinFromTime t = 0 /\ SecFromTime t = 0
                  /\ msFromTime t = 0).
  { unfold t, HourFromTime, MinFromTime, SecFromTime, msFromTime, JSDate.msPerDay.
    dlia. }
  destruct Hzero as (Hh & Hmi & Hs & Hms).
  assert (Hiso : toISOString (Some t) = Some (value ++ "T00:00:00.000Z")%string).
  { rewrite (toISOString_text t y m d Hciv Hy). rewrite Hh, Hmi, Hs, Hms, E.
    rewrite !string_app_assoc. reflexivity. }
  assert (Hback : JSDate.parse (value ++ "T00:00:00.000Z")%string = Some t)
    by (apply stored_date_parse; exact H).
  exists (with_date s (value ++ "T00:00:00.000Z")%string).
  split; [|split; [reflexivity|split; [|split]]].
  - unfold onDateChange, JSDate.of_string. rewrite Hp, Hiso. reflexivity.
  - cbn [with_date Entry.date]. unfold date_shown, JSDate.of_string.
    rewrite Hback, Hiso. cbn [option_map]. f_equal.
    rewrite E, !string_app_assoc. cbn [String.append].
    pose proof (iso_text_length y m d 0 0 0 0 "T00:00:00.000Z" Hy) as [Hsub _];
      [lia | lia |].
    cbn [String.append] in Hsub. exact Hsub.
  - cbn [with_date Entry.date]. unfold JSDate.of_string. exact Hback.
  - destruct s; reflexivity.
Qed.

Lemma date_input_roundtrip_witness :
  exists s',
    onDateChange "2024-02-29" entry_raw = Some s'
    /\ Entry.date s' = "2024-02-29T00:00:00.000Z"
    /\ date_shown (Entry.date s') = Some "2024-02-29".
Proof.
  destruct (proj2 (date_input_roundtrip entry_raw) "2024-02-29" 19782
              eq_refl) as (s' & H1 & H2 & H3 & _).
  exists s'. split; [exact H1|]. split; [exact H2 | exact H3].
Defined.


(** ** The entries of today *)

Lemma string_app_inj (s1 s2 t1 t2 : string) :
  String.length t1 = String.length t2 ->
  (s1 ++ t1)%string = (s2 ++ t2)%string -> s1 = s2 /\ t1 = t2.
Proof.
  intros Hl. revert s2. induction s1 as [|c s1 IH]; intros s2 E.
  - destruct s2 as [|c2 s2]; [split; [reflexivity | exact E]|]. exfalso.
    apply (f_equal String.length) in E. cbn [String.append String.length] in E.
    rewrite string_length_app in E. lia.
  - destruct s2 as [|c2 s2].
    + exfalso. apply (f_equal String.length) in E.
      cbn [String.append String.length] in E. rewrite string_length_app in E. lia.
    + cbn [String.append] in E. injection E as -> E.
      destruct (IH _ E) as [-> ->]. split; reflexivity.
Qed.

Lemma Number_toString_inj (a b : Z) : Number_toString a = Number_toString b -> a = b.
Proof.
  intros E.
  pose proof (JSONFacts.parse_number_toString a [] eq_refl) as Ha.
  pose proof (JSONFacts.parse_number_toString b [] eq_refl) as Hb.
  rewrite E in Ha. congruence.
Qed.

Lemma digitChar_inj (a b : Z) :
  0 <= a <= 9 -> 0 <= b <= 9 -> digitChar a = digitChar b -> a = b.
Proof.
  intros Ha Hb E.
  pose proof (JSONFacts.digit_val_digitChar a Ha) as H1.
  pose proof (JSONFacts.digit_val_digitChar b Hb) as H2.
  rewrite E in H1. congruence.
Qed.

Lemma pad_2_inj (a b : Z) : 0 <= a <= 99 -> 0 <= b <= 99 -> pad a 2 = pad b 2 -> a = b.
Proof.
  intros Ha Hb. rewrite !pad_2 by assumption. intros E.
  injection E as E1 E2.
  apply digitChar_inj in E1, E2; dlia.
Qed.

Lemma date_text_inj (y1 m1 d1 y2 m2 d2 : Z) :
  0 <= m1 <= 99 -> 0 <= d1 <= 99 -> 0 <= m2 <= 99 -> 0 <= d2 <= 99 ->
  date_text (y1, m1, d1) = date_text (y2, m2, d2) ->
  (y1, m1, d1) = (y2, m2, d2).
Proof.
  intros Hm1 Hd1 Hm2 Hd2 E. unfold date_text in E.
  apply string_app_inj in E as [Ey E].
  - apply Number_toString_inj in Ey. subst y2.
    cbn [String.append] in E. injection E as E.
    apply string_app_inj in E as [Em E].
    + apply pad_2_inj in Em; [|lia|lia]. subst m2.
      cbn [String.append] in E. injection E as E.
      apply pad_2_inj in E; [|lia|lia]. subst d2. reflexivity.
    + cbn [String.append String.length]. rewrite !pad_2 by lia. reflexivity.
  - cbn [String.append String.length]. rewrite !string_length_app.
    cbn [String.append String.length]. rewrite !pad_2 by lia. reflexivity.
Qed.

Lemma civil_ranges (z : Z) :
  let '(y, m, d) := JSDate.civil_from_days z in 1 <= m <= 12 /\ 1 <= d <= 31.
Proof.
  pose proof (days_civil z) as H.
  destruct (JSDate.civil_from_days z) as [[y m] d].
  destruct H as (_ & Hm & Hd). pose proof (DaysInMonth_le y m). lia.
Qed.

Lemma civil_from_days_inj (z1 z2 : Z) :
  JSDate.civil_from_days z1 = JSDate.civil_from_days z2 -> z1 = z2.
Proof.
  intros E. pose proof (days_civil z1) as H1. pose proof (days_civil z2) as H2.
  rewrite E in H1. destruct (JSDate.civil_from_days z2) as [[y m] d].
  destruct H1 as [H1 _]. destruct H2 as [H2 _]. congruence.
Qed.

Lemma ymd_text (h : JSDate.Host) (t : Z) :
  ymd h (Some t) = date_text (local_date h t).
Proof.
  unfold ymd, yyyy_of, mm_of, dd_of, JSDate.getFullYear, JSDate.getMonth,
    JSDate.getDate, JSDate.YearFromTime, JSDate.MonthFromTime, JSDate.DateFromTime,
    local_date, succ_number, option_map, String_of_number, date_text.
  destruct (JSDate.civil_from_days _) as [[y m] d].
  replace (m - 1 + 1) with m by lia. reflexivity.
Qed.





(** ** The day chosen in the form and the day printed in the report *)

Lemma pad_4_big (y : Z) : 1000 <= y <= 9999 -> pad y 4 = Number_toString y.
Proof.
  intros Hy. pose proof (pad_4 y ltac:(lia)) as H4.
  unfold pad, padStart in *.
  destruct (4 <=? String.length (Number_toString y))%nat eqn:E; [reflexivity|].
  exfalso. apply Nat.leb_gt in E.
  destruct (4 - String.length (Number_toString y))%nat as [|k] eqn:Ek; [lia|].
  cbn [fill String.append] in H4. injection H4 as H4 _.
  change "0"%char with (digitChar 0) in H4.
  apply digitChar_inj in H4; dlia.
Qed.

(** X23.  The day chosen in the date input and the day the report and the
    file name of the PDF print, for a year of four digits without leading
    zero: on a host whose local time at midnight UTC of the chosen day is
    at or ahead of UTC (by less than a day) the printed date is the chosen
    one; on a host behind UTC (by at most a day) it is the date of the day
    before, and never the chosen one. *)
Theorem chosen_day_printed (h : JSDate.Host) (value : string) (day : Z) :
  JSDate.parse_date value = Some (day, "") ->
  1000 <= JSDate.YearFromTime (day * JSDate.msPerDay) ->
  let stored := (value ++ "T00:00:00.000Z")%string in
  let tza := JSDate.LocalTZA h (day * JSDate.msPerDay) in
  (0 <= tza < JSDate.msPerDay -> ymd h (JSDate.of_string stored) = value)
  /\ (- JSDate.msPerDay <= tza < 0 ->
      ymd h (JSDate.of_string stored) = date_text (JSDate.civil_from_days (day - 1))
      /\ ymd h (JSDate.of_string stored) <> value).
Proof.
  intros H Hy. cbv zeta. unfold JSDate.of_string.
  rewrite (stored_date_parse value day H).
  destruct (parse_date_inv value day "" H) as (y & m & d & Hy' & Hm & Hd & Eday & E).
  rewrite string_app_nil_r in E.
  assert (Hciv : JSDate.civil_from_days day = (y, m, d))
    by (rewrite Eday; apply civil_days; assumption).
  assert (Hyear : JSDate.YearFromTime (day * JSDate.msPerDay) = y).
  { unfold JSDate.YearFromTime, JSDate.Day. rewrite Z.div_mul by discriminate.
    rewrite Hciv. reflexivity. }
  rewrite Hyear in Hy.
  assert (Hvalue : value = date_text (JSDate.civil_from_days day)).
  { rewrite Hciv, E. unfold date_text. rewrite pad_4_big by lia. reflexivity. }
  rewrite ymd_text. unfold local_date, JSDate.LocalTime.
  split.
  - intros Hz.
    replace (JSDate.Day (day * JSDate.msPerDay
                         + JSDate.LocalTZA h (day * JSDate.msPerDay))) with day
      by (unfold JSDate.Day, JSDate.msPerDay in *; dlia).
    symmetry. exact Hvalue.
  - intros Hz.
    replace (JSDate.Day (day * JSDate.msPerDay
                         + JSDate.LocalTZA h (day * JSDate.msPerDay))) with (day - 1)
      by (unfold JSDate.Day, JSDate.msPerDay in *; dlia).
    split; [reflexivity|]. rewrite Hvalue. intros Eq.
    pose proof (civil_ranges (day - 1)) as R1. pose proof (civil_ranges day) as R2.
    destruct (JSDate.civil_from_days (day - 1)) as [[y1 m1] d1] eqn:E1.
    destruct (JSDate.civil_from_days day) as [[y2 m2] d2] eqn:E2.
    apply date_text_inj in Eq; [|lia|lia|lia|lia].
    rewrite <- E1, <- E2 in Eq. apply civil_from_days_inj in Eq. lia.
Qed.

Lemma chosen_day_printed_witness :
  ymd (JSDate.fixed_zone 480 0) (JSDate.of_string "2024-02-29T00:00:00.000Z")
  = "2024-02-29"
  /\ ymd (JSDate.fixed_zone (-300) 0) (JSDate.of_string "2024-03-01T00:00:00.000Z")
     <> "2024-03-01".
Proof.
  split.
  - apply (proj1 (chosen_day_printed (JSDate.fixed_zone 480 0) "2024-02-29" 19782
                    eq_refl ltac:(vm_compute; intros H; discriminate H))).
    vm_compute. split; [intros H; discriminate H | reflexivity].
  - apply (proj2 (chosen_day_printed (JSDate.fixed_zone (-300) 0) "2024-03-01" 19783
                    eq_refl ltac:(vm_compute; intros H; discriminate H))).
    vm_compute. split; [intros H; discriminate H | reflexivity].
Defined.
